(** * pyAFQ: tracking generator, node weights, tensor ODF, bundle dictionary

    A shallow embedding of [AFQ/_fixes.py] and [AFQ/api/bundle_dict.py].

    - [Py]       : Python exceptions, slicing and string helpers.
    - [Tracking] : [_verbose_generate_tractogram] over an abstract tracker.
    - [Numeric]  : the array arithmetic of [gaussian_weights] and
                   [tensor_odf], over exact reals extended with the IEEE
                   special values that numpy produces where real arithmetic
                   is undefined (division by zero, root of a negative).
    - [Bundles]  : [_GeneratedBundleDict] and [BundleDict] as state
                   transformers over finite maps.

    The model comes first; the theorems follow it. *)

From Stdlib Require Import ZArith List String Ascii Bool Lia Reals Lra Psatz.
From stdpp Require Import gmap strings list.

Set Default Proof Using "Type".

(* ===================================================================== *)
(** * Part I: the model                                                   *)
(* ===================================================================== *)

Module Py.

(** The exceptions the modelled code raises. *)
Inductive exn :=
| ValueError (msg : string)
| KeyError (key : string)
| RuntimeError (msg : string)
| AttributeError (attr : string)
| ZeroDivisionError.

Inductive result (A : Type) :=
| Ok (a : A)
| Raise (e : exn).
Arguments Ok {A} a.
Arguments Raise {A} e.

Definition bind {A B} (r : result A) (k : A -> result B) : result B :=
  match r with
  | Ok a => k a
  | Raise e => Raise e
  end.

Definition is_ok {A} (r : result A) : bool :=
  match r with Ok _ => true | Raise _ => false end.

(** [l[:k]] for a Python int [k] (negative counts from the end). *)
Definition slice_to {A} (k : Z) (l : list A) : list A :=
  if (k <? 0)%Z
  then firstn (Z.to_nat (Z.of_nat (length l) + k)) l
  else firstn (Z.to_nat k) l.

(** [l[a:0:-1]]: the start is normalised the way CPython does for a
    negative step, then indices [a, a-1, ..., 1] are read. *)
Definition slice_down_to_1 {A} (a : Z) (l : list A) : list A :=
  let n := Z.of_nat (length l) in
  let a' := if (a <? 0)%Z then Z.max (a + n) (-1) else Z.min a (n - 1) in
  rev (skipn 1 (firstn (Z.to_nat (a' + 1)) l)).

(** [l[lo:hi]] for naturals. *)
Definition slice {A} (lo hi : nat) (l : list A) : list A :=
  skipn lo (firstn hi l).

(** [s[:-2]] and [s[-2:]]. *)
Definition str_but_last2 (s : string) : string :=
  String.substring 0 (String.length s - 2) s.
Definition str_last2 (s : string) : string :=
  String.substring (String.length s - 2) 2 s.

(** [s.startswith(p)], [s.endswith(p)]. *)
Definition startswith (p s : string) : bool := String.prefix p s.
Definition endswith (p s : string) : bool :=
  String.eqb
    (String.substring (String.length s - String.length p) (String.length p) s)
    p.

(** [s.lower()] on ASCII. *)
Definition lower_ascii (c : ascii) : ascii :=
  let n := nat_of_ascii c in
  if (65 <=? n)%nat && (n <=? 90)%nat then ascii_of_nat (n + 32) else c.
Fixpoint lower (s : string) : string :=
  match s with
  | EmptyString => EmptyString
  | String c s' => String (lower_ascii c) (lower s')
  end.

(** [x in l] for a list of strings. *)
Definition str_in (x : string) (l : list string) : bool :=
  existsb (String.eqb x) l.

(** [l.remove(x)] where [x in l] has been checked: drops the first [x]. *)
Fixpoint remove_first (x : string) (l : list string) : list string :=
  match l with
  | [] => []
  | y :: l' => if String.eqb x y then l' else y :: remove_first x l'
  end.

(** Code that mutates [self] and may raise: the state survives a raise. *)
Definition M (S A : Type) : Type := S -> result A * S.
Definition ret {S A} (a : A) : M S A := fun s => (Ok a, s).
Definition raise {S A} (e : exn) : M S A := fun s => (Raise e, s).
Definition get {S} : M S S := fun s => (Ok s, s).
Definition modify {S} (f : S -> S) : M S unit := fun s => (Ok tt, f s).
Definition mbind {S A B} (m : M S A) (k : A -> M S B) : M S B :=
  fun s => match m s with
           | (Ok a, s') => k a s'
           | (Raise e, s') => (Raise e, s')
           end.

End Py.

(** [x ← r; k] runs [r] and passes its value on, or re-raises. *)
#[global] Instance result_bind : MBind Py.result := fun _ _ k r => Py.bind r k.
#[global] Instance result_ret : MRet Py.result := fun _ a => Py.Ok a.
#[global] Instance M_bind {S} : MBind (Py.M S) := fun _ _ k m => Py.mbind m k.
#[global] Instance M_ret {S} : MRet (Py.M S) := fun _ a => Py.ret a.

(** Unfolds the binds and returns of both monads. *)
Ltac unfold_m :=
  unfold mbind, mret, M_bind, M_ret, Py.mbind, Py.ret, Py.raise, Py.get,
    Py.modify, result_bind, result_ret, Py.bind in *.

(* --------------------------------------------------------------------- *)
(** ** [_verbose_generate_tractogram]                                     *)
(* --------------------------------------------------------------------- *)

Module Tracking.

(** [TissueTypes] / [StreamlineStatus] codes. *)
Definition OUTSIDEIMAGE : Z := -1.
Definition INVALIDPOINT : Z := 0.
Definition TRACKPOINT : Z := 1.
Definition ENDPOINT : Z := 2.

(** The collaborators of the generator: the inverse affine applied to a
    seed, the direction getter and the tracker (which fills the buffer it
    is given and returns the number of steps and the stream status), and
    the random state they share. *)
Class Tracker := {
  point : Type;
  world : Type;
  uninit : point;
  to_voxel : point -> point;
  reseed : Z -> point -> world -> world;
  initial_direction : point -> world -> list point * world;
  neg : point -> point;
  run_tracker : point -> point -> list point -> world
                -> Z * Z * list point * world
}.

Section Generator.
Context {T : Tracker}.

(** The attributes of [self] that the generator reads. *)
Record config := {
  seeds : list point;
  random_seed : option Z;
  return_all : bool;
  save_seeds : bool;
  max_cross : option Z;
  min_length : Z;
  max_length : Z
}.

(** What one [yield] hands out: [streamline] or [(streamline, s)]. *)
Inductive item :=
| Streamline (sl : list point)
| WithSeed (sl : list point) (s : point).

Definition points (i : item) : list point :=
  match i with Streamline sl => sl | WithSeed sl _ => sl end.

Definition emit (cfg : config) (sl : list point) (s : point) : item :=
  if save_seeds cfg then WithSeed sl s else Streamline sl.

Definition accepted (cfg : config) (stream_status : Z) : bool :=
  return_all cfg
  || (stream_status =? ENDPOINT)%Z
  || (stream_status =? OUTSIDEIMAGE)%Z.

(** The stitch of lines 87-91. *)
Definition stitch (stepsF stepsB : Z) (F B : list point) : list point :=
  if (stepsB =? 1)%Z
  then Py.slice_to stepsF F
  else Py.slice_down_to_1 (stepsB - 1) B ++ Py.slice_to stepsF F.

(** Buffers [F], [B] and the random state, threaded through the loops. *)
Definition loop_state : Type := list point * list point * world.

(** Body of [for first_step in directions]. *)
Definition track_one (cfg : config) (s first_step : point) (st : loop_state)
  : option item * loop_state :=
  let '(F, B, w) := st in
  let '(stepsF, stream_status, F1, w1) := run_tracker s first_step F w in
  if negb (accepted cfg stream_status) then (None, (F1, B, w1))
  else
    let first_step := neg first_step in
    let '(stepsB, stream_status', B1, w2) := run_tracker s first_step B w1 in
    if negb (accepted cfg stream_status') then (None, (F1, B1, w2))
    else
      let streamline := stitch stepsF stepsB F1 B1 in
      let len_sl := Z.of_nat (length streamline) in
      if (min_length cfg <=? len_sl)%Z && (len_sl <=? max_length cfg)%Z
      then (Some (emit cfg streamline s), (F1, B1, w2))
      else (None, (F1, B1, w2)).

Fixpoint track_all (cfg : config) (s : point) (directions : list point)
    (st : loop_state) : list item * loop_state :=
  match directions with
  | [] => ([], st)
  | first_step :: rest =>
      let '(y, st1) := track_one cfg s first_step st in
      let '(ys, st2) := track_all cfg s rest st1 in
      (match y with Some i => i :: ys | None => ys end, st2)
  end.

Definition limit_cross (cfg : config) (directions : list point) : list point :=
  match max_cross cfg with
  | None => directions
  | Some k => Py.slice_to k directions
  end.

(** Body of [for s in tqdm(self.seeds)]. *)
Definition from_seed (cfg : config) (s0 : point) (st : loop_state)
  : list item * loop_state :=
  let '(F, B, w) := st in
  let s := to_voxel s0 in
  let w1 := match random_seed cfg with
            | Some r => reseed r s w
            | None => w
            end in
  let '(directions, w2) := initial_direction s w1 in
  let seed_only :=
    match directions with
    | [] => if return_all cfg then [emit cfg [s] s] else []
    | _ :: _ => []
    end in
  let '(ys, st1) := track_all cfg s (limit_cross cfg directions) (F, B, w2) in
  (seed_only ++ ys, st1).

Fixpoint from_seeds (cfg : config) (ss : list point) (st : loop_state)
  : list item * loop_state :=
  match ss with
  | [] => ([], st)
  | s0 :: rest =>
      let '(ys, st1) := from_seed cfg s0 st in
      let '(zs, st2) := from_seeds cfg rest st1 in
      (ys ++ zs, st2)
  end.

(** The generator, run to exhaustion: everything it yields, in order.
    [np.empty] refuses a negative row count before anything is yielded. *)
Definition _verbose_generate_tractogram (cfg : config) (w : world)
  : Py.result (list item) :=
  if (max_length cfg + 1 <? 0)%Z
  then Py.Raise (Py.ValueError "negative dimensions are not allowed")
  else
    let F := repeat uninit (Z.to_nat (max_length cfg + 1)) in
    let B := F in
    Py.Ok (fst (from_seeds cfg (seeds cfg) (F, B, w))).

(** Where a yielded item comes from: the seed-only [yield] of lines
    68-73, or the [yield] of lines 96-101 after one pass of the inner loop
    from buffers that satisfy [P]. *)
Inductive origin (cfg : config) (P : list point -> list point -> Prop)
  : item -> Prop :=
| seed_only s0 w w' :
    In s0 (seeds cfg) ->
    return_all cfg = true ->
    initial_direction (to_voxel s0) w = ([], w') ->
    origin cfg P (emit cfg [to_voxel s0] (to_voxel s0))
| tracked s0 first_step F B w st' it :
    In s0 (seeds cfg) ->
    P F B ->
    track_one cfg (to_voxel s0) first_step (F, B, w) = (Some it, st') ->
    origin cfg P it.

(** The length filter of lines 95-97. *)
Definition within_lengths (cfg : config) (it : item) : Prop :=
  (min_length cfg <= Z.of_nat (length (points it)) <= max_length cfg)%Z.

(** The two buffers have the [max_length + 1] rows they were allocated
    with. *)
Definition allocated (cfg : config) (F B : list point) : Prop :=
  length F = Z.to_nat (max_length cfg + 1)
  /\ length B = Z.to_nat (max_length cfg + 1).

(** What the generator relies on from the tracker: it fills the buffer in
    place and, given a buffer with at least one row, writes the seed in
    row 0 and returns a step count between 1 and the number of rows. *)
Definition tracker_contract : Prop :=
  forall s d buf w,
    let '(steps, _, buf', _) := run_tracker s d buf w in
    length buf' = length buf
    /\ (buf <> [] ->
        (1 <= steps <= Z.of_nat (length buf))%Z
        /\ nth_error buf' 0 = Some s).

(** The stitch in the spec's words: the points of the backward run at
    indices [stepsB-1] down to 1, then the points of the forward run at
    indices 0 to [stepsF-1]; the seed, at index 0 of both runs, is kept
    once, at the junction. *)
Definition stitched (s : point) (stepsF stepsB : nat) (F B sl : list point)
  : Prop :=
  sl = rev (Py.slice 1 stepsB B) ++ Py.slice 0 stepsF F
  /\ length sl = (stepsB - 1 + stepsF)%nat
  /\ (forall i, (i < stepsB - 1)%nat ->
                nth_error sl i = nth_error B (stepsB - 1 - i))
  /\ (forall j, (j < stepsF)%nat ->
                nth_error sl (stepsB - 1 + j) = nth_error F j)
  /\ nth_error sl (stepsB - 1) = Some s
  /\ (stepsB = 1%nat -> sl = Py.slice 0 stepsF F).

End Generator.
End Tracking.

(* --------------------------------------------------------------------- *)
(** ** Array arithmetic: [gaussian_weights] and [tensor_odf]              *)
(* --------------------------------------------------------------------- *)

Module Numeric.
Local Open Scope R_scope.

(** A float as numpy shows it: a real number, or one of the IEEE special
    values.  Finite arithmetic is exact (no rounding) and zero carries no
    sign (it divides like [+0.0]). *)
Inductive fval :=
| Fin (r : R)
| PInf
| NInf
| NaN.

Definition is_zero (r : R) : bool := if Req_dec_T r 0 then true else false.
Definition is_neg (r : R) : bool := if Rlt_dec r 0 then true else false.
Definition is_pos (r : R) : bool := if Rlt_dec 0 r then true else false.

(** [np.sqrt] of a finite value. *)
Definition np_sqrt (x : R) : fval :=
  if is_neg x then NaN else Fin (sqrt x).

Definition np_add (a b : fval) : fval :=
  match a, b with
  | NaN, _ | _, NaN => NaN
  | PInf, NInf | NInf, PInf => NaN
  | PInf, _ | _, PInf => PInf
  | NInf, _ | _, NInf => NInf
  | Fin x, Fin y => Fin (x + y)
  end.

Definition np_div (a b : fval) : fval :=
  match a, b with
  | NaN, _ | _, NaN => NaN
  | Fin x, Fin y =>
      if is_zero y
      then if is_zero x then NaN else if is_neg x then NInf else PInf
      else Fin (x / y)
  | Fin _, _ => Fin 0
  | PInf, Fin y => if is_neg y then NInf else PInf
  | NInf, Fin y => if is_neg y then PInf else NInf
  | _, _ => NaN
  end.

(** [np.sum] of a one-dimensional array. *)
Definition np_sum (l : list fval) : fval := fold_right np_add (Fin 0) l.

Definition Rsum (l : list R) : R := fold_right Rplus 0 l.

(** [np.mean] of a one-dimensional array. *)
Definition mean (l : list R) : R := Rsum l / INR (length l).

(** Points are rows of three coordinates ([n_dim = 3]). *)
Record vec3 := V3 { vx : R; vy : R; vz : R }.

(** A 3 x 3 array, by rows. *)
Record mat3 := M3 {
  m00 : R; m01 : R; m02 : R;
  m10 : R; m11 : R; m12 : R;
  m20 : R; m21 : R; m22 : R
}.

Definition zero3 : vec3 := V3 0 0 0.
Definition sub3 (a b : vec3) : vec3 :=
  V3 (vx a - vx b) (vy a - vy b) (vz a - vz b).

(** One entry of [np.cov(X.T, ddof=0)] for the rows [X] of one node: the
    products of the deviations of coordinates [f] and [g] from their means,
    summed and divided by the number of rows. *)
Definition cov_entry (f g : vec3 -> R) (X : list vec3) : R :=
  let mf := mean (map f X) in
  let mg := mean (map g X) in
  Rsum (map (fun p => (f p - mf) * (g p - mg)) X) / INR (length X).

Definition cov (X : list vec3) : mat3 :=
  M3 (cov_entry vx vx X) (cov_entry vx vy X) (cov_entry vx vz X)
     (cov_entry vy vx X) (cov_entry vy vy X) (cov_entry vy vz X)
     (cov_entry vz vx X) (cov_entry vz vy X) (cov_entry vz vz X).

(** [np.triu]. *)
Definition triu (m : mat3) : mat3 :=
  M3 (m00 m) (m01 m) (m02 m)
     0       (m11 m) (m12 m)
     0       0       (m22 m).

Definition det3 (m : mat3) : R :=
  m00 m * (m11 m * m22 m - m12 m * m21 m)
  - m01 m * (m10 m * m22 m - m12 m * m20 m)
  + m02 m * (m10 m * m21 m - m11 m * m20 m).

(** [np.linalg.matrix_rank] is numpy's: it counts the singular values of
    the matrix that lie above a tolerance taken relative to the largest
    of them, so that a matrix close to a singular one has a rank below 3
    although its determinant does not vanish.  The code compares the rank
    with [n_dim]; all it relies on is that a matrix counted as of full
    rank can be inverted. *)
Class Linalg := {
  matrix_rank : mat3 -> nat;
  matrix_rank_full : forall m, matrix_rank m = 3%nat -> det3 m <> 0
}.

(** [np.linalg.matrix_rank(m) == n_dim]. *)
Definition full_rank {LA : Linalg} (m : mat3) : bool :=
  (matrix_rank m =? 3)%nat.

(** [np.linalg.inv], read exactly: the adjugate over the determinant. *)
Definition inv3 (m : mat3) : mat3 :=
  let d := det3 m in
  M3 ((m11 m * m22 m - m12 m * m21 m) / d)
     ((m02 m * m21 m - m01 m * m22 m) / d)
     ((m01 m * m12 m - m02 m * m11 m) / d)
     ((m12 m * m20 m - m10 m * m22 m) / d)
     ((m00 m * m22 m - m02 m * m20 m) / d)
     ((m02 m * m10 m - m00 m * m12 m) / d)
     ((m10 m * m21 m - m11 m * m20 m) / d)
     ((m01 m * m20 m - m00 m * m21 m) / d)
     ((m00 m * m11 m - m01 m * m10 m) / d).

(** Row vector times matrix, [d @ m]. *)
Definition vecmat (d : vec3) (m : mat3) : vec3 :=
  V3 (vx d * m00 m + vy d * m10 m + vz d * m20 m)
     (vx d * m01 m + vy d * m11 m + vz d * m21 m)
     (vx d * m02 m + vy d * m12 m + vz d * m22 m).

(** [np.sum((d @ m) * d)] for one row [d]. *)
Definition quad (d : vec3) (m : mat3) : R :=
  let p := vecmat d m in
  vx p * vx d + vy p * vy d + vz p * vz d.

(** The bundle argument: a three-axis array (streamlines x nodes x 3), an
    array of two axes or of one (only its leading length is ever read),
    or anything that is not an array (a list of streamlines, which has no
    [shape]). *)
Inductive bundle :=
| Array3 (sls : list (list vec3))
| Array2 (len : nat)
| Array1 (len : nat)
| Streamlines (sls : list (list vec3)).

(** [dipy.tracking.streamline.set_number_of_points], which may refuse its
    arguments; what it returns is a bundle again, an array or not. *)
Class Resampler := {
  set_number_of_points : bundle -> Z -> Py.result bundle
}.

(** What [gaussian_weights] returns: the one-element array of the
    single-streamline case, or the (n_streamlines, n_nodes) array. *)
Inductive weights_array :=
| Vec (v : list fval)
| Mat (w : list (list fval)).

Definition bundle_len (b : bundle) : nat :=
  match b with
  | Array3 sls => length sls
  | Array2 n | Array1 n => n
  | Streamlines sls => length sls
  end.

(** [a.shape[1]] of a rectangular three-axis array. *)
Definition shape1 {A} (sls : list (list A)) : nat :=
  match sls with
  | [] => 0%nat
  | sl :: _ => length sl
  end.

(** [a[:, i]]. *)
Definition column {A} (dflt : A) (a : list (list A)) (i : nat) : list A :=
  map (fun row => nth i row dflt) a.

(** [a[:, i] = col]. *)
Definition set_column {A} (i : nat) (col : list A) (a : list (list A))
  : list (list A) :=
  zip_with (fun row c => <[i := c]> row) a col.

(** [stat(sls, axis=0)[i]]: the statistic of each coordinate at node [i]. *)
Definition center_at (stat : list R -> R) (sls : list (list vec3)) (i : nat)
  : vec3 :=
  let c := column zero3 sls i in
  V3 (stat (map vx c)) (stat (map vy c)) (stat (map vz c)).

Definition stat_axis0 (stat : list R -> R) (sls : list (list vec3))
  : list vec3 :=
  map (center_at stat sls) (seq 0 (shape1 sls)).

(** Lines 295-310: the distances of one node. *)
Definition node_distances {LA : Linalg} (X : list vec3) (d : list vec3)
  : list fval :=
  let v_inv := triu (cov X) in
  if full_rank v_inv
  then map (fun dj => np_sqrt (quad dj (inv3 v_inv))) d
  else map (fun _ => Fin 0) d.

(** Lines 288-310: the array [weights] when the loop over the nodes has
    run. *)
Definition distance_loop {LA : Linalg} (stat : list R -> R)
    (sls : list (list vec3)) : list (list fval) :=
  let n_sls := length sls in
  let n_nodes := shape1 sls in
  let weights := repeat (repeat (Fin 0) n_nodes) n_sls in
  let diff := map (fun sl => zip_with sub3 (stat_axis0 stat sls) sl) sls in
  fold_left
    (fun w i =>
       set_column i
         (node_distances (column zero3 sls i) (column zero3 diff i)) w)
    (seq 0 n_nodes) weights.

(** Lines 316-318: inverse distances, normalised over the streamlines. *)
Definition normalise (weights : list (list fval)) : list (list fval) :=
  let n_nodes := shape1 weights in
  let weights := map (map (np_div (Fin 1))) weights in
  let total := map (fun i => np_sum (column NaN weights i)) (seq 0 n_nodes) in
  map (fun row => zip_with np_div row total) weights.

Definition matmul (a b : mat3) : mat3 :=
  M3 (m00 a * m00 b + m01 a * m10 b + m02 a * m20 b)
     (m00 a * m01 b + m01 a * m11 b + m02 a * m21 b)
     (m00 a * m02 b + m01 a * m12 b + m02 a * m22 b)
     (m10 a * m00 b + m11 a * m10 b + m12 a * m20 b)
     (m10 a * m01 b + m11 a * m11 b + m12 a * m21 b)
     (m10 a * m02 b + m11 a * m12 b + m12 a * m22 b)
     (m20 a * m00 b + m21 a * m10 b + m22 a * m20 b)
     (m20 a * m01 b + m21 a * m11 b + m22 a * m21 b)
     (m20 a * m02 b + m21 a * m12 b + m22 a * m22 b).

Definition ident3 : mat3 := M3 1 0 0 0 1 0 0 0 1.

Section Weights.
Context {LA : Linalg} {RS : Resampler}.

(** Lines 267-275: whether the bundle has to be resampled. *)
Definition needs_resample (b : bundle) (n_points : Z) : bool :=
  match b with
  | Array3 a => negb (Z.of_nat (shape1 a) =? n_points)%Z
  | Array2 _ | Array1 _ => false
  | Streamlines _ => true
  end.

(** Line 285, [n_sls, n_nodes, n_dim = sls.shape]: a three-axis array
    gives its rows; an array of fewer axes has too few values to unpack;
    what is not an array has no [shape] (the message of the
    [AttributeError] names the type of the object, which is left out). *)
Definition unpack_shape (sls : bundle) : Py.result (list (list vec3)) :=
  match sls with
  | Array3 a => Py.Ok a
  | Array2 _ =>
      Py.Raise
        (Py.ValueError "not enough values to unpack (expected 3, got 2)")
  | Array1 _ =>
      Py.Raise
        (Py.ValueError "not enough values to unpack (expected 3, got 1)")
  | Streamlines _ => Py.Raise (Py.AttributeError "shape")
  end.

Definition gaussian_weights (b : bundle) (n_points : Z)
    (return_mahalnobis : bool) (stat : list R -> R)
  : Py.result weights_array :=
  sls ← (if needs_resample b n_points
         then set_number_of_points b n_points
         else mret b);
  if (bundle_len b =? 1)%nat
  then if return_mahalnobis then mret (Vec [NaN]) else mret (Vec [Fin 1])
  else
    sls ← unpack_shape sls;
    let weights := distance_loop stat sls in
    if return_mahalnobis then mret (Mat weights)
    else mret (Mat (normalise weights)).

End Weights.

(** *** [tensor_odf] *)

(** One voxel of the volume: its eigenvalues and its eigenvectors (the
    3 x 3 array [evecs[x, y, z]]).  The volume is the list of its voxels in
    C order. *)
Record voxel := Voxel { evals : vec3; evecs : mat3 }.

(** The mask of line 208: all three eigenvalues positive. *)
Definition in_mask (v : voxel) : bool :=
  is_pos (vx (evals v)) && is_pos (vy (evals v)) && is_pos (vz (evals v)).

(** [in_place_norm] as [tensor_odf] calls it, on one row of a float array
    and along the last axis: the entries are squared, summed, and the root
    is taken. *)
Definition in_place_norm (vec : vec3) : R :=
  sqrt (vx vec * vx vec + vy vec * vy vec + vz vec * vz vec).

(** Lines 222-224 for one vertex and one voxel of the mask:
    [in_place_norm(np.dot(vertex, evecs) / np.sqrt(evals))]. *)
Definition proj_norm_at (vertex : vec3) (v : voxel) : R :=
  let proj := vecmat vertex (evecs v) in
  in_place_norm
    (V3 (vx proj / sqrt (vx (evals v)))
        (vy proj / sqrt (vy (evals v)))
        (vz proj / sqrt (vz (evals v)))).

(** The rows a batch computes: one per vertex of the batch. *)
Definition batch_rows (vertices : list vec3) (masked : list voxel)
  : list (list R) :=
  map (fun vertex => map (proj_norm_at vertex) masked) vertices.

(** [a[start:stop, :] = rows], with as many rows as the slice has. *)
Definition set_rows {A} (start stop : nat) (rows : list A) (a : list A)
  : list A :=
  firstn start a ++ rows ++ skipn stop a.

(** [math.ceil(n / d)] for [d <> 0]. *)
Definition ceil_div (n d : Z) : Z := (- ((- n) / d))%Z.

(** [x ** -3] for a norm [x >= 0]. *)
Definition pow_m3 (x : R) : fval :=
  if is_zero x then PInf else Fin (/ (x * x * x)).

(** Lines 226-227 for one entry: the voxel's normalisation is positive. *)
Definition odf_value (v : voxel) (x : R) : fval :=
  np_div (pow_m3 x)
    (Fin (4 * PI * sqrt (vx (evals v) * vy (evals v) * vz (evals v)))).

(** Lines 216-224: the body of the batch loop. *)
Definition batch_step (vertices : list vec3) (masked : list voxel)
    (batch_size : nat) (proj_norm : list (list R)) (i : nat)
  : list (list R) :=
  let num_vertices := length vertices in
  let start := (i * batch_size)%nat in
  let stop := ((i + 1) * batch_size)%nat in
  let stop := if (num_vertices <? stop)%nat then num_vertices else stop in
  set_rows start stop
    (batch_rows (Py.slice start stop vertices) masked) proj_norm.

(** Lines 229-230: scatter the columns of [proj_norm] to the voxels of the
    mask; the others stay zero. *)
Fixpoint scatter (volume : list voxel) (num_vertices : nat)
    (cols : list (list fval)) : list (list fval) :=
  match volume with
  | [] => []
  | v :: rest =>
      if in_mask v
      then match cols with
           | c :: cols' => c :: scatter rest num_vertices cols'
           | [] => repeat (Fin 0) num_vertices :: scatter rest num_vertices []
           end
      else repeat (Fin 0) num_vertices :: scatter rest num_vertices cols
  end.

Definition tensor_odf (volume : list voxel) (vertices : list vec3)
    (num_batches : Z) : Py.result (list (list fval)) :=
  let num_vertices := length vertices in
  let num_batches :=
    if (num_batches =? -1)%Z then Z.of_nat num_vertices else num_batches in
  if (num_batches =? 0)%Z then Py.Raise Py.ZeroDivisionError
  else
    let batch_size := ceil_div (Z.of_nat num_vertices) num_batches in
    let batches := seq 0 (Z.to_nat num_batches) in
    let masked := List.filter in_mask volume in
    let proj_norm0 := repeat (repeat 0 (length masked)) num_vertices in
    let proj_norm :=
      fold_left (batch_step vertices masked (Z.to_nat batch_size))
        batches proj_norm0 in
    let cols :=
      imap (fun j v => map (fun row => odf_value v (nth j row 0)) proj_norm)
        masked in
    Py.Ok (scatter volume num_vertices cols).

(** What [tensor_odf] returns, with the batch loop taken out. *)
Definition tensor_odf_unbatched (volume : list voxel) (vertices : list vec3)
  : list (list fval) :=
  let masked := List.filter in_mask volume in
  let proj_norm := batch_rows vertices masked in
  scatter volume (length vertices)
    (imap (fun j v => map (fun row => odf_value v (nth j row 0)) proj_norm)
       masked).

(** Vectors and matrices, for stating what the arrays satisfy. *)
Definition neg3 (v : vec3) : vec3 := V3 (- vx v) (- vy v) (- vz v).
Definition scale3 (c : R) (v : vec3) : vec3 :=
  V3 (c * vx v) (c * vy v) (c * vz v).
Definition add3 (a b : vec3) : vec3 :=
  V3 (vx a + vx b) (vy a + vy b) (vz a + vz b).
Definition transpose3 (m : mat3) : mat3 :=
  M3 (m00 m) (m10 m) (m20 m)
     (m01 m) (m11 m) (m21 m)
     (m02 m) (m12 m) (m22 m).

(** A bundle moved as a whole by [t]. *)
Definition translate (t : vec3) (sls : list (list vec3)) : list (list vec3) :=
  map (map (add3 t)) sls.

(** A statistic that follows a shift of its sample, as [np.mean] and
    [np.median] do. *)
Definition shift_equivariant (stat : list R -> R) : Prop :=
  forall (l : list R) (c : R),
    l <> [] -> stat (map (fun x => c + x) l) = c + stat l.

(** The ODF of one voxel over the sphere, as [tensor_odf] leaves it. *)
Definition voxel_odf (vertices : list vec3) (v : voxel) : list fval :=
  if in_mask v
  then map (fun vertex => odf_value v (proj_norm_at vertex v)) vertices
  else repeat (Fin 0) (length vertices).

End Numeric.

(* --------------------------------------------------------------------- *)
(** ** [_GeneratedBundleDict] and [BundleDict]                            *)
(* --------------------------------------------------------------------- *)

Module Bundles.
Import Py.

Fixpoint append_l_r (bundle_list no_lr_list : list string) : list string :=
  match bundle_list with
  | [] => []
  | bundle :: rest =>
      if str_in bundle no_lr_list
      then bundle :: append_l_r rest no_lr_list
      else (bundle +:+ "_L") :: (bundle +:+ "_R") :: append_l_r rest no_lr_list
  end.

Definition BUNDLES : list string :=
  append_l_r
    ["ATR"; "CGC"; "CST"; "IFO"; "ILF"; "SLF"; "ARC"; "UNC"; "FA"; "FP"]
    ["FA"; "FP"].

Definition CALLOSUM_BUNDLES : list string :=
  ["AntFrontal"; "Motor"; "Occipital"; "Orbital";
   "PostParietal"; "SupFrontal"; "SupParietal"; "Temporal"].

(** A Python value as the dictionary sees it: [None], a bool, or an object
    (an image, a path, a filter dictionary), which is always truthy. *)
Inductive value (image : Type) :=
| VNone
| VBool (b : bool)
| VObj (i : image).
Arguments VNone {image}.
Arguments VBool {image} b.
Arguments VObj {image} i.

Definition truthy {image} (v : value image) : bool :=
  match v with
  | VNone => false
  | VBool b => b
  | VObj _ => true
  end.

(** A bundle definition: a dict with the keys the code knows; [None] in a
    field means the key is absent. *)
Record bundle_def (image : Type) := BundleDef {
  include : option (list (value image));
  exclude : option (list (value image));
  start : option (value image);
  end_ : option (value image);
  cross_midline : option (value image);
  prob_map : option (value image);
  resampled : option (value image)
}.
Arguments BundleDef {image}.
Arguments include {image}.
Arguments exclude {image}.
Arguments start {image}.
Arguments end_ {image}.
Arguments cross_midline {image}.
Arguments prob_map {image}.
Arguments resampled {image}.

(** What the internal dictionary holds for a name: a bundle definition, or
    (Recobundles) the atlas entry as it came from the templates, a dict
    that has none of the keys of a bundle definition. *)
Inductive entry (image : Type) :=
| Def (d : bundle_def image)
| Atlas (v : value image).
Arguments Def {image} d.
Arguments Atlas {image} v.

(** [AFQ.data]: the template readers and the ROI resampler. *)
Class Afd := {
  image : Type;
  read_mni_template : image;
  read_templates : value image -> gmap string (value image);
  read_callosum_templates : value image -> gmap string (value image);
  bundles_to_aal : list string -> gmap string (value image);
  read_hcp_atlas : nat -> gmap string (value image);
  read_resample_roi : value image -> value image -> value image
}.

Section Dict.
Context {A : Afd}.

(** The attributes of a [_GeneratedBundleDict]. *)
Record generated := Generated {
  _dict : gmap string (entry image);
  bundle_names : list string;
  resample_to : value image
}.

(** A [BundleDict]: the inherited attributes and its own.  [reads] is not
    an attribute: it counts the calls made to [afd.read_templates] and
    [afd.read_hcp_atlas]. *)
Record bundle_dict := BundleDictState {
  base : generated;
  seg_algo : string;
  templates_loaded : bool;
  templates : gmap string (value image);
  reads : nat
}.

Definition set_dict (f : gmap string (entry image) -> gmap string (entry image))
    (g : generated) : generated :=
  Generated (f (_dict g)) (bundle_names g) (resample_to g).
Definition set_names (f : list string -> list string) (g : generated)
  : generated :=
  Generated (_dict g) (f (bundle_names g)) (resample_to g).
Definition set_base (f : generated -> generated) (b : bundle_dict)
  : bundle_dict :=
  BundleDictState (f (base b)) (seg_algo b) (templates_loaded b)
    (templates b) (reads b).
Definition set_templates
    (f : gmap string (value image) -> gmap string (value image))
    (b : bundle_dict) : bundle_dict :=
  BundleDictState (base b) (seg_algo b) (templates_loaded b)
    (f (templates b)) (reads b).
Definition set_loaded (b : bundle_dict) : bundle_dict :=
  BundleDictState (base b) (seg_algo b) true (templates b) (reads b).
Definition count_read (b : bundle_dict) : bundle_dict :=
  BundleDictState (base b) (seg_algo b) (templates_loaded b)
    (templates b) (S (reads b)).

(** Run a method of the base class on a [BundleDict]. *)
Definition lift {X} (m : M generated X) : M bundle_dict X :=
  fun b => let '(r, g) := m (base b) in (r, set_base (fun _ => g) b).

(** [_GeneratedBundleDict.__init__]. *)
Definition generated_init (gen_dict : gmap string (entry image))
    (keys : list string) (resample_to : value image) : generated :=
  Generated gen_dict keys resample_to.

(** The in-place rewrite that [resample_roi] does to one definition. *)
Definition resample_def (r : value image) (d : bundle_def image)
  : result (bundle_def image) :=
  match include d with
  | None => Raise (KeyError "include")
  | Some inc =>
      let inc' := map (fun roi => read_resample_roi roi r) inc in
      let exc' :=
        match exclude d with
        | Some ((_ :: _) as exc) =>
            Some (map (fun roi => read_resample_roi roi r) exc)
        | other => other
        end in
      let resample_field (f : option (value image)) :=
        match f with
        | Some v => if truthy v then Some (read_resample_roi v r) else f
        | None => None
        end in
      Ok (BundleDef (Some inc') exc' (resample_field (start d))
            (resample_field (end_ d)) (cross_midline d) (prob_map d)
            (Some (VBool true)))
  end.

Definition resample_roi (key : string) : M generated unit :=
  fun g =>
    if truthy (resample_to g)
    then match _dict g !! key with
         | None => (Raise (KeyError key), g)
         | Some (Atlas _) => (Raise (KeyError "include"), g)
         | Some (Def d) =>
             if match resampled d with
                | None => true
                | Some r => negb (truthy r)
                end
             then match resample_def (resample_to g) d with
                  | Ok d' => (Ok tt, set_dict (insert key (Def d')) g)
                  | Raise e => (Raise e, g)
                  end
             else (Ok tt, g)
         end
    else (Ok tt, g).

(** The definition [resample_roi] leaves for [d]: [d] itself if it is
    marked as resampled, and otherwise [d] with every ROI of ['include']
    and ['exclude'] and a truthy ['start'] and ['end'] resampled, and the
    mark set. *)
Definition resampled_form (target : value image) (d d' : bundle_def image)
  : Prop :=
  let f := fun roi => read_resample_roi roi target in
  let field := fun v => if truthy v then f v else v in
  if match resampled d with Some v => truthy v | None => false end
  then d' = d
  else is_Some (include d)
       /\ d' = BundleDef (map f <$> include d) (map f <$> exclude d)
                 (field <$> start d) (field <$> end_ d)
                 (cross_midline d) (prob_map d) (Some (VBool true)).

(** The items that [resample_roi] cannot resample: an atlas entry, or a
    definition without ['include'] that is not marked as resampled. *)
Definition unfit (item : entry image) : bool :=
  match item with
  | Atlas _ => true
  | Def d =>
      match include d, resampled d with
      | None, None => true
      | None, Some v => negb (truthy v)
      | Some _, _ => false
      end
  end.

Definition __setitem__ (key : string) (item : entry image) : M generated unit :=
  _ ← modify (set_dict (insert key item));
  _ ← modify (set_names (fun names => names ++ [key]));
  resample_roi key.

Definition generated_getitem (key : string) : M generated (entry image) :=
  fun g =>
    match _dict g !! key with
    | Some e => (Ok e, g)
    | None => (Raise (KeyError key), g)
    end.

Definition __len__ (g : generated) : nat := length (bundle_names g).

Definition has_key (key : string) (g : generated) : bool :=
  bool_decide (is_Some (_dict g !! key)).

Definition __delitem__ (key : string) : M generated unit :=
  fun g =>
    if negb (has_key key g) && negb (str_in key (bundle_names g))
    then (Raise (KeyError (key +:+ " not found")), g)
    else
      if has_key key g
      then
        let g1 := set_dict (delete key) g in
        if str_in key (bundle_names g1)
        then (Ok tt, set_names (remove_first key) g1)
        else (Raise (RuntimeError
                (key +:+ " not found in bundle_names, "
                     +:+ "but found in internal dictionary")), g1)
      else (Raise (RuntimeError
              (key +:+ " not found in internal dictionary, "
                   +:+ "but found in bundle_names")), g).

(** [BundleDict.__init__]'s first argument: a list of names or a dict of
    custom definitions (its items, in order). *)
Inductive bundle_info :=
| InfoList (names : list string)
| InfoDict (items : list (string * entry image)).

Definition add_bundle_name (bundle_name : string) : M generated unit :=
  modify (set_names (fun names => names ++ [bundle_name])).

Fixpoint set_items (items : list (string * entry image)) : M generated unit :=
  match items with
  | [] => mret tt
  | (key, item) :: rest => _ ← __setitem__ key item; set_items rest
  end.

Fixpoint add_names (names : list string) : M generated unit :=
  match names with
  | [] => mret tt
  | bundle_name :: rest => _ ← add_bundle_name bundle_name; add_names rest
  end.

(** Lines 184-204: co-located bundles are dropped from [bundle_names]. *)
Definition drop_colocated (names : list string) : list string :=
  let names :=
    if str_in "FP" names && str_in "Occipital" names
    then remove_first "FP" names else names in
  let names :=
    if str_in "FA" names && str_in "Orbital" names
    then remove_first "FA" names else names in
  if str_in "FA" names && str_in "AntFrontal" names
  then remove_first "FA" names else names.

Definition BundleDict_init (info : bundle_info) (seg_algo : string)
    (resample_to : value image) : result bundle_dict :=
  let seg_algo := lower seg_algo in
  let resample_to :=
    match resample_to with
    | VNone => VObj read_mni_template
    | other => other
    end in
  let g0 := Generated ∅ [] resample_to in
  let '(r, g1) :=
    match info with
    | InfoDict items => set_items items g0
    | InfoList names => add_names names g0
    end in
  match r with
  | Raise e => Raise e
  | Ok _ =>
      let g2 :=
        if String.eqb seg_algo "afq" then set_names drop_colocated g1 else g1 in
      Ok (BundleDictState g2 seg_algo false ∅ 0)
  end.

(** [d.get(k)] taken as a condition, and [d[k]]. *)
Definition get_truthy (d : gmap string (value image)) (k : string) : bool :=
  match d !! k with
  | Some v => truthy v
  | None => false
  end.

Definition index (d : gmap string (value image)) (k : string)
  : result (value image) :=
  match d !! k with
  | Some v => Ok v
  | None => Raise (KeyError k)
  end.

(** [self.templates[dst] = self.templates[src]]. *)
Definition alias (dst src : string) : M bundle_dict unit :=
  fun b =>
    match index (templates b) src with
    | Ok v => (Ok tt, set_templates (insert dst v) b)
    | Raise e => (Raise e, b)
    end.

Definition load_templates : M bundle_dict unit :=
  b ← get;
  _ ← (if String.eqb (seg_algo b) "afq"
       then
         _ ← modify count_read;
         _ ← modify (set_templates
                       (fun _ => read_templates (resample_to (base b))));
         _ ← alias "ARC_roi1_L" "SLF_roi1_L";
         _ ← alias "ARC_roi1_R" "SLF_roi1_R";
         _ ← alias "ARC_roi2_L" "SLFt_roi2_L";
         _ ← alias "ARC_roi2_R" "SLFt_roi2_R";
         let callosal_templates :=
           read_callosum_templates (resample_to (base b)) in
         let endpoint_templates := bundles_to_aal (bundle_names (base b)) in
         modify (set_templates
                   (fun t => endpoint_templates ∪ (callosal_templates ∪ t)))
       else if startswith "reco" (seg_algo b)
       then
         _ ← modify count_read;
         if endswith "80" (seg_algo b)
         then modify (set_templates (fun _ => read_hcp_atlas 80))
         else modify (set_templates (fun _ => read_hcp_atlas 16))
       else raise (ValueError
                     ("Input: " +:+ seg_algo b
                        +:+ " is not a valid input`seg_algo`")));
  modify set_loaded.

(** The names of the two waypoint ROIs of a bundle (lines 238-248). *)
Definition roi_names (bundle_name : string) : string * string :=
  let name := str_but_last2 bundle_name in
  let hemi := str_last2 bundle_name in
  if str_in bundle_name CALLOSUM_BUNDLES
  then ("L_" +:+ bundle_name, "R_" +:+ bundle_name)
  else if str_in bundle_name ["FA"; "FP"]
  then (bundle_name +:+ "_L", bundle_name +:+ "_R")
  else (name +:+ "_roi1" +:+ hemi, name +:+ "_roi2" +:+ hemi).

(** Lines 249-285: the definition built from the templates, or the
    [ValueError] of the [else] branch. *)
Definition afq_definition (t : gmap string (value image))
    (bundle_name : string) : result (bundle_def image) :=
  let name := str_but_last2 bundle_name in
  let hemi := str_last2 bundle_name in
  let '(roi_name1, roi_name2) := roi_names bundle_name in
  if get_truthy t roi_name1 && get_truthy t roi_name2
  then
    r1 ← index t roi_name1;
    r2 ← index t roi_name2;
    let include := [r1; r2] in
    let start := VNone in
    let end_ := VNone in
    include ← (if get_truthy t (name +:+ "_roi3" +:+ hemi)
               then r3 ← index t (name +:+ "_roi3" +:+ hemi);
                    mret (include ++ [r3])
               else mret include);
    exclude ← (if String.eqb name "SLF"
               then r ← index t ("SLFt_roi2" +:+ hemi); mret [r]
               else mret []);
    '(include, x_midline) ←
       (if str_in bundle_name CALLOSUM_BUNDLES
           || str_in bundle_name ["FA"; "FP"]
        then r ← index t "Callosum_midsag"; mret (include ++ [r], true)
        else mret (include, false));
    p_map ← (if get_truthy t (bundle_name +:+ "_prob_map")
             then r ← index t (bundle_name +:+ "_prob_map"); mret (Some r)
             else mret None);
    start ← (if get_truthy t (bundle_name +:+ "_start")
             then index t (bundle_name +:+ "_start")
             else mret start);
    start ← (if get_truthy t (bundle_name +:+ "_end")
             then index t (bundle_name +:+ "_end")
             else mret start);
    mret (BundleDef (Some include) (Some exclude) (Some start) (Some end_)
            (Some (VBool x_midline)) p_map None)
  else Raise (ValueError (bundle_name +:+ " is not in AFQ templates")).

(** Lines 235-236. *)
Definition ensure_loaded : M bundle_dict unit :=
  b ← get; if templates_loaded b then mret tt else load_templates.

Definition gen (bundle_name : string) : M bundle_dict unit :=
  _ ← ensure_loaded;
  b ← get;
  if String.eqb (seg_algo b) "afq"
  then
    match afq_definition (templates b) bundle_name with
    | Ok d =>
        _ ← modify (set_base (set_dict (insert bundle_name (Def d))));
        lift (resample_roi bundle_name)
    | Raise e => raise e
    end
  else if startswith "reco" (seg_algo b)
  then
    match index (templates b) bundle_name with
    | Ok v => modify (set_base (set_dict (insert bundle_name (Atlas v))))
    | Raise e => raise e
    end
  else mret tt.

Fixpoint gen_each (names : list string) : M bundle_dict unit :=
  match names with
  | [] => mret tt
  | bundle_name :: rest =>
      b ← get;
      _ ← (if has_key bundle_name (base b) then mret tt else gen bundle_name);
      gen_each rest
  end.

Definition gen_all : M bundle_dict unit :=
  b ← get; gen_each (bundle_names (base b)).

Definition __getitem__ (key : string) : M bundle_dict (entry image) :=
  b ← get;
  _ ← (if has_key key (base b) then mret tt else gen key);
  lift (generated_getitem key).

(** The invariant of a [_GeneratedBundleDict]: [bundle_names] lists the
    keys of the internal dictionary, each once. *)
Definition consistent (g : generated) : Prop :=
  NoDup (bundle_names g)
  /\ forall k, k ∈ bundle_names g <-> is_Some (_dict g !! k).






End Dict.
End Bundles.

(* --------------------------------------------------------------------- *)
(** ** Concrete collaborators and inputs                                  *)
(* --------------------------------------------------------------------- *)

Module Examples.

(** A tracker on the integer line: from seed [s] with first step [d] it
    writes [s] in row 0 and [s + d] in row 1 of the buffer and stops at an
    end point after two steps (one, in a buffer of one row); the direction
    getter proposes the single direction [+1]. *)
Definition line_steps (buf : list Z) : Z := Z.min 2 (Z.of_nat (length buf)).
Definition line_fill (s d : Z) (buf : list Z) : list Z :=
  <[0%nat := s]> (<[1%nat := (s + d)%Z]> buf).

#[local] Instance line_tracker : Tracking.Tracker := {|
  Tracking.point := Z;
  Tracking.world := unit;
  Tracking.uninit := 0%Z;
  Tracking.to_voxel := fun s => s;
  Tracking.reseed := fun _ _ w => w;
  Tracking.initial_direction := fun _ w => ([1%Z], w);
  Tracking.neg := Z.opp;
  Tracking.run_tracker := fun s d buf w =>
    (line_steps buf, Tracking.ENDPOINT, line_fill s d buf, w)
|}.

(** The same line with a direction getter that never finds a direction. *)
#[local] Instance blind_tracker : Tracking.Tracker := {|
  Tracking.point := Z;
  Tracking.world := unit;
  Tracking.uninit := 0%Z;
  Tracking.to_voxel := fun s => s;
  Tracking.reseed := fun _ _ w => w;
  Tracking.initial_direction := fun _ w => ([], w);
  Tracking.neg := Z.opp;
  Tracking.run_tracker := fun s d buf w =>
    (line_steps buf, Tracking.ENDPOINT, line_fill s d buf, w)
|}.

(** Two seeds, no random seed, [return_all] and [save_seeds] off, no
    [max_cross], streamlines of 2 to 10 points. *)
Definition line_config : Tracking.config (T := line_tracker) :=
  @Tracking.Build_config line_tracker
    [5%Z; 7%Z] None false false None 2%Z 10%Z.

(** One seed, the default lengths of [VerboseLocalTracking], and
    [return_all] set. *)
Definition blind_config : Tracking.config (T := blind_tracker) :=
  @Tracking.Build_config blind_tracker
    [5%Z] None true false None 10%Z 1000%Z.

(** The two seeds of [line_config] with [max_cross = 1]. *)
Definition single_cross_config : Tracking.config (T := line_tracker) :=
  @Tracking.Build_config line_tracker
    [5%Z; 7%Z] None false false (Some 1%Z) 2%Z 10%Z.

(** What the generator yields on the line: the three points around each
    seed; and with the blind direction getter: the seed alone. *)
Definition line_yields : list (Tracking.item (T := line_tracker)) :=
  [@Tracking.Streamline line_tracker [4; 5; 6]%Z;
   @Tracking.Streamline line_tracker [6; 7; 8]%Z].

Definition blind_yield : Tracking.item (T := blind_tracker) :=
  @Tracking.Streamline blind_tracker [5%Z].

(** A resampler that hands back the streamlines it is given. *)
#[local] Instance keep_points : Numeric.Resampler := {|
  Numeric.set_number_of_points := fun b _ => Py.Ok b
|}.

(** A resampler that takes a three-axis array for a single streamline
    whose points are the rows of the array, and refuses a streamline of
    fewer than two points; any other bundle it hands back. *)
#[local] Instance rows_as_points : Numeric.Resampler := {|
  Numeric.set_number_of_points := fun b _ =>
    match b with
    | Numeric.Array3 sls =>
        if (length sls <? 2)%nat
        then Py.Raise
               (Py.ValueError "All streamlines must have at least 2 points.")
        else Py.Ok b
    | _ => Py.Ok b
    end
|}.

Section Arrays.
Import Numeric.
Local Open Scope R_scope.

(** The rank of a 3 x 3 matrix in exact arithmetic, by its minors; numpy's
    count agrees with it on a matrix that is not close to one of lower
    rank. *)
Definition minors2 (m : mat3) : list R :=
  [m11 m * m22 m - m12 m * m21 m; m10 m * m22 m - m12 m * m20 m;
   m10 m * m21 m - m11 m * m20 m; m01 m * m22 m - m02 m * m21 m;
   m00 m * m22 m - m02 m * m20 m; m00 m * m21 m - m01 m * m20 m;
   m01 m * m12 m - m02 m * m11 m; m00 m * m12 m - m02 m * m10 m;
   m00 m * m11 m - m01 m * m10 m].

Definition entries (m : mat3) : list R :=
  [m00 m; m01 m; m02 m; m10 m; m11 m; m12 m; m20 m; m21 m; m22 m].

Definition exact_matrix_rank (m : mat3) : nat :=
  if negb (is_zero (det3 m)) then 3%nat
  else if existsb (fun x => negb (is_zero x)) (minors2 m) then 2%nat
  else if existsb (fun x => negb (is_zero x)) (entries m) then 1%nat
  else 0%nat.

#[local] Instance exact_rank : Linalg.
Proof.
  refine {| matrix_rank := exact_matrix_rank |}.
  intros m. unfold exact_matrix_rank, is_zero.
  destruct (Req_dec_T (det3 m) 0) as [_ | Hne]; cbn [negb];
    [| intros _; exact Hne].
  destruct (existsb _ (minors2 m)); [discriminate |].
  destruct (existsb _ (entries m)); discriminate.
Defined.

(** Four streamlines of one node each, at the origin and at 4 on each
    axis. *)
Definition corner_bundle : list (list vec3) :=
  [[V3 0 0 0]; [V3 4 0 0]; [V3 0 4 0]; [V3 0 0 4]].

(** Two streamlines of two nodes that meet at their second node. *)
Definition meeting_bundle : list (list vec3) :=
  [[V3 0 0 0; V3 1 2 3]; [V3 2 0 0; V3 1 2 3]].

(** Three streamlines of one node each, the first at their mean. *)
Definition centred_bundle : list (list vec3) :=
  [[V3 0 0 0]; [V3 1 1 1]; [V3 (-1) (-1) (-1)]].

(** One streamline of two nodes. *)
Definition lone_bundle : bundle := Array3 [[V3 0 0 0; V3 1 1 1]].

(** One voxel with unit eigenvalues and the canonical eigenvectors, and a
    sphere of two vertices. *)
Definition unit_volume : list voxel := [Voxel (V3 1 1 1) ident3].
Definition two_vertices : list vec3 := [V3 1 0 0; V3 0 1 0].

End Arrays.

Section Templates.
Import Bundles.

(** Template readers over images named by strings: the waypoint ROIs of
    the left corticospinal tract and of the SLF, and end points for
    ["CST_L"]. *)
#[local] Instance named_images : Afd := {|
  image := string;
  read_mni_template := "MNI";
  read_templates := fun _ =>
    list_to_map
      [("CST_roi1_L", VObj "CST_roi1_L"); ("CST_roi2_L", VObj "CST_roi2_L");
       ("SLF_roi1_L", VObj "SLF_roi1_L"); ("SLF_roi1_R", VObj "SLF_roi1_R");
       ("SLFt_roi2_L", VObj "SLFt_roi2_L");
       ("SLFt_roi2_R", VObj "SLFt_roi2_R")];
  read_callosum_templates := fun _ =>
    list_to_map [("Callosum_midsag", VObj "Callosum_midsag")];
  bundles_to_aal := fun _ =>
    list_to_map
      [("CST_L_start", VObj "CST_L_start"); ("CST_L_end", VObj "CST_L_end")];
  read_hcp_atlas := fun _ => ∅;
  read_resample_roi := fun roi _ => roi
|}.

(** [BundleDict(["CST_L"], "afq", resample_to=False)] as built. *)
Definition cst_dict : bundle_dict :=
  BundleDictState (Generated ∅ ["CST_L"] (VBool false)) "afq" false ∅ 0.

(** The same dictionary after [gen("CST_L")]. *)
Definition cst_dict_generated : bundle_dict := snd (gen "CST_L" cst_dict).

(** The same dictionary after its templates have been loaded. *)
Definition cst_dict_loaded : bundle_dict := snd (ensure_loaded cst_dict).

(** [_GeneratedBundleDict({"CST_L": item}, False)] for an atlas entry. *)
Definition one_bundle : generated :=
  generated_init {["CST_L" := Atlas (VObj "CST_L")]} ["CST_L"] (VBool false).

(** The same mapping after [d["CST_L"] = item] once more. *)
Definition one_bundle_set_again : generated :=
  snd (__setitem__ "CST_L" (Atlas VNone) one_bundle).

(** [cst_dict] after [gen_all()]. *)
Definition cst_dict_all : bundle_dict := snd (gen_all cst_dict).

(** [BundleDict(["CST_L"], "reco80", resample_to=False)] as built. *)
Definition reco_dict : bundle_dict :=
  BundleDictState (Generated ∅ ["CST_L"] (VBool false)) "reco80" false ∅ 0.

(** [BundleDict(["FP", "Occipital", "CST_L"], "AFQ", resample_to=False)]
    as built. *)
Definition occipital_dict : bundle_dict :=
  BundleDictState (Generated ∅ ["Occipital"; "CST_L"] (VBool false))
    "afq" false ∅ 0.

(** A custom bundle given by two waypoint ROIs. *)
Definition waypoint_item : entry image :=
  Def (BundleDef (Some [VObj "roi1"; VObj "roi2"]) None None None
         (Some (VBool false)) None None).

(** A custom bundle given by its end points only. *)
Definition endpoint_item : entry image :=
  Def (BundleDef None None (Some (VObj "start")) (Some (VObj "end"))
         (Some (VBool false)) None None).

(** [_GeneratedBundleDict({}, mni)], and the same after
    [d["L_OR"] = waypoint_item]. *)
Definition mni_bundle : generated := generated_init ∅ [] (VObj "MNI").
Definition mni_bundle_set : generated :=
  snd (__setitem__ "L_OR" waypoint_item mni_bundle).

(** [_GeneratedBundleDict({"L_OR": waypoint_item}, mni)], and the same
    after [resample_roi("L_OR")]. *)
Definition or_bundle : generated :=
  generated_init {["L_OR" := waypoint_item]} ["L_OR"] (VObj "MNI").
Definition or_bundle_resampled : generated :=
  snd (resample_roi "L_OR" or_bundle).

End Templates.
End Examples.

(* ===================================================================== *)
(** * Part II: the theorems                                               *)
(* ===================================================================== *)

(* --------------------------------------------------------------------- *)
(** ** Slices                                                             *)
(* --------------------------------------------------------------------- *)

Lemma slice_to_nonneg {A} (k : Z) (l : list A) :
  (0 <= k)%Z -> Py.slice_to k l = firstn (Z.to_nat k) l.
Proof.
  intros Hk. unfold Py.slice_to.
  destruct (Z.ltb_spec k 0); [lia | reflexivity].
Qed.

Lemma slice_down_in_range {A} (a : Z) (l : list A) :
  (0 <= a < Z.of_nat (length l))%Z ->
  Py.slice_down_to_1 a l = rev (Py.slice 1 (Z.to_nat (a + 1)) l).
Proof.
  intros Ha. unfold Py.slice_down_to_1, Py.slice.
  destruct (Z.ltb_spec a 0); [lia |].
  rewrite Z.min_l by lia. reflexivity.
Qed.

Lemma slice_length {A} (lo hi : nat) (l : list A) :
  hi <= length l -> length (Py.slice lo hi l) = hi - lo.
Proof.
  intros H. unfold Py.slice. rewrite length_skipn, length_firstn. lia.
Qed.

Lemma slice_nth_error {A} (lo hi i : nat) (l : list A) :
  lo + i < hi -> nth_error (Py.slice lo hi l) i = nth_error l (lo + i).
Proof.
  intros H. unfold Py.slice.
  rewrite nth_error_skipn, nth_error_firstn.
  destruct (Nat.ltb_spec (lo + i) hi); [reflexivity | lia].
Qed.

(* --------------------------------------------------------------------- *)
(** ** The tracking generator                                             *)
(* --------------------------------------------------------------------- *)

Section TrackingFacts.
Import Tracking.
Context {T : Tracker}.

Lemma emit_points cfg sl s : points (emit cfg sl s) = sl.
Proof. unfold emit. destruct (save_seeds cfg); reflexivity. Qed.

(** A pass of the inner loop yields only what passed the length filter. *)
Lemma track_one_filtered cfg s d st it st' :
  track_one cfg s d st = (Some it, st') -> within_lengths cfg it.
Proof.
  unfold track_one, within_lengths. destruct st as [[F B] w].
  destruct (run_tracker s d F w) as [[[stepsF stF] F1] w1].
  destruct (negb (accepted cfg stF)); [discriminate |].
  destruct (run_tracker s (neg d) B w1) as [[[stepsB stB] B1] w2].
  destruct (negb (accepted cfg stB)); [discriminate |].
  destruct (_ && _) eqn:Hlen; [| discriminate].
  intros [= <- _]. rewrite emit_points.
  apply andb_true_iff in Hlen as [H1 H2].
  apply Z.leb_le in H1, H2. lia.
Qed.

Section Origin.
Variables (cfg : config) (P : list point -> list point -> Prop).
Hypothesis P_step :
  forall s d F B w y F' B' w',
    P F B -> track_one cfg s d (F, B, w) = (y, (F', B', w')) -> P F' B'.

Lemma track_all_origin s0 dirs :
  In s0 (seeds cfg) ->
  forall F B w ys F' B' w',
    P F B ->
    track_all cfg (to_voxel s0) dirs (F, B, w) = (ys, (F', B', w')) ->
    Forall (origin cfg P) ys /\ P F' B'.
Proof using P_step.
  intros Hs. induction dirs as [| d dirs IH]; intros F B w ys F' B' w' HP;
    cbn [track_all].
  - intros Heq; simplify_eq. split; [constructor | exact HP].
  - destruct (track_one cfg (to_voxel s0) d (F, B, w))
      as [y [[F1 B1] w1]] eqn:H1.
    destruct (track_all cfg (to_voxel s0) dirs (F1, B1, w1))
      as [zs [[F2 B2] w2]] eqn:H2.
    intros Heq; simplify_eq.
    pose proof (P_step _ _ _ _ _ _ _ _ _ HP H1) as HP1.
    destruct (IH _ _ _ _ _ _ _ HP1 H2) as [IHys IHP].
    split; [| exact IHP].
    destruct y as [it |]; [| exact IHys].
    constructor; [| exact IHys].
    exact (tracked cfg P s0 d F B w _ it Hs HP H1).
Qed.

Lemma from_seed_origin s0 F B w ys F' B' w' :
  In s0 (seeds cfg) -> P F B ->
  from_seed cfg s0 (F, B, w) = (ys, (F', B', w')) ->
  Forall (origin cfg P) ys /\ P F' B'.
Proof using P_step.
  intros Hs HP. unfold from_seed.
  destruct (initial_direction _ _) as [dirs w2] eqn:Hd.
  destruct (track_all _ _ _ _) as [zs [[F1 B1] w1]] eqn:Ht.
  intros Heq; simplify_eq.
  destruct (track_all_origin s0 _ Hs _ _ _ _ _ _ _ HP Ht) as [Hzs HP1].
  split; [| exact HP1]. apply Forall_app. split; [| exact Hzs].
  destruct dirs; [| constructor].
  destruct (return_all cfg) eqn:Hr; [| constructor].
  constructor; [| constructor]. exact (seed_only cfg P s0 _ _ Hs Hr Hd).
Qed.

Lemma from_seeds_origin ss :
  (forall s0, In s0 ss -> In s0 (seeds cfg)) ->
  forall F B w ys st',
    P F B ->
    from_seeds cfg ss (F, B, w) = (ys, st') -> Forall (origin cfg P) ys.
Proof using P_step.
  induction ss as [| s0 ss IH]; intros Hss F B w ys st' HP;
    cbn [from_seeds].
  - intros Heq; simplify_eq. constructor.
  - destruct (from_seed cfg s0 (F, B, w)) as [zs [[F1 B1] w1]] eqn:H1.
    destruct (from_seeds cfg ss (F1, B1, w1)) as [us st2] eqn:H2.
    intros Heq; simplify_eq.
    destruct (from_seed_origin s0 _ _ _ _ _ _ _ (Hss s0 (or_introl eq_refl))
                HP H1) as [Hzs HP1].
    apply Forall_app. split; [exact Hzs |].
    exact (IH (fun s Hin => Hss s (or_intror Hin)) _ _ _ _ _ HP1 H2).
Qed.

(** The generator runs to the end whenever its buffers can be allocated,
    and every item it yields has one of the two origins. *)
Lemma generator_origin w :
  (0 <= max_length cfg + 1)%Z ->
  (let F := repeat uninit (Z.to_nat (max_length cfg + 1)) in P F F) ->
  exists items,
    _verbose_generate_tractogram cfg w = Py.Ok items
    /\ Forall (origin cfg P) items.
Proof using P_step.
  intros Hmax HP. unfold _verbose_generate_tractogram.
  destruct (Z.ltb_spec (max_length cfg + 1) 0); [lia |].
  eexists. split; [reflexivity |].
  destruct (from_seeds _ _ _) as [ys st'] eqn:H1. simpl.
  exact (from_seeds_origin _ (fun _ Hin => Hin) _ _ _ _ _ HP H1).
Qed.

(** What the inner loop yields holds the yield of each of its passes. *)
Lemma track_all_passes s dirs :
  forall F B w ys st',
    P F B ->
    track_all cfg s dirs (F, B, w) = (ys, st') ->
    forall d, In d dirs ->
      exists F0 B0 w0,
        P F0 B0
        /\ forall it st0,
             track_one cfg s d (F0, B0, w0) = (Some it, st0) -> In it ys.
Proof using P_step.
  induction dirs as [| d0 dirs IH]; intros F B w ys st' HP Hrun d Hd;
    [destruct Hd |].
  cbn [track_all] in Hrun.
  destruct (track_one cfg s d0 (F, B, w)) as [y [[F1 B1] w1]] eqn:H1.
  destruct (track_all cfg s dirs (F1, B1, w1)) as [zs st2] eqn:H2.
  injection Hrun as <- <-.
  destruct Hd as [<- | Hd].
  - exists F, B, w. split; [exact HP |].
    intros it st0 Hit. rewrite H1 in Hit. injection Hit as -> _.
    now left.
  - pose proof (P_step _ _ _ _ _ _ _ _ _ HP H1) as HP1.
    destruct (IH _ _ _ _ _ HP1 H2 d Hd) as (F0 & B0 & w0 & HP0 & Hin).
    exists F0, B0, w0. split; [exact HP0 |].
    intros it st0 Hit. specialize (Hin it st0 Hit).
    destruct y; [now right | exact Hin].
Qed.

Lemma from_seed_passes s0 F B w ys st' :
  P F B ->
  from_seed cfg s0 (F, B, w) = (ys, st') ->
  exists w0 dirs w1,
    initial_direction (to_voxel s0) w0 = (dirs, w1)
    /\ (dirs = [] -> return_all cfg = true ->
        In (emit cfg [to_voxel s0] (to_voxel s0)) ys)
    /\ forall d, In d (limit_cross cfg dirs) ->
         exists F0 B0 w2,
           P F0 B0
           /\ forall it st0,
                track_one cfg (to_voxel s0) d (F0, B0, w2) = (Some it, st0) ->
                In it ys.
Proof using P_step.
  intros HP. unfold from_seed.
  destruct (initial_direction _ _) as [dirs w2] eqn:Hd.
  destruct (track_all _ _ _ _) as [zs st1] eqn:Ht.
  intros Heq. injection Heq as <- <-.
  eexists _, dirs, w2. split; [exact Hd |]. split.
  - intros -> ->. apply in_or_app. left. now left.
  - intros d Hin.
    destruct (track_all_passes _ _ _ _ _ _ _ HP Ht d Hin)
      as (F0 & B0 & w0 & HP0 & Hys).
    exists F0, B0, w0. split; [exact HP0 |].
    intros it st0 Hit. apply in_or_app. right. exact (Hys it st0 Hit).
Qed.

Lemma from_seeds_passes ss :
  forall F B w ys st',
    P F B ->
    from_seeds cfg ss (F, B, w) = (ys, st') ->
    forall s0, In s0 ss ->
      exists w0 dirs w1,
        initial_direction (to_voxel s0) w0 = (dirs, w1)
        /\ (dirs = [] -> return_all cfg = true ->
            In (emit cfg [to_voxel s0] (to_voxel s0)) ys)
        /\ forall d, In d (limit_cross cfg dirs) ->
             exists F0 B0 w2,
               P F0 B0
               /\ forall it st0,
                    track_one cfg (to_voxel s0) d (F0, B0, w2)
                    = (Some it, st0) ->
                    In it ys.
Proof using P_step.
  induction ss as [| s1 ss IH]; intros F B w ys st' HP Hrun s0 Hs0;
    [destruct Hs0 |].
  cbn [from_seeds] in Hrun.
  destruct (from_seed cfg s1 (F, B, w)) as [zs [[F1 B1] w1]] eqn:H1.
  destruct (from_seeds cfg ss (F1, B1, w1)) as [us st2] eqn:H2.
  injection Hrun as <- <-.
  destruct Hs0 as [<- | Hs0].
  - destruct (from_seed_passes _ _ _ _ _ _ HP H1)
      as (w0 & dirs & w2 & Hd & Hseed & Hpass).
    exists w0, dirs, w2. split; [exact Hd |]. split.
    + intros He Hr. apply in_or_app. left. now apply Hseed.
    + intros d Hin. destruct (Hpass d Hin) as (F0 & B0 & w3 & HP0 & Hys).
      exists F0, B0, w3. split; [exact HP0 |].
      intros it st0 Hit. apply in_or_app. left. exact (Hys it st0 Hit).
  - assert (HP1 : P F1 B1).
    { clear -P_step HP H1. unfold from_seed in H1.
      destruct (initial_direction _ _) as [dirs w2].
      destruct (track_all _ _ _ _) as [zs' [[F2 B2] w3]] eqn:Ht.
      injection H1 as _ <- <- _.
      revert F B w2 zs' F2 B2 w3 HP Ht.
      induction (limit_cross cfg dirs) as [| d ds IHd];
        intros F B w2 zs' F2 B2 w3 HP Ht; cbn [track_all] in Ht.
      - now injection Ht as _ <- <- _.
      - destruct (track_one cfg (to_voxel s1) d (F, B, w2))
          as [y [[F3 B3] w4]] eqn:H3.
        destruct (track_all cfg (to_voxel s1) ds (F3, B3, w4))
          as [zs2 [[F4 B4] w5]] eqn:H4.
        injection Ht as _ <- <- _.
        exact (IHd _ _ _ _ _ _ _ (P_step _ _ _ _ _ _ _ _ _ HP H3) H4). }
    destruct (IH _ _ _ _ _ HP1 H2 s0 Hs0)
      as (w0 & dirs & w2 & Hd & Hseed & Hpass).
    exists w0, dirs, w2. split; [exact Hd |]. split.
    + intros He Hr. apply in_or_app. right. now apply Hseed.
    + intros d Hin. destruct (Hpass d Hin) as (F0 & B0 & w3 & HP0 & Hys).
      exists F0, B0, w3. split; [exact HP0 |].
      intros it st0 Hit. apply in_or_app. right. exact (Hys it st0 Hit).
Qed.

End Origin.

(** A pass of the inner loop whose two runs are accepted and whose stitch
    passes the length filter yields the stitch. *)
Lemma track_one_yields cfg s d F B w stepsF stF F1 w1 stepsB stB B1 w2 :
  run_tracker s d F w = (stepsF, stF, F1, w1) ->
  run_tracker s (neg d) B w1 = (stepsB, stB, B1, w2) ->
  accepted cfg stF = true -> accepted cfg stB = true ->
  within_lengths cfg (emit cfg (stitch stepsF stepsB F1 B1) s) ->
  track_one cfg s d (F, B, w)
  = (Some (emit cfg (stitch stepsF stepsB F1 B1) s), (F1, B1, w2)).
Proof.
  intros HF HB HaF HaB Hlen. unfold track_one.
  rewrite HF, HaF. cbn [negb]. rewrite HB, HaB. cbn [negb].
  unfold within_lengths in Hlen. rewrite emit_points in Hlen.
  destruct Hlen as [Hmin Hmax].
  apply Z.leb_le in Hmin, Hmax. now rewrite Hmin, Hmax.
Qed.

(** C3 (as amended).  Every streamline yielded after tracking has between
    [min_length] and [max_length] points; the only other yields are the
    seed-only ones made when the direction getter returns nothing and
    [return_all] is set, and those hold exactly one point, the seed,
    whatever [min_length] is. *)
Theorem yields_filtered_or_seed_only cfg w :
  (0 <= max_length cfg + 1)%Z ->
  exists items,
    _verbose_generate_tractogram cfg w = Py.Ok items
    /\ Forall
         (fun it =>
            within_lengths cfg it
            \/ (return_all cfg = true
                /\ exists s0 w1 w2,
                     In s0 (seeds cfg)
                     /\ initial_direction (to_voxel s0) w1 = ([], w2)
                     /\ points it = [to_voxel s0]))
         items.
Proof.
  intros Hmax.
  destruct (generator_origin cfg (fun _ _ => True)
              (fun _ _ _ _ _ _ _ _ _ _ _ => I) w Hmax I)
    as (items & Hrun & Ho).
  exists items. split; [exact Hrun |].
  eapply Forall_impl; [exact Ho |].
  intros it [s0 w1 w2 Hs Hr Hd | s0 d F B w0 st' it' Hs _ Ht].
  - right. split; [exact Hr |]. exists s0, w1, w2.
    rewrite emit_points. auto.
  - left. exact (track_one_filtered _ _ _ _ _ _ Ht).
Qed.

(** With [return_all] off, nothing escapes the filter. *)
Lemma yields_filtered_without_return_all cfg w items :
  return_all cfg = false ->
  _verbose_generate_tractogram cfg w = Py.Ok items ->
  Forall (within_lengths cfg) items.
Proof.
  intros Hr Hrun.
  assert (Hmax : (0 <= max_length cfg + 1)%Z).
  { unfold _verbose_generate_tractogram in Hrun.
    destruct (Z.ltb_spec (max_length cfg + 1) 0); [discriminate | lia]. }
  destruct (generator_origin cfg (fun _ _ => True)
              (fun _ _ _ _ _ _ _ _ _ _ _ => I) w Hmax I)
    as (items' & Hrun' & Ho).
  rewrite Hrun in Hrun'. injection Hrun' as <-.
  eapply Forall_impl; [exact Ho |].
  intros it [s0 w1 w2 Hs Hr' Hd | s0 d F B w0 st' it' Hs _ Ht].
  - congruence.
  - exact (track_one_filtered _ _ _ _ _ _ Ht).
Qed.

(** Under the contract the buffers keep their allocated size. *)
Lemma track_one_allocated cfg :
  tracker_contract ->
  forall s d F B w y F' B' w',
    allocated cfg F B ->
    track_one cfg s d (F, B, w) = (y, (F', B', w')) ->
    allocated cfg F' B'.
Proof.
  intros Hc s d F B w y F' B' w' [HF HB]. unfold track_one.
  pose proof (Hc s d F w) as HcF.
  destruct (run_tracker s d F w) as [[[stepsF stF] F1] w1].
  destruct HcF as [HlF _].
  destruct (negb (accepted cfg stF)).
  { intros Heq; simplify_eq. split; congruence. }
  pose proof (Hc s (neg d) B w1) as HcB.
  destruct (run_tracker s (neg d) B w1) as [[[stepsB stB] B1] w2].
  destruct HcB as [HlB _].
  destruct (negb (accepted cfg stB)).
  { intros Heq; simplify_eq. split; congruence. }
  destruct (_ && _); intros Heq; simplify_eq; split; congruence.
Qed.

Lemma stitch_in_bounds (s : point) (stepsF stepsB : Z) (F B : list point) :
  (1 <= stepsF <= Z.of_nat (length F))%Z ->
  (1 <= stepsB <= Z.of_nat (length B))%Z ->
  nth_error F 0 = Some s ->
  stitched s (Z.to_nat stepsF) (Z.to_nat stepsB) F B
    (stitch stepsF stepsB F B).
Proof.
  intros HF HB Hseed.
  set (nF := Z.to_nat stepsF). set (nB := Z.to_nat stepsB).
  assert (HnF : 1 <= nF <= length F) by lia.
  assert (HnB : 1 <= nB <= length B) by lia.
  assert (Heq : stitch stepsF stepsB F B
                = rev (Py.slice 1 nB B) ++ Py.slice 0 nF F).
  { unfold stitch. rewrite slice_to_nonneg by lia. fold nF.
    destruct (Z.eqb_spec stepsB 1) as [-> | Hne].
    - replace nB with 1%nat by lia. unfold Py.slice.
      destruct B as [| b [| b' B']]; reflexivity.
    - rewrite slice_down_in_range by lia.
      replace (Z.to_nat (stepsB - 1 + 1)) with nB by lia. reflexivity. }
  assert (Hlen : length (rev (Py.slice 1 nB B)) = nB - 1).
  { rewrite length_rev. apply slice_length. lia. }
  unfold stitched. rewrite Heq. repeat split.
  - rewrite length_app, Hlen, slice_length by lia. lia.
  - intros i Hi. rewrite nth_error_app1 by lia.
    rewrite nth_error_rev, <- (length_rev (Py.slice 1 nB B)), Hlen.
    destruct (Nat.ltb_spec i (nB - 1)); [| lia].
    rewrite slice_nth_error by lia. f_equal. lia.
  - intros j Hj. rewrite nth_error_app2 by lia.
    rewrite Hlen. replace (nB - 1 + j - (nB - 1)) with j by lia.
    now rewrite slice_nth_error by lia.
  - rewrite nth_error_app2 by lia. rewrite Hlen, Nat.sub_diag.
    now rewrite slice_nth_error by lia.
  - intros HB1. rewrite HB1. unfold Py.slice at 1.
    destruct B as [| b [| b' B']]; reflexivity.
Qed.

(** C4.  Under the tracker's contract, every streamline yielded after
    tracking is the stitch of the forward run and the backward run made
    from the same seed with the opposite first step: the backward points
    [B[stepsB-1]], ..., [B[1]], then the forward points [F[0]], ...,
    [F[stepsF-1]], the seed standing once, at the junction; when
    [stepsB = 1] it is the forward segment alone.  The only other yields
    are the seed-only ones of [return_all] for a seed without initial
    direction.  And for every seed and every first step kept for it, the
    stitch of the two runs is among the yields whenever both runs are
    accepted and the stitch passes the length filter. *)
Theorem yielded_streamline_is_stitch cfg w items :
  tracker_contract ->
  _verbose_generate_tractogram cfg w = Py.Ok items ->
  Forall
    (fun it =>
       (return_all cfg = true
        /\ exists s0 w1 w2,
             In s0 (seeds cfg)
             /\ initial_direction (to_voxel s0) w1 = ([], w2)
             /\ it = emit cfg [to_voxel s0] (to_voxel s0))
       \/ (exists s0 first_step F B w0 stepsF stF F1 w1 stepsB stB B1 w2,
             In s0 (seeds cfg)
             /\ run_tracker (to_voxel s0) first_step F w0
                = (stepsF, stF, F1, w1)
             /\ run_tracker (to_voxel s0) (neg first_step) B w1
                = (stepsB, stB, B1, w2)
             /\ accepted cfg stF = true
             /\ accepted cfg stB = true
             /\ it = emit cfg (stitch stepsF stepsB F1 B1) (to_voxel s0)
             /\ stitched (to_voxel s0) (Z.to_nat stepsF) (Z.to_nat stepsB)
                  F1 B1 (points it)))
    items
  /\ forall s0,
       In s0 (seeds cfg) ->
       exists w0 dirs w1,
         initial_direction (to_voxel s0) w0 = (dirs, w1)
         /\ (dirs = [] -> return_all cfg = true ->
             In (emit cfg [to_voxel s0] (to_voxel s0)) items)
         /\ forall first_step,
              In first_step (limit_cross cfg dirs) ->
              exists F B w2 stepsF stF F1 w3 stepsB stB B1 w4,
                allocated cfg F B
                /\ run_tracker (to_voxel s0) first_step F w2
                   = (stepsF, stF, F1, w3)
                /\ run_tracker (to_voxel s0) (neg first_step) B w3
                   = (stepsB, stB, B1, w4)
                /\ (accepted cfg stF = true ->
                    accepted cfg stB = true ->
                    within_lengths cfg
                      (emit cfg (stitch stepsF stepsB F1 B1) (to_voxel s0)) ->
                    In (emit cfg (stitch stepsF stepsB F1 B1) (to_voxel s0))
                      items).
Proof.
  intros Hc Hrun.
  assert (Hmax : (0 <= max_length cfg + 1)%Z).
  { unfold _verbose_generate_tractogram in Hrun.
    destruct (Z.ltb_spec (max_length cfg + 1) 0); [discriminate | lia]. }
  assert (Halloc : let F := repeat uninit (Z.to_nat (max_length cfg + 1)) in
                   allocated cfg F F)
    by (split; apply repeat_length).
  split.
  - destruct (generator_origin cfg (allocated cfg)
                (track_one_allocated cfg Hc) w Hmax Halloc)
      as (items' & Hrun' & Ho).
    rewrite Hrun in Hrun'. injection Hrun' as <-.
    eapply Forall_impl; [exact Ho |].
    intros it [s0 w1 w2 Hs Hr Hd | s0 d F B w0 st' it' Hs [HlF HlB] Ht].
    + left. split; [exact Hr |]. exists s0, w1, w2. auto.
    + right. unfold track_one in Ht.
      pose proof (Hc (to_voxel s0) d F w0) as HcF.
      destruct (run_tracker (to_voxel s0) d F w0)
        as [[[stepsF stF] F1] w1] eqn:HF.
      destruct (accepted cfg stF) eqn:HaF; [| discriminate]. simpl in Ht.
      pose proof (Hc (to_voxel s0) (neg d) B w1) as HcB.
      destruct (run_tracker (to_voxel s0) (neg d) B w1)
        as [[[stepsB stB] B1] w2] eqn:HB.
      destruct (accepted cfg stB) eqn:HaB; [| discriminate]. simpl in Ht.
      destruct (_ && _) eqn:Hfilter; [| discriminate].
      injection Ht as <- _. rewrite emit_points.
      (* something passed the filter, so the buffers have a row *)
      apply andb_true_iff in Hfilter as [_ Hle]. apply Z.leb_le in Hle.
      assert (Hrows : (0 < Z.to_nat (max_length cfg + 1))%nat) by lia.
      assert (HFne : F <> [])
        by (destruct F; [simpl in HlF; lia | discriminate]).
      assert (HBne : B <> [])
        by (destruct B; [simpl in HlB; lia | discriminate]).
      destruct HcF as [HF1 HcF]. destruct (HcF HFne) as [HsF HseedF].
      destruct HcB as [HB1 HcB]. destruct (HcB HBne) as [HsB _].
      exists s0, d, F, B, w0, stepsF, stF, F1, w1, stepsB, stB, B1, w2.
      refine (conj Hs (conj HF (conj HB (conj HaF (conj HaB
                (conj eq_refl _)))))).
      apply stitch_in_bounds; [lia | lia | exact HseedF].
  - intros s0 Hs0. unfold _verbose_generate_tractogram in Hrun.
    destruct (Z.ltb_spec (max_length cfg + 1) 0); [lia |].
    injection Hrun as <-.
    destruct (from_seeds _ _ _) as [ys st'] eqn:Hseeds. cbn [fst].
    destruct (from_seeds_passes cfg (allocated cfg)
                (track_one_allocated cfg Hc) _ _ _ _ _ _ Halloc Hseeds
                s0 Hs0)
      as (w0 & dirs & w1 & Hd & Hseed & Hpass).
    exists w0, dirs, w1. split; [exact Hd |]. split; [exact Hseed |].
    intros d Hin. destruct (Hpass d Hin) as (F & B & w2 & HP & Hys).
    destruct (run_tracker (to_voxel s0) d F w2)
      as [[[stepsF stF] F1] w3] eqn:HF.
    destruct (run_tracker (to_voxel s0) (neg d) B w3)
      as [[[stepsB stB] B1] w4] eqn:HB.
    exists F, B, w2, stepsF, stF, F1, w3, stepsB, stB, B1, w4.
    split; [exact HP |]. split; [exact HF |]. split; [exact HB |].
    intros HaF HaB Hlen.
    exact (Hys _ _ (track_one_yields cfg _ _ _ _ _ _ _ _ _ _ _ _ _
                      HF HB HaF HaB Hlen)).
Qed.

End TrackingFacts.

(* --------------------------------------------------------------------- *)
(** ** [tensor_odf]: the batches                                          *)
(* --------------------------------------------------------------------- *)

Section OdfFacts.
Import Numeric.

Lemma ceil_div_covers (n d : Z) :
  (0 <= n)%Z -> (1 <= d)%Z ->
  (0 <= ceil_div n d)%Z /\ (n <= d * ceil_div n d)%Z.
Proof.
  intros Hn Hd. unfold ceil_div.
  pose proof (Z.div_mod (- n) d ltac:(lia)) as Hdm.
  pose proof (Z.mod_pos_bound (- n) d ltac:(lia)) as Hm.
  split; nia.
Qed.

Lemma firstn_clamp {A} (n : nat) (l : list A) :
  firstn (if (length l <? n)%nat then length l else n) l = firstn n l.
Proof.
  destruct (Nat.ltb_spec (length l) n); [| reflexivity].
  rewrite firstn_all, firstn_all2 by lia. reflexivity.
Qed.

Lemma skipn_clamp {A} (n : nat) (l : list A) :
  skipn (if (length l <? n)%nat then length l else n) l = skipn n l.
Proof.
  destruct (Nat.ltb_spec (length l) n); [| reflexivity].
  rewrite skipn_all, skipn_all2 by lia. reflexivity.
Qed.

(** Writing rows [s..s') of the target over an array that already agrees
    with the target on its first [s] rows extends the agreement to [s']. *)
Lemma set_rows_extends {A} (s s' : nat) (target P0 : list A) :
  s <= s' -> length target = length P0 ->
  let P := firstn s target ++ skipn s P0 in
  set_rows s s' (Py.slice s s' target) P
  = firstn s' target ++ skipn s' P0.
Proof.
  intros Hs Hlen P. unfold set_rows, Py.slice.
  assert (Ha : firstn s P = firstn s target).
  { unfold P. rewrite firstn_app, take_idemp, length_firstn.
    destruct (Nat.le_gt_cases s (length target)).
    - replace (s - Nat.min s (length target)) with 0 by lia.
      simpl. apply app_nil_r.
    - rewrite (skipn_all2 P0) by lia. rewrite firstn_nil. apply app_nil_r. }
  assert (Hb : skipn s' P = skipn s' P0).
  { unfold P. rewrite skipn_app, length_firstn.
    rewrite (skipn_all2 (firstn s target))
      by (rewrite length_firstn; lia).
    rewrite skipn_skipn. simpl.
    destruct (Nat.le_gt_cases s (length target)).
    - f_equal. lia.
    - rewrite !skipn_all2 by lia. reflexivity. }
  rewrite Ha, Hb, app_assoc. f_equal.
  rewrite <- (take_idemp target s) at 1.
  replace (firstn s (firstn s target)) with (firstn s (firstn s' target)).
  - apply firstn_skipn.
  - rewrite firstn_firstn, take_idemp. f_equal. lia.
Qed.

Section Batches.
Variables (vertices : list vec3) (masked : list voxel).

Lemma batch_rows_length : length (batch_rows vertices masked) = length vertices.
Proof. unfold batch_rows. apply length_map. Qed.

Lemma batch_rows_slice (s s' : nat) :
  batch_rows (Py.slice s s' vertices) masked
  = Py.slice s s' (batch_rows vertices masked).
Proof.
  unfold batch_rows, Py.slice. now rewrite firstn_map, skipn_map.
Qed.

(** After [k] batches the first [k * batch_size] rows are final and the
    rest of the array is untouched. *)
Lemma batches_prefix (batch_size : nat) (P0 : list (list R)) :
  length P0 = length vertices ->
  forall k,
    fold_left (batch_step vertices masked batch_size) (seq 0 k) P0
    = firstn (k * batch_size) (batch_rows vertices masked)
      ++ skipn (k * batch_size) P0.
Proof.
  intros Hlen. induction k as [| k IH].
  - reflexivity.
  - rewrite seq_S, fold_left_app, IH. simpl fold_left. unfold batch_step.
    rewrite batch_rows_slice.
    set (T := batch_rows vertices masked).
    assert (HT : length T = length P0)
      by (unfold T; rewrite batch_rows_length; lia).
    set (s := k * batch_size). set (s' := (k + 1) * batch_size).
    set (stop := if (length vertices <? s')%nat then length vertices else s').
    assert (Hstop : stop = s'
                    \/ (stop = length vertices /\ length vertices < s')).
    { unfold stop. destruct (Nat.ltb_spec (length vertices) s'); auto. }
    assert (Hss' : s <= s') by (unfold s, s'; lia).
    replace (S k * batch_size) with s' by (unfold s'; lia).
    destruct Hstop as [-> | [-> Hlt]].
    + exact (set_rows_extends s s' T P0 Hss' HT).
    + unfold set_rows, Py.slice.
      rewrite <- (set_rows_extends s s' T P0 Hss' HT).
      unfold set_rows, Py.slice. f_equal. f_equal.
      * f_equal. rewrite !firstn_all2 by lia. reflexivity.
      * rewrite !skipn_all2; [reflexivity | |];
          rewrite length_app, length_firstn, length_skipn; lia.
Qed.

(** Enough batches fill the whole array. *)
Lemma batches_fill (batch_size k : nat) (P0 : list (list R)) :
  length P0 = length vertices ->
  length vertices <= k * batch_size ->
  fold_left (batch_step vertices masked batch_size) (seq 0 k) P0
  = batch_rows vertices masked.
Proof.
  intros Hlen Hk. rewrite batches_prefix by assumption.
  rewrite firstn_all2 by (rewrite batch_rows_length; lia).
  rewrite skipn_all2 by lia. apply app_nil_r.
Qed.

End Batches.

Lemma tensor_odf_positive_batches volume vertices (num_batches : Z) :
  (1 <= num_batches)%Z ->
  tensor_odf volume vertices num_batches
  = Py.Ok (tensor_odf_unbatched volume vertices).
Proof.
  intros Hnb. unfold tensor_odf, tensor_odf_unbatched.
  destruct (Z.eqb_spec num_batches (-1)); [lia |].
  destruct (Z.eqb_spec num_batches 0); [lia |].
  destruct (ceil_div_covers (Z.of_nat (length vertices)) num_batches
              ltac:(lia) Hnb) as [H0 Hc].
  rewrite batches_fill; [reflexivity | |].
  - now rewrite repeat_length.
  - nia.
Qed.

Lemma tensor_odf_batch_per_vertex volume vertices :
  vertices <> [] ->
  tensor_odf volume vertices (-1)
  = Py.Ok (tensor_odf_unbatched volume vertices).
Proof.
  intros Hv. rewrite <- (tensor_odf_positive_batches volume vertices
                           (Z.of_nat (length vertices))).
  - unfold tensor_odf. simpl (-1 =? -1)%Z. cbv iota.
    destruct (Z.eqb_spec (Z.of_nat (length vertices)) (-1)); [lia |].
    reflexivity.
  - destruct vertices; [congruence | simpl; lia].
Qed.

(** C8 (as amended).  For every volume and sphere, every [num_batches >= 1]
    gives the array that [num_batches = 1] gives, and so does
    [num_batches = -1] when the sphere has at least one vertex; the call
    returns in each of these cases. *)
Theorem tensor_odf_batch_invariant volume vertices (num_batches : Z) :
  (1 <= num_batches)%Z \/ (num_batches = (-1)%Z /\ vertices <> []) ->
  tensor_odf volume vertices num_batches = tensor_odf volume vertices 1
  /\ Py.is_ok (tensor_odf volume vertices 1) = true.
Proof.
  intros H.
  rewrite (tensor_odf_positive_batches volume vertices 1) by lia.
  split; [| reflexivity].
  destruct H as [H | [-> H]].
  - now apply tensor_odf_positive_batches.
  - now apply tensor_odf_batch_per_vertex.
Qed.

End OdfFacts.

(* --------------------------------------------------------------------- *)
(** ** [gaussian_weights]                                                 *)
(* --------------------------------------------------------------------- *)

Section ColumnLoop.
Import Numeric.

Lemma repeat_replicate {A} (x : A) (n : nat) : repeat x n = replicate n x.
Proof. induction n; simpl; congruence. Qed.

Lemma column_lookup {A} (dflt : A) (a : list (list A)) (i j : nat) row x :
  a !! j = Some row -> row !! i = Some x -> column dflt a i !! j = Some x.
Proof.
  intros Ha Hx. unfold column.
  change (map ?f a) with (f <$> a). rewrite list_lookup_fmap, Ha. simpl.
  f_equal. now apply nth_lookup_Some.
Qed.

Lemma column_length {A} (dflt : A) (a : list (list A)) (i : nat) :
  length (column dflt a i) = length a.
Proof. apply length_map. Qed.

Lemma set_column_lookup {A} (i j : nat) (col : list A) a row c :
  a !! j = Some row -> col !! j = Some c ->
  set_column i col a !! j = Some (<[i := c]> row).
Proof.
  intros Ha Hc. unfold set_column. rewrite lookup_zip_with, Ha. simpl.
  now rewrite Hc.
Qed.

Lemma set_column_length {A} (i : nat) (col : list A) a :
  length col = length a -> length (set_column i col a) = length a.
Proof. intros H. unfold set_column. now apply length_zip_with_l_eq. Qed.

Section Loop.
Context {A : Type} (cols : nat -> list A) (W0 : list (list A)).
Hypothesis cols_length : forall i, length (cols i) = length W0.

Lemma column_loop_length (n : nat) :
  length (fold_left (fun w i => set_column i (cols i) w) (seq 0 n) W0)
  = length W0.
Proof using cols_length.
  induction n as [| n IH]; [reflexivity |].
  rewrite seq_S, fold_left_app. simpl.
  rewrite set_column_length; [exact IH | now rewrite IH].
Qed.

(** After the columns [0 .. n-1] have been written, row [j] holds the
    [j]-th entry of each of them and is otherwise as it was. *)
Lemma column_loop_row (n j : nat) (row0 : list A) :
  W0 !! j = Some row0 ->
  exists row,
    fold_left (fun w i => set_column i (cols i) w) (seq 0 n) W0 !! j = Some row
    /\ length row = length row0
    /\ forall i, row !! i
                 = if decide (i < n /\ i < length row0)
                   then cols i !! j else row0 !! i.
Proof using cols_length.
  intros H0. induction n as [| n (row & Hrow & Hlen & Hent)].
  - exists row0. split; [exact H0 |]. split; [reflexivity |]. intros i.
    rewrite decide_False by lia. reflexivity.
  - assert (Hj : (j < length (cols n))%nat).
    { rewrite cols_length. now apply lookup_lt_Some in H0. }
    apply lookup_lt_is_Some in Hj as [c Hc].
    exists (<[n := c]> row).
    rewrite seq_S, fold_left_app. simpl.
    split; [now apply set_column_lookup |].
    split; [now rewrite length_insert |].
    intros i. specialize (Hent i).
    destruct (decide (i = n)) as [-> | Hne].
    + destruct (decide (n < length row0)%nat) as [Hin | Hout].
      * rewrite list_lookup_insert_eq by lia.
        rewrite decide_True by lia. now symmetry.
      * rewrite list_insert_ge by lia. rewrite Hent.
        rewrite !decide_False by lia. reflexivity.
    + rewrite list_lookup_insert_ne by auto. rewrite Hent.
      destruct (decide (i < n /\ i < length row0)).
      * rewrite decide_True by lia. reflexivity.
      * rewrite decide_False by lia. reflexivity.
Qed.

End Loop.
End ColumnLoop.

Section WeightFacts.
Import Numeric.
Local Open Scope R_scope.
Context {LA : Linalg}.

Lemma is_zero_true (r : R) : is_zero r = true <-> r = 0.
Proof. unfold is_zero. destruct (Req_dec_T r 0); split; congruence. Qed.

Lemma is_zero_false (r : R) : is_zero r = false <-> r <> 0.
Proof. unfold is_zero. destruct (Req_dec_T r 0); split; congruence. Qed.

Lemma is_neg_false (r : R) : is_neg r = false <-> 0 <= r.
Proof.
  unfold is_neg. destruct (Rlt_dec r 0); split; intros; try lra; congruence.
Qed.

Lemma full_rank_det (m : mat3) :
  full_rank m = true -> det3 m <> 0.
Proof.
  unfold full_rank. intros H. apply Nat.eqb_eq in H.
  now apply matrix_rank_full.
Qed.

Lemma det3_triu (m : mat3) : det3 (triu m) = m00 m * m11 m * m22 m.
Proof. unfold det3, triu. simpl. ring. Qed.

(** [inv3] is the inverse, on both sides, of a matrix whose determinant
    does not vanish. *)
Lemma inv3_right (m : mat3) : det3 m <> 0 -> matmul m (inv3 m) = ident3.
Proof.
  intros Hd. unfold matmul, inv3, ident3. simpl. unfold det3 in *.
  f_equal; field; exact Hd.
Qed.

Lemma inv3_left (m : mat3) : det3 m <> 0 -> matmul (inv3 m) m = ident3.
Proof.
  intros Hd. unfold matmul, inv3, ident3. simpl. unfold det3 in *.
  f_equal; field; exact Hd.
Qed.

Lemma Rsum_zero {A} (h : A -> R) (X : list A) :
  (forall p, In p X -> h p = 0) -> Rsum (map h X) = 0.
Proof.
  induction X as [| p X IH]; intros H; simpl; [reflexivity |].
  rewrite (H p) by now left. rewrite IH; [lra |].
  intros q Hq. apply H. now right.
Qed.

Lemma Rsum_squares_nonneg {A} (h : A -> R) (X : list A) :
  0 <= Rsum (map (fun p => h p * h p) X).
Proof. induction X as [| p X IH]; simpl; [lra | nra]. Qed.

Lemma Rsum_squares_zero {A} (h : A -> R) (X : list A) :
  Rsum (map (fun p => h p * h p) X) = 0 -> forall p, In p X -> h p = 0.
Proof.
  induction X as [| q X IH]; simpl; intros Hs p Hp; [contradiction |].
  pose proof (Rsum_squares_nonneg h X) as Hn.
  assert (Hq : h q * h q = 0) by nra.
  destruct Hp as [-> | Hp].
  - nra.
  - apply IH; [nra | exact Hp].
Qed.

(** A coordinate without variance has no covariance with any other. *)
Lemma cov_entry_no_variance (f g : vec3 -> R) (X : list vec3) :
  cov_entry f f X = 0 -> cov_entry f g X = 0 /\ cov_entry g f X = 0.
Proof.
  unfold cov_entry. intros Hv.
  set (mf := mean (map f X)) in *. set (mg := mean (map g X)).
  assert (Hs : Rsum (map (fun p => (f p - mf) * (f p - mf)) X) = 0).
  { destruct X as [| x X']; [reflexivity |].
    assert (Hn : INR (length (x :: X')) <> 0)
      by (apply not_0_INR; discriminate).
    apply (Rmult_eq_reg_r (/ INR (length (x :: X')))).
    - rewrite Rmult_0_l. exact Hv.
    - now apply Rinv_neq_0_compat. }
  pose proof (Rsum_squares_zero (fun p => f p - mf) X Hs) as Hz.
  split.
  - rewrite (Rsum_zero (fun p => (f p - mf) * (g p - mg))).
    + unfold Rdiv. apply Rmult_0_l.
    + intros p Hp. rewrite (Hz p Hp). ring.
  - rewrite (Rsum_zero (fun p => (g p - mg) * (f p - mf))).
    + unfold Rdiv. apply Rmult_0_l.
    + intros p Hp. rewrite (Hz p Hp). ring.
Qed.

(** The triangular part of a covariance that can be inverted can be
    inverted. *)
Lemma cov_det_triu (X : list vec3) :
  det3 (cov X) <> 0 -> det3 (triu (cov X)) <> 0.
Proof.
  rewrite det3_triu. intros Hd Hz. apply Hd.
  apply Rmult_integral in Hz as [Hz | Hz];
    [apply Rmult_integral in Hz as [Hz | Hz] |]; simpl in Hz.
  - destruct (cov_entry_no_variance vx vy X Hz) as [H1 H2].
    destruct (cov_entry_no_variance vx vz X Hz) as [H3 H4].
    unfold det3, cov. simpl. rewrite Hz, H1, H3. ring.
  - destruct (cov_entry_no_variance vy vx X Hz) as [H1 H2].
    destruct (cov_entry_no_variance vy vz X Hz) as [H3 H4].
    unfold det3, cov. simpl. rewrite Hz, H1, H3. ring.
  - destruct (cov_entry_no_variance vz vx X Hz) as [H1 H2].
    destruct (cov_entry_no_variance vz vy X Hz) as [H3 H4].
    unfold det3, cov. simpl. rewrite Hz, H1, H3. ring.
Qed.

Lemma rectangular_shape1 {A} (a : list (list A)) (n j : nat) row :
  Forall (fun r => length r = n) a -> a !! j = Some row -> shape1 a = n.
Proof.
  intros Hrect Hj. destruct a as [| r a']; [discriminate |].
  now inversion Hrect.
Qed.

Lemma node_distances_lookup (X D : list vec3) (j : nat) (d : vec3) :
  D !! j = Some d ->
  node_distances X D !! j
  = Some (if full_rank (triu (cov X))
          then np_sqrt (quad d (inv3 (triu (cov X))))
          else Fin 0).
Proof.
  intros Hd. unfold node_distances.
  destruct (full_rank _); change (map ?f D) with (f <$> D);
    now rewrite list_lookup_fmap, Hd.
Qed.

Lemma node_distances_length (X D : list vec3) :
  length (node_distances X D) = length D.
Proof. unfold node_distances. destruct (full_rank _); apply length_map. Qed.

(** The entry of [weights] for streamline [j] and node [i] once the loop
    over the nodes is over. *)
Lemma distance_loop_entry stat (sls : list (list vec3)) (n_nodes j i : nat)
    (sl : list vec3) (p : vec3) :
  Forall (fun sl => length sl = n_nodes) sls ->
  sls !! j = Some sl -> sl !! i = Some p ->
  let X := column zero3 sls i in
  let d := sub3 (center_at stat sls i) p in
  exists row,
    distance_loop stat sls !! j = Some row
    /\ length row = n_nodes
    /\ row !! i = Some (if full_rank (triu (cov X))
                        then np_sqrt (quad d (inv3 (triu (cov X))))
                        else Fin 0).
Proof.
  intros Hrect Hj Hi X d. unfold distance_loop.
  rewrite (rectangular_shape1 sls n_nodes j sl Hrect Hj).
  set (diff := map (fun sl => zip_with sub3 (stat_axis0 stat sls) sl) sls).
  set (cols := fun i => node_distances (column zero3 sls i)
                          (column zero3 diff i)).
  set (W0 := repeat (repeat (Fin 0) n_nodes) (length sls)).
  assert (HW0 : length W0 = length sls) by apply repeat_length.
  assert (Hcols : forall i, length (cols i) = length W0).
  { intros k. unfold cols.
    rewrite node_distances_length, column_length, HW0.
    apply length_map. }
  assert (Hin : (i < n_nodes)%nat).
  { pose proof (lookup_lt_Some _ _ _ Hi) as Hlt.
    pose proof (proj1 (Forall_forall _ _) Hrect sl) as Hsl.
    rewrite <- Hsl; [exact Hlt |].
    eapply list_elem_of_lookup_2. exact Hj. }
  assert (Hrow0 : W0 !! j = Some (repeat (Fin 0) n_nodes)).
  { unfold W0. rewrite repeat_replicate. apply lookup_replicate_2.
    now apply lookup_lt_Some in Hj. }
  destruct (column_loop_row cols W0 Hcols n_nodes j _ Hrow0)
    as (row & Hrow & Hlen & Hent).
  exists row. split; [exact Hrow |].
  rewrite repeat_length in Hlen. split; [exact Hlen |].
  rewrite Hent, decide_True by (rewrite repeat_length; lia).
  unfold cols. apply node_distances_lookup.
  apply column_lookup with (row := zip_with sub3 (stat_axis0 stat sls) sl).
  - unfold diff. change (map ?f sls) with (f <$> sls).
    now rewrite list_lookup_fmap, Hj.
  - rewrite lookup_zip_with. unfold stat_axis0.
    change (map ?f ?l) with (f <$> l). rewrite list_lookup_fmap.
    rewrite (rectangular_shape1 sls n_nodes j sl Hrect Hj).
    rewrite lookup_seq_lt by exact Hin. simpl. now rewrite Hi.
Qed.

Lemma distance_loop_length stat (sls : list (list vec3)) :
  length (distance_loop stat sls) = length sls.
Proof.
  unfold distance_loop. rewrite column_loop_length; [apply repeat_length |].
  intros i. rewrite node_distances_length, column_length, repeat_length.
  apply length_map.
Qed.

Lemma normalise_length (W : list (list fval)) :
  length (normalise W) = length W.
Proof. unfold normalise. now rewrite !length_map. Qed.

(** An entry of the normalised array: the inverse of the distance over the
    sum of the inverses of the node. *)
Lemma normalise_entry (W : list (list fval)) (j i : nat) row (w : fval) :
  W !! j = Some row -> row !! i = Some w -> (i < shape1 W)%nat ->
  exists row',
    normalise W !! j = Some row'
    /\ row' !! i
       = Some (np_div (np_div (Fin 1) w)
                 (np_sum (column NaN (map (map (np_div (Fin 1))) W) i))).
Proof.
  intros Hj Hi Hlt. unfold normalise.
  set (W' := map (map (np_div (Fin 1))) W).
  assert (Hj' : W' !! j = Some (map (np_div (Fin 1)) row)).
  { unfold W'. change (map ?f W) with (f <$> W).
    now rewrite list_lookup_fmap, Hj. }
  eexists. split.
  - change (map ?f W') with (f <$> W'). rewrite list_lookup_fmap, Hj'.
    reflexivity.
  - rewrite lookup_zip_with.
    change (map ?f ?l) with (f <$> l). rewrite !list_lookup_fmap, Hi.
    rewrite lookup_seq_lt by exact Hlt. reflexivity.
Qed.

Lemma np_sum_all_inf (l : list fval) :
  l <> [] -> Forall (fun x => x = PInf) l -> np_sum l = PInf.
Proof.
  intros Hne Hall. induction Hall as [| x l -> Hl IH]; [contradiction |].
  unfold np_sum. simpl. destruct l as [| y l'].
  - reflexivity.
  - fold (np_sum (y :: l')). rewrite IH by discriminate. reflexivity.
Qed.

Lemma one_over_zero : np_div (Fin 1) (Fin 0) = PInf.
Proof.
  unfold np_div.
  rewrite (proj2 (is_zero_true 0) eq_refl).
  rewrite (proj2 (is_zero_false 1)) by lra.
  rewrite (proj2 (is_neg_false 1)) by lra. reflexivity.
Qed.

(** Where every distance of a node is 0, every weight of the node is NaN:
    [1 / 0] is [inf], the sum of the node is [inf], and [inf / inf] is
    NaN. *)
Lemma normalise_zero_node (W : list (list fval)) (i : nat) :
  W <> [] -> (i < shape1 W)%nat ->
  (forall j row, W !! j = Some row -> row !! i = Some (Fin 0)) ->
  np_sum (column NaN (map (map (np_div (Fin 1))) W) i) = PInf
  /\ forall j row,
       W !! j = Some row ->
       exists row', normalise W !! j = Some row' /\ row' !! i = Some NaN.
Proof.
  intros Hne Hlt Hzero.
  assert (Hsum : np_sum (column NaN (map (map (np_div (Fin 1))) W) i) = PInf).
  { apply np_sum_all_inf.
    - destruct W; [contradiction | discriminate].
    - unfold column. rewrite map_map. apply Forall_forall.
      intros x Hx. apply list_elem_of_In, in_map_iff in Hx as (row & <- & Hrow).
      apply list_elem_of_In, list_elem_of_lookup_1 in Hrow as [j Hj].
      apply nth_lookup_Some.
      change (map ?f row) with (f <$> row).
      rewrite list_lookup_fmap, (Hzero j row Hj).
      cbn [fmap option_fmap option_map]. now rewrite one_over_zero. }
  split; [exact Hsum |].
  intros j row Hj.
  destruct (normalise_entry W j i row (Fin 0) Hj (Hzero j row Hj) Hlt)
    as (row' & Hrow' & Hent).
  exists row'. split; [exact Hrow' |].
  now rewrite Hent, Hsum, one_over_zero.
Qed.

Lemma np_sum_finite (l : list R) : np_sum (map Fin l) = Fin (Rsum l).
Proof.
  induction l as [| x l IH]; [reflexivity |].
  unfold np_sum in *. simpl. now rewrite IH.
Qed.

Lemma Rsum_scale (h : R -> R) (c : R) (l : list R) :
  Rsum (map (fun w => h w / c) l) = Rsum (map h l) / c.
Proof.
  induction l as [| x l IH]; simpl.
  - unfold Rdiv. now rewrite Rmult_0_l.
  - rewrite IH. unfold Rdiv. ring.
Qed.

Lemma Rsum_inverse_pos (l : list R) :
  l <> [] -> Forall (fun w => 0 < w) l -> 0 < Rsum (map (fun w => 1 / w) l).
Proof.
  intros Hne Hpos. induction Hpos as [| w l Hw Hl IH]; [contradiction |].
  simpl. assert (H1 : 0 < 1 / w) by (apply Rdiv_lt_0_compat; lra).
  destruct l as [| w' l']; [simpl; lra |].
  specialize (IH ltac:(discriminate)). lra.
Qed.

Lemma finite_div (x y : R) : y <> 0 -> np_div (Fin x) (Fin y) = Fin (x / y).
Proof.
  intros Hy. unfold np_div. now rewrite (proj2 (is_zero_false y) Hy).
Qed.

(** Where every distance of a node is finite and positive, the weights of
    the node are the inverse distances over their sum, and add up to 1. *)
Lemma normalise_regular_node (W : list (list fval)) (i : nat) (ws : list R) :
  W <> [] -> (i < shape1 W)%nat ->
  Forall2 (fun row w => row !! i = Some (Fin w) /\ 0 < w) W ws ->
  let total := Rsum (map (fun w => 1 / w) ws) in
  (forall j row w,
     W !! j = Some row -> ws !! j = Some w ->
     exists row',
       normalise W !! j = Some row'
       /\ row' !! i = Some (Fin (1 / w / total)))
  /\ np_sum (column NaN (normalise W) i) = Fin 1.
Proof.
  intros Hne Hlt Hall total.
  assert (Hws : ws <> []).
  { destruct Hall; [contradiction | discriminate]. }
  assert (Hpos : Forall (fun w => 0 < w) ws).
  { clear -Hall. induction Hall as [| row w W ws [_ Hw] _ IH]; constructor;
      assumption. }
  assert (Htotal : 0 < total) by now apply Rsum_inverse_pos.
  assert (Hcol : column NaN (map (map (np_div (Fin 1))) W) i
                 = map Fin (map (fun w => 1 / w) ws)).
  { clear -Hall. unfold column. rewrite !map_map.
    induction Hall as [| row w W ws [Hrow Hw] _ IH]; [reflexivity |].
    simpl. rewrite IH. f_equal.
    apply nth_lookup_Some. change (map ?f row) with (f <$> row).
    rewrite list_lookup_fmap, Hrow. cbn [fmap option_fmap option_map].
    f_equal. apply finite_div. lra. }
  assert (Hentry : forall j row w,
             W !! j = Some row -> ws !! j = Some w ->
             exists row',
               normalise W !! j = Some row'
               /\ row' !! i = Some (Fin (1 / w / total))).
  { intros j row w Hj Hw.
    destruct (Forall2_lookup_lr _ _ _ _ _ _ Hall Hj Hw) as [Hrow Hwpos].
    destruct (normalise_entry W j i row (Fin w) Hj Hrow Hlt)
      as (row' & Hrow' & Hent).
    exists row'. split; [exact Hrow' |].
    rewrite Hent, Hcol, np_sum_finite. fold total.
    rewrite (finite_div 1 w) by lra. rewrite finite_div by lra.
    reflexivity. }
  split; [exact Hentry |].
  assert (Hcol' : column NaN (normalise W) i
                  = map Fin (map (fun w => 1 / w / total) ws)).
  { apply list_eq. intros j.
    unfold column at 1. change (map ?f (normalise W)) with (f <$> normalise W).
    rewrite list_lookup_fmap.
    change (map Fin ?l) with (Fin <$> l).
    change (map ?f ws) with (f <$> ws). rewrite !list_lookup_fmap.
    destruct (W !! j) as [row |] eqn:Hj.
    - destruct (Forall2_lookup_l _ _ _ _ _ Hall Hj) as (w & Hw & _).
      destruct (Hentry j row w Hj Hw) as (row' & Hrow' & Hent).
      rewrite Hrow', Hw. simpl. f_equal. now apply nth_lookup_Some.
    - assert (Hn : normalise W !! j = None).
      { apply lookup_ge_None. rewrite normalise_length.
        now apply lookup_ge_None. }
      assert (Hw : ws !! j = None).
      { apply lookup_ge_None. rewrite <- (Forall2_length _ _ _ Hall).
        now apply lookup_ge_None. }
      now rewrite Hn, Hw. }
  rewrite Hcol', np_sum_finite. f_equal.
  rewrite (Rsum_scale (fun w => 1 / w) total). fold total. field. lra.
Qed.

Lemma mean_constant (h : vec3 -> R) (X : list vec3) (p : vec3) :
  X <> [] -> (forall q, In q X -> q = p) -> mean (map h X) = h p.
Proof.
  intros Hne Hall. unfold mean. rewrite length_map.
  assert (Hs : Rsum (map h X) = INR (length X) * h p).
  { clear Hne. induction X as [| q X IH]; [simpl; lra |].
    change (length (q :: X)) with (S (length X)). rewrite S_INR. simpl.
    rewrite (Hall q) by now left.
    rewrite IH by (intros r Hr; apply Hall; now right). lra. }
  rewrite Hs. field. apply not_0_INR. now destruct X.
Qed.

(** The triangular part of the covariance of identical rows cannot be
    inverted, so it is not counted as of full rank. *)
Lemma shared_coordinate_rank (X : list vec3) (p : vec3) :
  X <> [] -> (forall q, In q X -> q = p) ->
  full_rank (triu (cov X)) = false.
Proof.
  intros Hne Hall.
  apply not_true_is_false. intros Hfull.
  apply full_rank_det in Hfull. rewrite det3_triu in Hfull.
  apply Hfull. simpl.
  assert (H0 : cov_entry vx vx X = 0).
  { unfold cov_entry. rewrite (mean_constant vx X p Hne Hall).
    rewrite (Rsum_zero (fun q => (vx q - vx p) * (vx q - vx p))).
    - unfold Rdiv. apply Rmult_0_l.
    - intros q Hq. rewrite (Hall q Hq). ring. }
  rewrite H0. ring.
Qed.

Section WithResampler.
Context {RS : Resampler}.

(** A three-axis array that already has [n_points] nodes and more than one
    streamline goes to the loop as it is. *)
Lemma gaussian_weights_array3 stat (sls : list (list vec3)) (mahal : bool) :
  length sls <> 1%nat ->
  gaussian_weights (Array3 sls) (Z.of_nat (shape1 sls)) mahal stat
  = Py.Ok (Mat (if mahal then distance_loop stat sls
                else normalise (distance_loop stat sls))).
Proof.
  intros Hlen. unfold gaussian_weights, needs_resample. simpl bundle_len.
  rewrite Z.eqb_refl. simpl.
  destruct (Nat.eqb_spec (length sls) 1); [contradiction |].
  now destruct mahal.
Qed.

(** C1, where the code departs from it.  For a bundle of at least two
    streamlines with [n_points] nodes each, the entry returned with
    [return_mahalnobis] for streamline [j] and node [i] is
    [sqrt(d U^-1 d^T)], where [d] is the difference between the central
    tendency of the node and the streamline's coordinate and [U] is the
    upper triangle of the covariance of the node (line 295), or 0 where
    [U] is not counted as of full rank.  Wherever the covariance [Sigma]
    can be inverted, the Mahalanobis distance [sqrt(d Sigma^-1 d^T)] is
    positive and the form taken with [U^-1] is not the one taken with
    [Sigma^-1], the entry returned is not the Mahalanobis distance. *)
Theorem gaussian_weights_not_mahalanobis stat (sls : list (list vec3))
    (n_nodes j i : nat) (sl : list vec3) (p : vec3) :
  (2 <= length sls)%nat ->
  Forall (fun sl => length sl = n_nodes) sls ->
  sls !! j = Some sl -> sl !! i = Some p ->
  let X := column zero3 sls i in
  let d := sub3 (center_at stat sls i) p in
  let U := triu (cov X) in
  det3 (cov X) <> 0 ->
  0 < quad d (inv3 (cov X)) ->
  quad d (inv3 U) <> quad d (inv3 (cov X)) ->
  matmul (cov X) (inv3 (cov X)) = ident3
  /\ exists W row x,
       gaussian_weights (Array3 sls) (Z.of_nat n_nodes) true stat
       = Py.Ok (Mat W)
       /\ W !! j = Some row
       /\ row !! i = Some x
       /\ x = (if full_rank U then np_sqrt (quad d (inv3 U)) else Fin 0)
       /\ x <> np_sqrt (quad d (inv3 (cov X))).
Proof.
  intros Hlen Hrect Hj Hi X d U Hdet Hpos Hdiff.
  split; [now apply inv3_right |].
  assert (Hshape : shape1 sls = n_nodes).
  { destruct sls as [| sl0 sls']; [simpl in Hlen; lia |].
    now inversion Hrect. }
  destruct (distance_loop_entry stat sls n_nodes j i sl p Hrect Hj Hi)
    as (row & Hrow & _ & Hent).
  fold X d U in Hent.
  exists (distance_loop stat sls), row. eexists.
  split.
  { rewrite <- Hshape. apply (gaussian_weights_array3 stat sls true). lia. }
  split; [exact Hrow |]. split; [exact Hent |]. split; [reflexivity |].
  assert (Hm : np_sqrt (quad d (inv3 (cov X)))
               = Fin (sqrt (quad d (inv3 (cov X))))).
  { unfold np_sqrt. now rewrite (proj2 (is_neg_false _)) by lra. }
  rewrite Hm. destruct (full_rank U).
  - unfold np_sqrt. destruct (is_neg (quad d (inv3 U))) eqn:Hneg;
      [discriminate |].
    apply is_neg_false in Hneg. intros [= Heq].
    apply Hdiff. apply sqrt_inj; [exact Hneg | lra | exact Heq].
  - intros [= Heq]. apply sqrt_lt_R0 in Hpos. lra.
Qed.

(** The regular nodes.  At a node where the upper triangle of the
    covariance is counted as of full rank and no streamline sits at
    distance 0, each weight is the inverse of the streamline's distance
    over the sum of the inverse distances of the node, and the weights of
    the node add up to 1. *)
Lemma gaussian_weights_regular_node stat (sls : list (list vec3))
    (n_nodes i : nat) :
  (2 <= length sls)%nat ->
  Forall (fun sl => length sl = n_nodes) sls ->
  (i < n_nodes)%nat ->
  let U := triu (cov (column zero3 sls i)) in
  let dist := fun sl : list vec3 =>
    sqrt (quad (sub3 (center_at stat sls i) (nth i sl zero3)) (inv3 U)) in
  let total := Rsum (map (fun w => 1 / w) (map dist sls)) in
  full_rank U = true ->
  (forall sl, In sl sls ->
     0 < quad (sub3 (center_at stat sls i) (nth i sl zero3)) (inv3 U)) ->
  exists W,
    gaussian_weights (Array3 sls) (Z.of_nat n_nodes) false stat
    = Py.Ok (Mat W)
    /\ (forall j sl, sls !! j = Some sl ->
          exists row, W !! j = Some row
                      /\ row !! i = Some (Fin (1 / dist sl / total)))
    /\ np_sum (column NaN W i) = Fin 1.
Proof.
  intros Hlen Hrect Hin U dist total Hfull Hpos.
  assert (Hshape : shape1 sls = n_nodes).
  { destruct sls as [| sl0 sls']; [simpl in Hlen; lia |].
    now inversion Hrect. }
  set (D := distance_loop stat sls).
  assert (HDlen : length D = length sls) by apply distance_loop_length.
  assert (Hrows : forall j sl, sls !! j = Some sl ->
            exists row, D !! j = Some row /\ length row = n_nodes
                        /\ row !! i = Some (Fin (dist sl)) /\ 0 < dist sl).
  { intros j sl Hj.
    assert (Hsl : In sl sls).
    { apply list_elem_of_In. eapply list_elem_of_lookup_2, Hj. }
    assert (Hp : sl !! i = Some (nth i sl zero3)).
    { destruct (nth_lookup_or_length sl i zero3) as [H | H]; [exact H |].
      rewrite Forall_forall in Hrect.
      rewrite (Hrect sl) in H by now apply list_elem_of_In. lia. }
    destruct (distance_loop_entry stat sls n_nodes j i sl _ Hrect Hj Hp)
      as (row & Hrow & Hrl & Hent).
    fold U in Hent. rewrite Hfull in Hent.
    exists row. split; [exact Hrow |]. split; [exact Hrl |].
    pose proof (Hpos sl Hsl) as Hq. split.
    - rewrite Hent. unfold np_sqrt.
      now rewrite (proj2 (is_neg_false _)) by lra.
    - now apply sqrt_lt_R0. }
  assert (Hall : Forall2 (fun row w => row !! i = Some (Fin w) /\ 0 < w)
                   D (map dist sls)).
  { apply Forall2_same_length_lookup_2; [now rewrite length_map |].
    intros j row w Hrow Hw.
    change (map dist sls) with (dist <$> sls) in Hw.
    rewrite list_lookup_fmap in Hw.
    destruct (sls !! j) as [sl |] eqn:Hj; [| discriminate].
    injection Hw as <-.
    destruct (Hrows j sl Hj) as (row1 & Hrow1 & _ & Hent & Hd).
    rewrite Hrow in Hrow1. injection Hrow1 as <-. now split. }
  assert (HDne : D <> []) by (destruct D; [simpl in HDlen; lia | discriminate]).
  assert (HDshape : (i < shape1 D)%nat).
  { destruct sls as [| sl0 sls'] eqn:Hsls; [simpl in Hlen; lia |].
    destruct (Hrows 0%nat sl0 eq_refl) as (row & Hrow & Hrl & _).
    destruct D as [| row0 D']; [discriminate |].
    injection Hrow as ->. simpl. lia. }
  destruct (normalise_regular_node D i (map dist sls) HDne HDshape Hall)
    as [Hent Hsum].
  exists (normalise D). split; [| split; [| exact Hsum]].
  - rewrite <- Hshape. apply (gaussian_weights_array3 stat sls false). lia.
  - intros j sl Hj. destruct (Hrows j sl Hj) as (row & Hrow & _).
    apply (Hent j row (dist sl) Hrow).
    change (map dist sls) with (dist <$> sls).
    now rewrite list_lookup_fmap, Hj.
Qed.

(** C9, where the code departs from it.  The resampling of lines 266-279
    runs before the test of line 282: a bundle of exactly one streamline
    gets the one-element array, [[NaN]] with [return_mahalnobis] and
    [[1]] without, only where no resampling is needed or
    [set_number_of_points] returns.  A three-axis array whose number of
    nodes is not [n_points], or a bundle that is not an array, goes to
    [set_number_of_points] first, and where that raises,
    [gaussian_weights] raises the same: [n_points] is not ignored. *)
Theorem gaussian_weights_single_resamples_first (b : bundle) (n_points : Z)
    (return_mahalnobis : bool) (stat : list R -> R) :
  bundle_len b = 1%nat ->
  gaussian_weights b n_points return_mahalnobis stat
  = if needs_resample b n_points
    then match set_number_of_points b n_points with
         | Py.Ok _ => Py.Ok (Vec [if return_mahalnobis then NaN else Fin 1])
         | Py.Raise e => Py.Raise e
         end
    else Py.Ok (Vec [if return_mahalnobis then NaN else Fin 1]).
Proof.
  intros Hlen. unfold gaussian_weights. rewrite Hlen. simpl.
  destruct (needs_resample b n_points).
  - destruct (set_number_of_points b n_points); [| reflexivity].
    simpl. now destruct return_mahalnobis.
  - simpl. now destruct return_mahalnobis.
Qed.

(** When the resampler refuses, [gaussian_weights] raises what it raised,
    also for a bundle of one streamline. *)
Lemma gaussian_weights_resampler_raises (b : bundle) (n_points : Z)
    (mahal : bool) (stat : list R -> R) (e : Py.exn) :
  needs_resample b n_points = true ->
  set_number_of_points b n_points = Py.Raise e ->
  gaussian_weights b n_points mahal stat = Py.Raise e.
Proof.
  intros Hn He. unfold gaussian_weights. now rewrite Hn, He.
Qed.

(** C2, where the code departs from it.  At a node where all the
    streamlines share one coordinate, every weight returned is NaN and so
    is their sum: the distances of the node are set to 0, their inverses
    are [inf], and [inf / inf] is NaN. *)
Theorem gaussian_weights_shared_node_nan stat (sls : list (list vec3))
    (n_nodes i : nat) (p : vec3) :
  (2 <= length sls)%nat ->
  Forall (fun sl => length sl = n_nodes) sls ->
  (forall sl, In sl sls -> sl !! i = Some p) ->
  exists W,
    gaussian_weights (Array3 sls) (Z.of_nat n_nodes) false stat
    = Py.Ok (Mat W)
    /\ length W = length sls
    /\ (forall j, (j < length sls)%nat ->
                  exists row, W !! j = Some row /\ row !! i = Some NaN)
    /\ np_sum (column (Fin 0) W i) = NaN.
Proof.
  intros Hlen Hrect Hshared.
  assert (Hshape : shape1 sls = n_nodes).
  { destruct sls as [| sl0 sls']; [simpl in Hlen; lia |].
    now inversion Hrect. }
  assert (Hin : (i < n_nodes)%nat).
  { destruct sls as [| sl0 sls']; [simpl in Hlen; lia |].
    inversion Hrect as [| ? ? Hl0 _]; subst.
    eapply lookup_lt_Some. apply Hshared. now left. }
  set (D := distance_loop stat sls).
  assert (HD : forall j row, D !! j = Some row -> row !! i = Some (Fin 0)).
  { intros j row Hrow.
    assert (Hj : (j < length sls)%nat).
    { apply lookup_lt_Some in Hrow. unfold D in Hrow.
      now rewrite distance_loop_length in Hrow. }
    apply lookup_lt_is_Some in Hj as [sl Hsl].
    assert (Hp : sl !! i = Some p).
    { apply Hshared, list_elem_of_In. eapply list_elem_of_lookup_2, Hsl. }
    destruct (distance_loop_entry stat sls n_nodes j i sl p Hrect Hsl Hp)
      as (row1 & Hrow1 & _ & Hent).
    fold D in Hrow1. rewrite Hrow in Hrow1. injection Hrow1 as <-.
    rewrite Hent, (shared_coordinate_rank _ p); [reflexivity | |].
    - unfold column. destruct sls; [simpl in Hlen; lia | discriminate].
    - intros q Hq. unfold column in Hq.
      apply in_map_iff in Hq as (sl' & <- & Hsl').
      apply nth_lookup_Some. now apply Hshared. }
  assert (HDlen : length D = length sls) by apply distance_loop_length.
  assert (HDne : D <> []) by (destruct D; [simpl in HDlen; lia | discriminate]).
  assert (HDshape : (i < shape1 D)%nat).
  { destruct D as [| row0 D'] eqn:HDeq; [contradiction |]. simpl.
    destruct sls as [| sl0 sls'] eqn:Hsls; [simpl in Hlen; lia |].
    assert (Hsl0 : (sl0 :: sls') !! 0%nat = Some sl0) by reflexivity.
    assert (Hp0 : sl0 !! i = Some p) by (apply Hshared; now left).
    destruct (distance_loop_entry stat _ n_nodes 0 i sl0 p Hrect Hsl0 Hp0)
      as (row1 & Hrow1 & Hl1 & _).
    fold D in Hrow1. rewrite HDeq in Hrow1. injection Hrow1 as <-. lia. }
  destruct (normalise_zero_node D i HDne HDshape HD) as [Hsum Hnan].
  exists (normalise D). split; [| split; [| split]].
  - rewrite <- Hshape. apply (gaussian_weights_array3 stat sls false). lia.
  - now rewrite normalise_length.
  - intros j Hj. rewrite <- HDlen in Hj.
    apply lookup_lt_is_Some in Hj as [row Hrow]. eauto.
  - destruct D as [| row0 D'] eqn:HDeq; [contradiction |].
    destruct (Hnan 0%nat row0 eq_refl) as (row' & Hrow' & Hent).
    destruct (normalise (row0 :: D')) as [| r N'] eqn:HN; [discriminate |].
    injection Hrow' as ->. unfold column. simpl.
    rewrite (nth_lookup_Some _ _ _ _ Hent). reflexivity.
Qed.

End WithResampler.
End WeightFacts.

(* --------------------------------------------------------------------- *)
(** ** [_GeneratedBundleDict]: names and keys                             *)
(* --------------------------------------------------------------------- *)

Section GeneratedFacts.
Import Py Bundles.
Context {A : Afd}.

Lemma str_in_elem_of (x : string) (l : list string) :
  str_in x l = true <-> x ∈ l.
Proof.
  unfold str_in. rewrite existsb_exists. split.
  - intros (y & Hy & Heq). apply String.eqb_eq in Heq as ->.
    now apply list_elem_of_In.
  - intros Hx. exists x. split; [now apply list_elem_of_In |].
    apply String.eqb_refl.
Qed.

Lemma has_key_spec (key : string) (g : generated) :
  has_key key g = true <-> is_Some (_dict g !! key).
Proof. unfold has_key. apply bool_decide_eq_true. Qed.

Lemma remove_first_elem_of (x y : string) (l : list string) :
  NoDup l -> (y ∈ remove_first x l <-> y ∈ l /\ y <> x).
Proof.
  induction 1 as [| z l Hz Hnd IH]; simpl.
  - split; [intros H; inversion H | intros [H _]; inversion H].
  - destruct (String.eqb_spec x z) as [-> | Hne].
    + split.
      * intros Hy. split; [now right |]. intros ->. contradiction.
      * intros [Hy Hne]. apply elem_of_cons in Hy as [-> | Hy]; tauto.
    + rewrite !elem_of_cons, IH. split.
      * intros [-> | [Hy Hyx]]; split; auto.
      * intros [[-> | Hy] Hyx]; auto.
Qed.

Lemma remove_first_NoDup (x : string) (l : list string) :
  NoDup l -> NoDup (remove_first x l).
Proof.
  induction 1 as [| z l Hz Hnd IH]; simpl; [constructor |].
  destruct (String.eqb_spec x z); [exact Hnd |].
  constructor; [| exact IH].
  rewrite remove_first_elem_of by exact Hnd. tauto.
Qed.

(** Under the invariant, [len(d)] is the number of keys. *)
Lemma consistent_len (g : generated) :
  consistent g -> __len__ g = size (_dict g).
Proof.
  intros [Hnd Hkeys]. unfold __len__.
  rewrite <- size_dom, <- (size_list_to_set (C := gset string)) by exact Hnd.
  f_equal. apply set_eq. intros k.
  rewrite elem_of_list_to_set, elem_of_dom. apply Hkeys.
Qed.

(** [resample_roi] leaves the names alone and keeps the set of keys. *)
Lemma resample_roi_keys (key : string) (g g' : generated) r :
  resample_roi key g = (r, g') ->
  bundle_names g' = bundle_names g /\ dom (_dict g') = dom (_dict g).
Proof.
  unfold resample_roi. destruct (truthy (resample_to g)).
  - destruct (_dict g !! key) as [[d | v] |] eqn:Hk;
      try (intros [= _ <-]; now split).
    destruct (match resampled d with Some r0 => _ | None => _ end);
      [| intros [= _ <-]; now split].
    destruct (resample_def (resample_to g) d);
      intros [= _ <-]; [| now split].
    split; [reflexivity |]. simpl.
    rewrite dom_insert_L. apply elem_of_dom_2 in Hk.
    apply subseteq_union_1_L, singleton_subseteq_l, Hk.
  - intros [= _ <-]. now split.
Qed.

Lemma setitem_state (key : string) (item : entry image) (g g' : generated) r :
  __setitem__ key item g = (r, g') ->
  bundle_names g' = bundle_names g ++ [key]
  /\ dom (_dict g') = {[key]} ∪ dom (_dict g).
Proof.
  unfold __setitem__, mbind, M_bind, Py.mbind, modify. simpl.
  intros H. apply resample_roi_keys in H as [Hn Hd]. simpl in *.
  split; [exact Hn |]. rewrite Hd. apply dom_insert_L.
Qed.

(** C10, where the code departs from it.  [__setitem__] on a key that is
    already present appends the key to [bundle_names] once more: starting
    from a dictionary that satisfies the invariant, [len(d)] ends one above
    the number of keys and [bundle_names] holds a duplicate, whether or not
    the resampling that follows raises. *)
Theorem setitem_present_breaks_len (key : string) (item : entry image)
    (g g' : generated) r :
  consistent g ->
  is_Some (_dict g !! key) ->
  __setitem__ key item g = (r, g') ->
  __len__ g' = S (size (_dict g'))
  /\ ~ NoDup (bundle_names g')
  /\ ~ consistent g'.
Proof.
  intros Hc Hk Hset.
  destruct (setitem_state key item g g' r Hset) as [Hn Hd].
  assert (Hlen : __len__ g' = S (size (_dict g'))).
  { unfold __len__. rewrite Hn, length_app. simpl.
    fold (__len__ g). rewrite (consistent_len g Hc).
    rewrite <- !size_dom, Hd.
    rewrite (subseteq_union_1_L {[key]} (dom (_dict g))); [lia |].
    apply singleton_subseteq_l, elem_of_dom, Hk. }
  assert (Hdup : ~ NoDup (bundle_names g')).
  { rewrite Hn. intros Hnd. apply NoDup_app in Hnd as (_ & Hdisj & _).
    apply (Hdisj key); [| now left].
    apply Hc. exact Hk. }
  split; [exact Hlen |]. split; [exact Hdup |].
  intros [Hnd _]. contradiction.
Qed.

(** On a key that is not there yet, [__setitem__] keeps the invariant. *)
Lemma setitem_fresh_consistent (key : string) (item : entry image)
    (g g' : generated) r :
  consistent g ->
  _dict g !! key = None ->
  __setitem__ key item g = (r, g') ->
  consistent g'.
Proof.
  intros [Hnd Hkeys] Hk Hset.
  destruct (setitem_state key item g g' r Hset) as [Hn Hd].
  assert (Hfresh : key ∉ bundle_names g).
  { rewrite Hkeys, Hk. now intros [? ?]. }
  split.
  - rewrite Hn. apply NoDup_app. repeat split.
    + exact Hnd.
    + intros x Hx Hx'. apply list_elem_of_singleton in Hx' as ->.
      contradiction.
    + apply NoDup_singleton.
  - intros k. rewrite Hn, elem_of_app, list_elem_of_singleton.
    rewrite <- elem_of_dom, Hd, elem_of_union, elem_of_singleton.
    rewrite elem_of_dom, Hkeys. tauto.
Qed.

(** [__delitem__] keeps the invariant: it removes the key from both sides
    or, when the key is unknown, raises [KeyError] and changes nothing. *)
Lemma delitem_consistent (key : string) (g : generated) :
  consistent g ->
  (_dict g !! key = None
   /\ __delitem__ key g = (Raise (KeyError (key +:+ " not found")), g))
  \/ (is_Some (_dict g !! key)
      /\ exists g', __delitem__ key g = (Ok tt, g')
                    /\ consistent g'
                    /\ _dict g' = delete key (_dict g)
                    /\ __len__ g' = pred (__len__ g)).
Proof.
  intros [Hnd Hkeys]. unfold __delitem__.
  destruct (has_key key g) eqn:Hhas.
  - right. apply has_key_spec in Hhas. split; [exact Hhas |]. simpl.
    assert (Hin : str_in key (bundle_names g) = true).
    { apply str_in_elem_of, Hkeys, Hhas. }
    cbn [set_dict bundle_names]. rewrite Hin.
    eexists. split; [reflexivity |].
    assert (Hc' : consistent
                    (set_names (remove_first key) (set_dict (delete key) g))).
    { split; simpl.
      - now apply remove_first_NoDup.
      - intros k. rewrite remove_first_elem_of by exact Hnd.
        rewrite Hkeys. destruct (decide (k = key)) as [-> | Hne].
        + rewrite lookup_delete_eq. split; [tauto | now intros [? ?]].
        + rewrite lookup_delete_ne by auto. tauto. }
    split; [exact Hc' |]. split; [reflexivity |].
    rewrite (consistent_len _ Hc'), (consistent_len g (conj Hnd Hkeys)).
    simpl. now rewrite map_size_delete_Some by exact Hhas.
  - left. assert (Hnone : _dict g !! key = None).
    { apply eq_None_not_Some. rewrite <- has_key_spec, Hhas. discriminate. }
    split; [exact Hnone |].
    assert (Hin : str_in key (bundle_names g) = false).
    { apply not_true_is_false. rewrite str_in_elem_of, Hkeys, Hnone.
      now intros [? ?]. }
    now rewrite Hin.
Qed.

End GeneratedFacts.

(* --------------------------------------------------------------------- *)
(** ** [BundleDict]: loading, generating, looking up                      *)
(* --------------------------------------------------------------------- *)

Lemma result_bind_Ok {X Y} (r : Py.result X) (k : X -> Py.result Y) (y : Y) :
  (x ← r; k x) = Py.Ok y -> exists x, r = Py.Ok x /\ k x = Py.Ok y.
Proof. unfold_m. destruct r as [x | e]; [eauto | discriminate]. Qed.

Section BundleDictFacts.
Import Py Bundles.
Context {A : Afd}.

Lemma index_Ok (t : gmap string (value image)) (k : string) v :
  index t k = Ok v <-> t !! k = Some v.
Proof.
  unfold index. destruct (t !! k); split; intros H; congruence.
Qed.

Lemma get_truthy_false_of_missing (t : gmap string (value image)) k :
  t !! k = None -> get_truthy t k = false.
Proof. unfold get_truthy. now intros ->. Qed.

(** *** [load_templates] *)


Lemma alias_frame (dst src : string) (b b' : bundle_dict) r :
  alias dst src b = (r, b') ->
  base b' = base b /\ seg_algo b' = seg_algo b
  /\ templates_loaded b' = templates_loaded b /\ reads b' = reads b.
Proof.
  unfold alias. destruct (index (templates b) src);
    intros Heq; injection Heq as _ <-; auto.
Qed.

(** Whatever it returns, [load_templates] touches only the templates, the
    flag and the count of reads, and it reads at most once. *)
Lemma load_templates_frame (b b' : bundle_dict) r :
  load_templates b = (r, b') ->
  base b' = base b /\ seg_algo b' = seg_algo b
  /\ (reads b <= reads b' <= S (reads b))%nat
  /\ (r = Ok tt -> templates_loaded b' = true).
Proof.
  unfold load_templates. unfold_m.
  destruct (String.eqb (seg_algo b) "afq").
  - simpl.
    repeat
      (match goal with
       | |- context [alias ?d ?s ?x] =>
           let r := fresh "r" in
           let y := fresh "b" in
           let H := fresh "H" in
           destruct (alias d s x) as [r y] eqn:H;
           apply alias_frame in H as (? & ? & ? & ?);
           destruct r; simpl
       end);
      intros Heq; injection Heq as <- <-; simpl in *;
      repeat split; try congruence; try lia.
  - destruct (startswith "reco" (seg_algo b)); simpl.
    + destruct (endswith "80" (seg_algo b)); simpl;
        intros Heq; injection Heq as <- <-; simpl;
        repeat split; auto; lia.
    + intros Heq; injection Heq as <- <-; simpl.
      repeat split; auto; try lia; discriminate.
Qed.




Lemma ensure_loaded_frame (b b1 : bundle_dict) r :
  ensure_loaded b = (r, b1) ->
  base b1 = base b /\ seg_algo b1 = seg_algo b
  /\ (reads b <= reads b1 <= S (reads b))%nat
  /\ (templates_loaded b = true -> b1 = b /\ r = Ok tt)
  /\ (r = Ok tt -> templates_loaded b1 = true).
Proof.
  unfold ensure_loaded. unfold_m. destruct (templates_loaded b) eqn:Hl.
  - intros Heq. injection Heq as <- <-. repeat split; auto; lia.
  - intros Hload. apply load_templates_frame in Hload as (? & ? & ? & ?).
    repeat split; auto; try lia; discriminate.
Qed.


(** *** [gen] *)

Lemma gen_unfold (bundle_name : string) (b : bundle_dict) :
  gen bundle_name b
  = match ensure_loaded b with
    | (Ok _, b1) =>
        if String.eqb (seg_algo b1) "afq"
        then match afq_definition (templates b1) bundle_name with
             | Ok d =>
                 lift (resample_roi bundle_name)
                   (set_base (set_dict (insert bundle_name (Def d))) b1)
             | Raise e => (Raise e, b1)
             end
        else if startswith "reco" (seg_algo b1)
        then match index (templates b1) bundle_name with
             | Ok v =>
                 (Ok tt,
                  set_base (set_dict (insert bundle_name (Atlas v))) b1)
             | Raise e => (Raise e, b1)
             end
        else (Ok tt, b1)
    | (Raise e, b1) => (Raise e, b1)
    end.
Proof.
  unfold gen. unfold_m. destruct (ensure_loaded b) as [[[] | e] b1];
    [| reflexivity].
  destruct (String.eqb (seg_algo b1) "afq").
  - now destruct (afq_definition (templates b1) bundle_name).
  - destruct (startswith "reco" (seg_algo b1)); [| reflexivity].
    now destruct (index (templates b1) bundle_name).
Qed.

(** What the definition built by [gen] looks like: the ['end'] field is
    always [None], and the ['start'] field holds the [_end] template when
    there is one. *)
Lemma afq_definition_fields (t : gmap string (value image))
    (bundle_name : string) (d : bundle_def image) :
  afq_definition t bundle_name = Ok d ->
  end_ d = Some VNone
  /\ is_Some (include d)
  /\ resampled d = None
  /\ (get_truthy t (bundle_name +:+ "_end") = true ->
      start d = t !! (bundle_name +:+ "_end"))
  /\ (get_truthy t (bundle_name +:+ "_end") = false ->
      get_truthy t (bundle_name +:+ "_start") = true ->
      start d = t !! (bundle_name +:+ "_start"))
  /\ (get_truthy t (bundle_name +:+ "_end") = false ->
      get_truthy t (bundle_name +:+ "_start") = false ->
      start d = Some VNone).
Proof.
  unfold afq_definition. destruct (roi_names bundle_name) as [r1 r2].
  destruct (get_truthy t r1 && get_truthy t r2); [| discriminate].
  intros H.
  apply result_bind_Ok in H as (v1 & _ & H).
  apply result_bind_Ok in H as (v2 & _ & H).
  apply result_bind_Ok in H as (inc & _ & H).
  apply result_bind_Ok in H as (exc & _ & H).
  apply result_bind_Ok in H as ([inc' mid] & _ & H).
  apply result_bind_Ok in H as (pm & _ & H).
  apply result_bind_Ok in H as (st1 & Hst1 & H).
  apply result_bind_Ok in H as (st2 & Hst2 & H).
  injection H as <-. simpl.
  split; [reflexivity |]. split; [eauto |]. split; [reflexivity |].
  destruct (get_truthy t (bundle_name +:+ "_end")).
  - apply index_Ok in Hst2. rewrite Hst2.
    repeat split; intros; congruence.
  - injection Hst2 as <-.
    destruct (get_truthy t (bundle_name +:+ "_start")).
    + apply index_Ok in Hst1. rewrite Hst1.
      repeat split; intros; congruence.
    + injection Hst1 as <-. repeat split; intros; congruence.
Qed.

Lemma afq_definition_missing (t : gmap string (value image))
    (bundle_name : string) :
  get_truthy t (fst (roi_names bundle_name)) = false
  \/ get_truthy t (snd (roi_names bundle_name)) = false ->
  afq_definition t bundle_name
  = Raise (ValueError (bundle_name +:+ " is not in AFQ templates")).
Proof.
  intros H. unfold afq_definition.
  destruct (roi_names bundle_name) as [r1 r2]. simpl in H.
  destruct H as [-> | ->]; [reflexivity |].
  now rewrite andb_false_r.
Qed.

(** Resampling the definition that [gen] has just stored never raises; it
    rewrites that entry alone and leaves ['end'] at [None]. *)
Lemma resample_roi_generated (bundle_name : string) (d : bundle_def image)
    (g : generated) :
  is_Some (include d) -> resampled d = None ->
  exists d',
    resample_roi bundle_name (set_dict (insert bundle_name (Def d)) g)
    = (Ok tt, set_dict (insert bundle_name (Def d')) g)
    /\ (end_ d = Some VNone -> end_ d' = Some VNone)
    /\ (truthy (resample_to g) = false -> d' = d).
Proof.
  intros [inc Hinc] Hres. unfold resample_roi. simpl.
  destruct (truthy (resample_to g)).
  - rewrite lookup_insert_eq, Hres. unfold resample_def. rewrite Hinc.
    eexists. split; [| split].
    + unfold set_dict. simpl. now rewrite insert_insert_eq.
    + simpl. now intros ->.
    + discriminate.
  - exists d. auto.
Qed.

Lemma lift_base {X} (m : M generated X) (b b' : bundle_dict) r :
  lift m b = (r, b') ->
  m (base b) = (r, base b')
  /\ seg_algo b' = seg_algo b /\ templates_loaded b' = templates_loaded b
  /\ templates b' = templates b /\ reads b' = reads b.
Proof.
  unfold lift. destruct (m (base b)) as [r0 g].
  intros Heq. injection Heq as <- <-. simpl. auto.
Qed.

Lemma lift_getitem (key : string) (b : bundle_dict) :
  lift (generated_getitem key) b
  = (match _dict (base b) !! key with
     | Some e => Ok e
     | None => Raise (KeyError key)
     end, b).
Proof.
  unfold lift, generated_getitem. destruct b as [g sa tl t n]. simpl.
  now destruct (_dict g !! key).
Qed.

(** C6, where the code departs from it.  Under ["afq"], whenever [gen]
    stores a definition its ['end'] field is [None], also when the
    templates hold an entry named [bundle_name + "_end"]: line 274 assigns
    that template to [start].  (Without resampling the ['start'] field is
    then that [_end] template.) *)
Theorem gen_end_field_always_None (bundle_name : string)
    (b b' : bundle_dict) :
  seg_algo b = "afq" ->
  gen bundle_name b = (Ok tt, b') ->
  exists d,
    _dict (base b') !! bundle_name = Some (Def d)
    /\ end_ d = Some VNone
    /\ (truthy (resample_to (base b)) = false ->
        get_truthy (templates b') (bundle_name +:+ "_end") = true ->
        start d = templates b' !! (bundle_name +:+ "_end")).
Proof.
  intros Hafq. rewrite gen_unfold.
  destruct (ensure_loaded b) as [[[] | e] b1] eqn:Hload; [| discriminate].
  apply ensure_loaded_frame in Hload as (Hbase & Hseg & _).
  rewrite Hseg, Hafq. simpl.
  destruct (afq_definition (templates b1) bundle_name) as [d0 | e] eqn:Hdef;
    [| discriminate].
  apply afq_definition_fields in Hdef as (Hend & Hinc & Hres & Hstart & _).
  destruct (resample_roi_generated bundle_name d0 (base b1) Hinc Hres)
    as (d' & Hroi & Hend' & Hsame).
  unfold lift. simpl. rewrite Hroi.
  intros Heq. injection Heq as <-. simpl.
  exists d'. rewrite lookup_insert_eq.
  split; [reflexivity |]. split; [auto |].
  intros Hr Ht. rewrite Hbase in Hsame. rewrite (Hsame Hr). auto.
Qed.

(** C7.  Under ["afq"], once the templates are loaded (they were, or
    [gen] loads them first), a bundle one of whose two waypoint ROIs is
    missing from them makes [gen] raise [ValueError] saying the bundle is
    not in AFQ templates, with the internal dictionary as it was; and
    [__getitem__] on a name that has no entry raises the same. *)
Theorem gen_missing_roi_raises (bundle_name : string) (b b1 : bundle_dict) :
  seg_algo b = "afq" ->
  ensure_loaded b = (Ok tt, b1) ->
  templates b1 !! fst (roi_names bundle_name) = None
  \/ templates b1 !! snd (roi_names bundle_name) = None ->
  let err := ValueError (bundle_name +:+ " is not in AFQ templates") in
  gen bundle_name b = (Raise err, b1)
  /\ _dict (base b1) = _dict (base b)
  /\ (_dict (base b) !! bundle_name = None ->
      __getitem__ bundle_name b = (Raise err, b1)
      /\ _dict (base b1) !! bundle_name = None).
Proof.
  intros Hafq Hload Hmiss err.
  assert (Hgen : gen bundle_name b = (Raise err, b1)).
  { rewrite gen_unfold, Hload.
    apply ensure_loaded_frame in Hload as (_ & Hseg & _).
    rewrite Hseg, Hafq. simpl.
    rewrite afq_definition_missing; [reflexivity |].
    destruct Hmiss as [H | H]; [left | right];
      now apply get_truthy_false_of_missing. }
  apply ensure_loaded_frame in Hload as (Hbase & _).
  split; [exact Hgen |]. split; [now rewrite Hbase |].
  intros Hnone. split; [| now rewrite Hbase].
  unfold __getitem__. unfold_m.
  assert (Hk : has_key bundle_name (base b) = false).
  { unfold has_key. apply bool_decide_eq_false. rewrite Hnone.
    now intros [? ?]. }
  now rewrite Hk, Hgen.
Qed.

(** *** Laziness and caching *)

(** [gen] writes the entry of its bundle and no other, reads the
    templates only if they are not loaded yet, and leaves the internal
    dictionary as it was when it raises. *)
Lemma gen_frame (bundle_name : string) (b b' : bundle_dict) r :
  gen bundle_name b = (r, b') ->
  seg_algo b' = seg_algo b
  /\ bundle_names (base b') = bundle_names (base b)
  /\ (forall k, k <> bundle_name ->
                _dict (base b') !! k = _dict (base b) !! k)
  /\ (reads b <= reads b' <= S (reads b))%nat
  /\ (templates_loaded b = true ->
      reads b' = reads b /\ templates b' = templates b
      /\ templates_loaded b' = true)
  /\ (r = Ok tt -> templates_loaded b' = true)
  /\ (r <> Ok tt -> _dict (base b') = _dict (base b)).
Proof.
  rewrite gen_unfold.
  destruct (ensure_loaded b) as [r1 b1] eqn:Hload.
  apply ensure_loaded_frame in Hload as (Hbase & Hseg & Hreads & Hwas & Hnow).
  assert (Hkeep : templates_loaded b = true ->
                  reads b1 = reads b /\ templates b1 = templates b
                  /\ templates_loaded b1 = true).
  { intros Hl. destruct (Hwas Hl) as [-> _]. auto. }
  assert (Hstore : forall e0 r0,
            (Ok tt, set_base (set_dict (insert bundle_name e0)) b1) = (r0, b')
            -> r1 = Ok tt ->
            seg_algo b' = seg_algo b
            /\ bundle_names (base b') = bundle_names (base b)
            /\ (forall k, k <> bundle_name ->
                          _dict (base b') !! k = _dict (base b) !! k)
            /\ (reads b <= reads b' <= S (reads b))%nat
            /\ (templates_loaded b = true ->
                reads b' = reads b /\ templates b' = templates b
                /\ templates_loaded b' = true)
            /\ (r0 = Ok tt -> templates_loaded b' = true)
            /\ (r0 <> Ok tt -> _dict (base b') = _dict (base b))).
  { intros e0 r0 Heq Hr1. injection Heq as <- <-. simpl. rewrite Hbase.
    split; [exact Hseg |]. split; [reflexivity |].
    split; [intros k Hk; now rewrite lookup_insert_ne by auto |].
    split; [exact Hreads |]. split; [exact Hkeep |].
    split; [intros _; exact (Hnow Hr1) | now intros []]. }
  assert (Hsame : forall r0,
            (r0, b1) = (r, b') -> (r0 = Ok tt -> r1 = Ok tt) ->
            seg_algo b' = seg_algo b
            /\ bundle_names (base b') = bundle_names (base b)
            /\ (forall k, k <> bundle_name ->
                          _dict (base b') !! k = _dict (base b) !! k)
            /\ (reads b <= reads b' <= S (reads b))%nat
            /\ (templates_loaded b = true ->
                reads b' = reads b /\ templates b' = templates b
                /\ templates_loaded b' = true)
            /\ (r = Ok tt -> templates_loaded b' = true)
            /\ (r <> Ok tt -> _dict (base b') = _dict (base b))).
  { intros r0 Heq Hr1. injection Heq as <- <-. rewrite Hbase.
    split; [exact Hseg |]. split; [reflexivity |].
    split; [reflexivity |]. split; [exact Hreads |]. split; [exact Hkeep |].
    split; [intros H; exact (Hnow (Hr1 H)) | reflexivity]. }
  destruct r1 as [[] | e]; [| intros Heq; apply (Hsame _ Heq); discriminate].
  destruct (String.eqb (seg_algo b1) "afq").
  - destruct (afq_definition (templates b1) bundle_name) as [d0 | e] eqn:Hdef.
    + apply afq_definition_fields in Hdef as (_ & Hinc & Hres & _).
      destruct (resample_roi_generated bundle_name d0 (base b1) Hinc Hres)
        as (d' & Hroi & _).
      unfold lift. simpl. rewrite Hroi. intros Heq.
      apply (Hstore (Def d') r); [| reflexivity].
      rewrite <- Heq. reflexivity.
    + intros Heq. apply (Hsame _ Heq). discriminate.
  - destruct (startswith "reco" (seg_algo b1)).
    + destruct (index (templates b1) bundle_name) as [v | e]; intros Heq.
      * now apply (Hstore (Atlas v) r).
      * apply (Hsame _ Heq). discriminate.
    + intros Heq. now apply (Hsame _ Heq).
Qed.


Lemma has_key_false (key : string) (g : generated) :
  has_key key g = false <-> _dict g !! key = None.
Proof.
  unfold has_key. rewrite bool_decide_eq_false, eq_None_not_Some. tauto.
Qed.



Lemma add_names_ok (names : list string) (g : generated) :
  add_names names g = (Ok tt, set_names (fun l => l ++ names) g).
Proof.
  revert g. induction names as [| n names IH]; intros g; simpl.
  - unfold_m. destruct g. unfold set_names. simpl. now rewrite app_nil_r.
  - unfold add_bundle_name. unfold_m. rewrite IH.
    unfold set_names. simpl. now rewrite <- app_assoc.
Qed.








End BundleDictFacts.

(* --------------------------------------------------------------------- *)
(** ** The theorems at concrete inputs                                    *)
(* --------------------------------------------------------------------- *)

Section TrackingInstances.
Import Tracking Examples.

Lemma line_tracker_contract : tracker_contract (T := line_tracker).
Proof.
  intros s d buf w. simpl. unfold line_fill, line_steps.
  split; [now rewrite !length_insert |].
  intros Hne. destruct buf as [| b buf]; [contradiction |].
  split; [simpl length; lia | reflexivity].
Qed.

(** On the line, each seed yields the three points around it. *)
Example line_run :
  _verbose_generate_tractogram (T := line_tracker) line_config tt
  = Py.Ok line_yields.
Proof. reflexivity. Qed.

(** C3 as stated fails: with [return_all] set and no initial direction,
    the seed alone is yielded, one point where [min_length] is 10. *)
Lemma seed_only_yield_below_min_length :
  _verbose_generate_tractogram (T := blind_tracker) blind_config tt
  = Py.Ok [blind_yield]
  /\ ~ within_lengths (T := blind_tracker) blind_config blind_yield.
Proof.
  split; [vm_compute; reflexivity |].
  unfold within_lengths. simpl. lia.
Qed.

Lemma yields_filtered_or_seed_only_witness :
  (0 <= max_length line_config + 1)%Z
  /\ exists items,
       _verbose_generate_tractogram (T := line_tracker) line_config tt
       = Py.Ok items
       /\ Forall
            (fun it =>
               within_lengths line_config it
               \/ (return_all line_config = true
                   /\ exists s0 w1 w2,
                        In s0 (seeds line_config)
                        /\ initial_direction (to_voxel s0) w1 = ([], w2)
                        /\ points it = [to_voxel s0]))
            items.
Proof.
  split; [simpl; lia |].
  apply (yields_filtered_or_seed_only (T := line_tracker) line_config tt).
  simpl; lia.
Defined.

Lemma yielded_streamline_is_stitch_witness :
  (tracker_contract (T := line_tracker)
   /\ _verbose_generate_tractogram (T := line_tracker) line_config tt
      = Py.Ok line_yields)
  /\ Forall
       (fun it =>
          (return_all line_config = true
           /\ exists s0 w1 w2,
                In s0 (seeds line_config)
                /\ initial_direction (to_voxel s0) w1 = ([], w2)
                /\ it = emit line_config [to_voxel s0] (to_voxel s0))
          \/ (exists s0 first_step F B w0 stepsF stF F1 w1 stepsB stB B1 w2,
                In s0 (seeds line_config)
                /\ run_tracker (to_voxel s0) first_step F w0
                   = (stepsF, stF, F1, w1)
                /\ run_tracker (to_voxel s0) (neg first_step) B w1
                   = (stepsB, stB, B1, w2)
                /\ accepted line_config stF = true
                /\ accepted line_config stB = true
                /\ it = emit line_config (stitch stepsF stepsB F1 B1)
                          (to_voxel s0)
                /\ stitched (to_voxel s0) (Z.to_nat stepsF) (Z.to_nat stepsB)
                     F1 B1 (points it)))
       line_yields
  /\ forall s0,
       In s0 (seeds line_config) ->
       exists w0 dirs w1,
         initial_direction (to_voxel s0) w0 = (dirs, w1)
         /\ (dirs = [] -> return_all line_config = true ->
             In (emit line_config [to_voxel s0] (to_voxel s0)) line_yields)
         /\ forall first_step,
              In first_step (limit_cross line_config dirs) ->
              exists F B w2 stepsF stF F1 w3 stepsB stB B1 w4,
                allocated line_config F B
                /\ run_tracker (to_voxel s0) first_step F w2
                   = (stepsF, stF, F1, w3)
                /\ run_tracker (to_voxel s0) (neg first_step) B w3
                   = (stepsB, stB, B1, w4)
                /\ (accepted line_config stF = true ->
                    accepted line_config stB = true ->
                    within_lengths line_config
                      (emit line_config (stitch stepsF stepsB F1 B1)
                         (to_voxel s0)) ->
                    In (emit line_config (stitch stepsF stepsB F1 B1)
                          (to_voxel s0))
                      line_yields).
Proof.
  split; [split; [exact line_tracker_contract | reflexivity] |].
  exact (yielded_streamline_is_stitch (T := line_tracker) line_config tt
           line_yields line_tracker_contract line_run).
Defined.

End TrackingInstances.

Section NumericInstances.
Import Numeric Examples.
Local Open Scope R_scope.
Existing Instance exact_rank.

Lemma corner_cov :
  cov (column zero3 corner_bundle 0)
  = M3 3 (-1) (-1) (-1) 3 (-1) (-1) (-1) 3.
Proof.
  unfold cov, cov_entry, mean, column, corner_bundle. simpl. f_equal; lra.
Qed.

Lemma corner_center : center_at mean corner_bundle 0 = V3 1 1 1.
Proof.
  unfold center_at, mean, column, corner_bundle. simpl. f_equal; lra.
Qed.

Lemma exact_full_rank (m : mat3) :
  full_rank (LA := exact_rank) m = true <-> det3 m <> 0.
Proof.
  unfold full_rank. cbn [matrix_rank exact_rank].
  unfold exact_matrix_rank, is_zero.
  destruct (Req_dec_T (det3 m) 0) as [Hz | Hne]; cbn [negb].
  - split; [| contradiction].
    destruct (existsb _ (minors2 m)); [discriminate |].
    destruct (existsb _ (entries m)); discriminate.
  - split; [intros _; exact Hne | reflexivity].
Qed.

Lemma corner_forms :
  let X := column zero3 corner_bundle 0 in
  let d := sub3 (center_at mean corner_bundle 0) (V3 0 0 0) in
  det3 (cov X) <> 0
  /\ quad d (inv3 (cov X)) = 3
  /\ quad d (inv3 (triu (cov X))) = 37 / 27.
Proof.
  intros X d.
  assert (Hcov : cov X = M3 3 (-1) (-1) (-1) 3 (-1) (-1) (-1) 3)
    by apply corner_cov.
  assert (Hd : d = V3 1 1 1).
  { unfold d. rewrite corner_center. unfold sub3. simpl. f_equal; lra. }
  rewrite Hcov, Hd. split; [unfold det3; simpl; lra |].
  split; unfold quad, vecmat, inv3, triu, det3; simpl; lra.
Qed.

(** The four corner streamlines, counted with the exact rank: the
    covariance [[3,-1,-1],[-1,3,-1],[-1,-1,3]] can be inverted and the
    Mahalanobis distance of the first streamline is [sqrt 3], but the
    entry returned is [sqrt (37/27)], the form taken with the inverse of
    the upper triangle. *)
Example corner_bundle_distance :
  let X := column zero3 corner_bundle 0 in
  let d := sub3 (center_at mean corner_bundle 0) (V3 0 0 0) in
  np_sqrt (quad d (inv3 (cov X))) = Fin (sqrt 3)
  /\ exists W row,
       gaussian_weights (RS := keep_points) (Array3 corner_bundle) 1 true mean
       = Py.Ok (Mat W)
       /\ W !! 0%nat = Some row
       /\ row !! 0%nat = Some (Fin (sqrt (37 / 27)))
       /\ sqrt (37 / 27) <> sqrt 3.
Proof.
  intros X d. destruct corner_forms as (Hdet & Hq & Hqt).
  fold X d in Hdet, Hq, Hqt.
  assert (Htri : full_rank (triu (cov X)) = true).
  { apply exact_full_rank. now apply cov_det_triu. }
  split.
  { rewrite Hq. unfold np_sqrt.
    now rewrite (proj2 (is_neg_false 3)) by lra. }
  assert (Hrect : Forall (fun sl : list vec3 => length sl = 1%nat)
                    corner_bundle)
    by (repeat constructor).
  destruct (distance_loop_entry mean corner_bundle 1 0 0 [V3 0 0 0] (V3 0 0 0)
              Hrect eq_refl eq_refl) as (row & Hrow & _ & Hent).
  fold X d in Hent. rewrite Htri, Hqt in Hent.
  exists (distance_loop mean corner_bundle), row.
  split; [apply (gaussian_weights_array3 mean corner_bundle true);
          simpl; lia |].
  split; [exact Hrow |]. split.
  - rewrite Hent. unfold np_sqrt.
    now rewrite (proj2 (is_neg_false (37 / 27))) by lra.
  - intros Heq. apply sqrt_inj in Heq; lra.
Qed.

Lemma gaussian_weights_not_mahalanobis_witness :
  ((2 <= length corner_bundle)%nat
   /\ Forall (fun sl : list vec3 => length sl = 1%nat) corner_bundle
   /\ corner_bundle !! 0%nat = Some [V3 0 0 0]
   /\ [V3 0 0 0] !! 0%nat = Some (V3 0 0 0)
   /\ det3 (cov (column zero3 corner_bundle 0)) <> 0
   /\ 0 < quad (sub3 (center_at mean corner_bundle 0) (V3 0 0 0))
            (inv3 (cov (column zero3 corner_bundle 0)))
   /\ quad (sub3 (center_at mean corner_bundle 0) (V3 0 0 0))
        (inv3 (triu (cov (column zero3 corner_bundle 0))))
      <> quad (sub3 (center_at mean corner_bundle 0) (V3 0 0 0))
           (inv3 (cov (column zero3 corner_bundle 0))))
  /\ matmul (cov (column zero3 corner_bundle 0))
       (inv3 (cov (column zero3 corner_bundle 0))) = ident3
  /\ exists W row x,
       gaussian_weights (RS := keep_points) (Array3 corner_bundle)
         (Z.of_nat 1) true mean
       = Py.Ok (Mat W)
       /\ W !! 0%nat = Some row
       /\ row !! 0%nat = Some x
       /\ x = (if full_rank (triu (cov (column zero3 corner_bundle 0)))
               then np_sqrt
                      (quad (sub3 (center_at mean corner_bundle 0) (V3 0 0 0))
                         (inv3 (triu (cov (column zero3 corner_bundle 0)))))
               else Fin 0)
       /\ x <> np_sqrt
                 (quad (sub3 (center_at mean corner_bundle 0) (V3 0 0 0))
                    (inv3 (cov (column zero3 corner_bundle 0)))).
Proof.
  assert (H1 : (2 <= length corner_bundle)%nat) by (simpl; lia).
  assert (H2 : Forall (fun sl : list vec3 => length sl = 1%nat) corner_bundle)
    by (repeat constructor).
  assert (H3 : corner_bundle !! 0%nat = Some [V3 0 0 0]) by reflexivity.
  assert (H4 : [V3 0 0 0] !! 0%nat = Some (V3 0 0 0)) by reflexivity.
  destruct corner_forms as (H5 & Hq & Hqt).
  assert (H6 : 0 < quad (sub3 (center_at mean corner_bundle 0) (V3 0 0 0))
                     (inv3 (cov (column zero3 corner_bundle 0))))
    by (rewrite Hq; lra).
  assert (H7 : quad (sub3 (center_at mean corner_bundle 0) (V3 0 0 0))
                 (inv3 (triu (cov (column zero3 corner_bundle 0))))
               <> quad (sub3 (center_at mean corner_bundle 0) (V3 0 0 0))
                    (inv3 (cov (column zero3 corner_bundle 0))))
    by (rewrite Hq, Hqt; lra).
  split; [auto 10 |].
  exact (gaussian_weights_not_mahalanobis (LA := exact_rank)
           (RS := keep_points) mean corner_bundle 1 0 0 [V3 0 0 0] (V3 0 0 0)
           H1 H2 H3 H4 H5 H6 H7).
Defined.

Lemma gaussian_weights_shared_node_nan_witness :
  ((2 <= length meeting_bundle)%nat
   /\ Forall (fun sl : list vec3 => length sl = 2%nat) meeting_bundle
   /\ (forall sl, In sl meeting_bundle -> sl !! 1%nat = Some (V3 1 2 3)))
  /\ exists W,
       gaussian_weights (RS := keep_points) (Array3 meeting_bundle)
         (Z.of_nat 2) false mean
       = Py.Ok (Mat W)
       /\ length W = length meeting_bundle
       /\ (forall j, (j < length meeting_bundle)%nat ->
                     exists row, W !! j = Some row /\ row !! 1%nat = Some NaN)
       /\ np_sum (column (Fin 0) W 1) = NaN.
Proof.
  assert (H1 : (2 <= length meeting_bundle)%nat) by (simpl; lia).
  assert (H2 : Forall (fun sl : list vec3 => length sl = 2%nat) meeting_bundle)
    by (repeat constructor).
  assert (H3 : forall sl, In sl meeting_bundle ->
                          sl !! 1%nat = Some (V3 1 2 3)).
  { intros sl [<- | [<- | []]]; reflexivity. }
  split; [auto |].
  exact (gaussian_weights_shared_node_nan (RS := keep_points)
           mean meeting_bundle 2 1 (V3 1 2 3) H1 H2 H3).
Defined.

Lemma gaussian_weights_single_resamples_first_witness :
  bundle_len lone_bundle = 1%nat
  /\ gaussian_weights (RS := rows_as_points) lone_bundle 100 false mean
     = if needs_resample lone_bundle 100
       then match set_number_of_points (Resampler := rows_as_points)
                    lone_bundle 100 with
            | Py.Ok _ => Py.Ok (Vec [if false then NaN else Fin 1])
            | Py.Raise e => Py.Raise e
            end
       else Py.Ok (Vec [if false then NaN else Fin 1]).
Proof.
  assert (H1 : bundle_len lone_bundle = 1%nat) by reflexivity.
  split; [exact H1 |].
  exact (gaussian_weights_single_resamples_first (RS := rows_as_points)
           lone_bundle 100 false mean H1).
Defined.

(** One streamline of two nodes in a three-axis array: with
    [n_points = 2] it gets the weight 1; with the default [n_points] the
    array goes to the resampler first, and what the resampler raises is
    what [gaussian_weights] raises. *)
Example lone_bundle_weights :
  gaussian_weights (RS := rows_as_points) lone_bundle 2 false mean
  = Py.Ok (Vec [Fin 1])
  /\ gaussian_weights (RS := rows_as_points) lone_bundle 100 false mean
     = Py.Raise (Py.ValueError "All streamlines must have at least 2 points.").
Proof. split; reflexivity. Qed.

(** C8 as stated fails: on a sphere without vertices [num_batches = -1]
    asks for zero batches and the batch size divides by zero, where
    [num_batches = 1] returns an array (with no entry per voxel). *)
Lemma tensor_odf_no_vertices_raises :
  tensor_odf unit_volume [] (-1) = Py.Raise Py.ZeroDivisionError
  /\ tensor_odf unit_volume [] 1
     = Py.Ok (tensor_odf_unbatched unit_volume [])
  /\ tensor_odf unit_volume [] (-1) <> tensor_odf unit_volume [] 1.
Proof.
  assert (H1 : tensor_odf unit_volume [] (-1) = Py.Raise Py.ZeroDivisionError)
    by reflexivity.
  assert (H2 : tensor_odf unit_volume [] 1
               = Py.Ok (tensor_odf_unbatched unit_volume []))
    by (apply tensor_odf_positive_batches; lia).
  split; [exact H1 |]. split; [exact H2 |].
  rewrite H1, H2. discriminate.
Qed.

Lemma tensor_odf_batch_invariant_witness :
  ((1 <= 3)%Z \/ (3 = (-1))%Z /\ two_vertices <> [])
  /\ tensor_odf unit_volume two_vertices 3
     = tensor_odf unit_volume two_vertices 1
  /\ Py.is_ok (tensor_odf unit_volume two_vertices 1) = true.
Proof.
  assert (H : (1 <= 3)%Z \/ (3 = (-1))%Z /\ two_vertices <> [])
    by (left; lia).
  split; [exact H |].
  exact (tensor_odf_batch_invariant unit_volume two_vertices 3 H).
Defined.

End NumericInstances.

Section BundleInstances.
Import Py Bundles Examples.

(** A call returns what its first component says and leaves the state of
    its second. *)
Lemma run_to {S X} (m : M S X) (s : S) (r : result X) :
  fst (m s) = r -> m s = (r, snd (m s)).
Proof. intros <-. now destruct (m s). Qed.


Lemma one_bundle_consistent : consistent (A := named_images) one_bundle.
Proof.
  split.
  - apply NoDup_singleton.
  - intros k. unfold one_bundle, generated_init. simpl.
    rewrite list_elem_of_singleton. split.
    + intros ->. rewrite lookup_singleton_eq. eauto.
    + intros [e He]. apply lookup_singleton_Some in He as [-> _]. reflexivity.
Qed.

(** The end points of ["CST_L"] are both in the loaded templates. *)
Example cst_end_points_loaded :
  templates cst_dict_generated !! "CST_L_start" = Some (VObj "CST_L_start")
  /\ templates cst_dict_generated !! "CST_L_end" = Some (VObj "CST_L_end").
Proof. split; vm_compute; reflexivity. Qed.

(** What [gen] stores for ["CST_L"]: the [_end] template under ['start']
    and nothing under ['end']. *)
Example cst_generated_entry :
  _dict (base cst_dict_generated) !! "CST_L"
  = Some (Def (BundleDef
                 (Some [VObj "CST_roi1_L"; VObj "CST_roi2_L"]) (Some [])
                 (Some (VObj "CST_L_end")) (Some VNone)
                 (Some (VBool false)) None None)).
Proof. vm_compute. reflexivity. Qed.

Lemma gen_end_field_always_None_witness :
  (seg_algo cst_dict = "afq"
   /\ gen (A := named_images) "CST_L" cst_dict = (Ok tt, cst_dict_generated))
  /\ exists d,
       _dict (base cst_dict_generated) !! "CST_L" = Some (Def d)
       /\ end_ d = Some VNone
       /\ (truthy (resample_to (base cst_dict)) = false ->
           get_truthy (templates cst_dict_generated) ("CST_L" +:+ "_end")
           = true ->
           start d = templates cst_dict_generated !! ("CST_L" +:+ "_end")).
Proof.
  assert (H1 : seg_algo cst_dict = "afq") by reflexivity.
  assert (H2 : gen (A := named_images) "CST_L" cst_dict
               = (Ok tt, cst_dict_generated))
    by (unfold cst_dict_generated; apply run_to; vm_compute; reflexivity).
  split; [now split |].
  exact (gen_end_field_always_None (A := named_images)
           "CST_L" cst_dict cst_dict_generated H1 H2).
Defined.

Lemma gen_missing_roi_raises_witness :
  (seg_algo cst_dict = "afq"
   /\ ensure_loaded (A := named_images) cst_dict = (Ok tt, cst_dict_loaded)
   /\ (templates cst_dict_loaded !! fst (roi_names "UNC_L") = None
       \/ templates cst_dict_loaded !! snd (roi_names "UNC_L") = None))
  /\ gen (A := named_images) "UNC_L" cst_dict
     = (Raise (ValueError ("UNC_L" +:+ " is not in AFQ templates")),
        cst_dict_loaded)
  /\ _dict (base cst_dict_loaded) = _dict (base cst_dict)
  /\ (_dict (base cst_dict) !! "UNC_L" = None ->
      __getitem__ (A := named_images) "UNC_L" cst_dict
      = (Raise (ValueError ("UNC_L" +:+ " is not in AFQ templates")),
         cst_dict_loaded)
      /\ _dict (base cst_dict_loaded) !! "UNC_L" = None).
Proof.
  assert (H1 : seg_algo cst_dict = "afq") by reflexivity.
  assert (H2 : ensure_loaded (A := named_images) cst_dict
               = (Ok tt, cst_dict_loaded))
    by (unfold cst_dict_loaded; apply run_to; vm_compute; reflexivity).
  assert (H3 : templates cst_dict_loaded !! fst (roi_names "UNC_L") = None
               \/ templates cst_dict_loaded !! snd (roi_names "UNC_L") = None)
    by (left; vm_compute; reflexivity).
  split; [auto |].
  exact (gen_missing_roi_raises (A := named_images)
           "UNC_L" cst_dict cst_dict_loaded H1 H2 H3).
Defined.



(** The dictionary built from ["CST_L"] serves it on the first lookup and
    again on the second, having read the templates once. *)
Example cst_lookup_twice :
  let first := __getitem__ (A := named_images) "CST_L" cst_dict in
  let second := __getitem__ (A := named_images) "CST_L" (snd first) in
  is_ok (fst first) = true
  /\ reads (snd first) = 1%nat
  /\ is_ok (fst second) = true
  /\ reads (snd second) = 1%nat.
Proof. repeat split; vm_compute; reflexivity. Qed.

Lemma setitem_present_breaks_len_witness :
  (consistent (A := named_images) one_bundle
   /\ is_Some (_dict one_bundle !! "CST_L")
   /\ __setitem__ (A := named_images) "CST_L" (Atlas VNone) one_bundle
      = (Ok tt, one_bundle_set_again))
  /\ __len__ one_bundle_set_again = S (size (_dict one_bundle_set_again))
  /\ ~ NoDup (bundle_names one_bundle_set_again)
  /\ ~ consistent one_bundle_set_again.
Proof.
  assert (H1 : consistent (A := named_images) one_bundle)
    by exact one_bundle_consistent.
  assert (H2 : is_Some (_dict (A := named_images) one_bundle !! "CST_L"))
    by (vm_compute; eauto).
  assert (H3 : __setitem__ (A := named_images) "CST_L" (Atlas VNone) one_bundle
               = (Ok tt, one_bundle_set_again))
    by (unfold one_bundle_set_again; apply run_to; vm_compute; reflexivity).
  split; [auto |].
  exact (setitem_present_breaks_len (A := named_images)
           "CST_L" (Atlas VNone) one_bundle _ _ H1 H2 H3).
Defined.

(** After the second assignment the name is listed twice for one key. *)
Example one_bundle_set_again_names :
  bundle_names one_bundle_set_again = ["CST_L"; "CST_L"]
  /\ __len__ one_bundle_set_again = 2%nat
  /\ size (_dict one_bundle_set_again) = 1%nat.
Proof. repeat split; vm_compute; reflexivity. Qed.

End BundleInstances.

(* ===================================================================== *)
(** * Part III: further properties of the code                            *)
(* ===================================================================== *)

(* --------------------------------------------------------------------- *)
(** ** The tracking generator: seeds, statuses, counts                    *)
(* --------------------------------------------------------------------- *)

Section TrackingMore.
Import Tracking.
Context {T : Tracker}.

(** What a pass of the inner loop that yields has done: two runs, both
    accepted, stitched and let through the length filter. *)
Lemma track_one_yield cfg s d F B w it st' :
  track_one cfg s d (F, B, w) = (Some it, st') ->
  exists stepsF stF F1 w1 stepsB stB B1 w2,
    run_tracker s d F w = (stepsF, stF, F1, w1)
    /\ run_tracker s (neg d) B w1 = (stepsB, stB, B1, w2)
    /\ accepted cfg stF = true
    /\ accepted cfg stB = true
    /\ it = emit cfg (stitch stepsF stepsB F1 B1) s
    /\ within_lengths cfg it.
Proof.
  intros Ht. pose proof (track_one_filtered _ _ _ _ _ _ Ht) as Hw.
  unfold track_one in Ht.
  destruct (run_tracker s d F w) as [[[stepsF stF] F1] w1] eqn:HF.
  destruct (accepted cfg stF) eqn:HaF; [| discriminate]. simpl in Ht.
  destruct (run_tracker s (neg d) B w1) as [[[stepsB stB] B1] w2] eqn:HB.
  destruct (accepted cfg stB) eqn:HaB; [| discriminate]. simpl in Ht.
  destruct (_ && _); [| discriminate].
  injection Ht as <- _.
  exists stepsF, stF, F1, w1, stepsB, stB, B1, w2. auto 10.
Qed.

(** X1.  Whatever is yielded is built around the voxel-space image of one
    of the seeds: with [save_seeds] the item is the pair of the streamline
    and that transformed seed, without it the streamline alone; and under
    the tracker's contract the transformed seed is one of the points of
    the streamline. *)
Theorem yielded_item_holds_its_seed cfg w items :
  tracker_contract ->
  _verbose_generate_tractogram cfg w = Py.Ok items ->
  Forall
    (fun it =>
       exists s0 sl,
         In s0 (seeds cfg)
         /\ In (to_voxel s0) sl
         /\ it = if save_seeds cfg
                 then WithSeed sl (to_voxel s0) else Streamline sl)
    items.
Proof.
  intros Hc Hrun.
  assert (Hmax : (0 <= max_length cfg + 1)%Z).
  { unfold _verbose_generate_tractogram in Hrun.
    destruct (Z.ltb_spec (max_length cfg + 1) 0); [discriminate | lia]. }
  destruct (generator_origin cfg (allocated cfg)
              (track_one_allocated cfg Hc) w Hmax)
    as (items' & Hrun' & Ho).
  { split; apply repeat_length. }
  rewrite Hrun in Hrun'. injection Hrun' as <-.
  eapply Forall_impl; [exact Ho |].
  intros it [s0 w1 w2 Hs Hr Hd | s0 d F B w0 st' it' Hs [HlF HlB] Ht].
  - exists s0, [to_voxel s0]. split; [exact Hs |].
    split; [now left | reflexivity].
  - destruct (track_one_yield _ _ _ _ _ _ _ _ Ht)
      as (stepsF & stF & F1 & w1 & stepsB & stB & B1 & w2
          & HF & HB & _ & _ & -> & Hw).
    unfold within_lengths in Hw. rewrite emit_points in Hw.
    assert (HFne : F <> []) by (destruct F; [simpl in HlF; lia | discriminate]).
    assert (HBne : B <> []) by (destruct B; [simpl in HlB; lia | discriminate]).
    pose proof (Hc (to_voxel s0) d F w0) as HcF. rewrite HF in HcF.
    pose proof (Hc (to_voxel s0) (neg d) B w1) as HcB. rewrite HB in HcB.
    destruct HcF as [HF1 HcF]. destruct (HcF HFne) as [HsF HseedF].
    destruct HcB as [HB1 HcB]. destruct (HcB HBne) as [HsB _].
    destruct (stitch_in_bounds (to_voxel s0) stepsF stepsB F1 B1
                ltac:(lia) ltac:(lia) HseedF)
      as (_ & _ & _ & _ & Hjunction & _).
    exists s0, (stitch stepsF stepsB F1 B1).
    split; [exact Hs |]. split; [| reflexivity].
    eapply nth_error_In. exact Hjunction.
Qed.

(** X2.  With [return_all] off, a streamline is yielded only if both of
    its runs, forward and backward, stopped at an end point or outside the
    image. *)
Theorem yields_need_valid_stops cfg w items :
  return_all cfg = false ->
  _verbose_generate_tractogram cfg w = Py.Ok items ->
  Forall
    (fun it =>
       exists s0 first_step F B w0 stepsF stF F1 w1 stepsB stB B1 w2,
         In s0 (seeds cfg)
         /\ run_tracker (to_voxel s0) first_step F w0 = (stepsF, stF, F1, w1)
         /\ run_tracker (to_voxel s0) (neg first_step) B w1
            = (stepsB, stB, B1, w2)
         /\ (stF = ENDPOINT \/ stF = OUTSIDEIMAGE)
         /\ (stB = ENDPOINT \/ stB = OUTSIDEIMAGE)
         /\ points it = stitch stepsF stepsB F1 B1)
    items.
Proof.
  intros Hr Hrun.
  assert (Hmax : (0 <= max_length cfg + 1)%Z).
  { unfold _verbose_generate_tractogram in Hrun.
    destruct (Z.ltb_spec (max_length cfg + 1) 0); [discriminate | lia]. }
  destruct (generator_origin cfg (fun _ _ => True)
              (fun _ _ _ _ _ _ _ _ _ _ _ => I) w Hmax I)
    as (items' & Hrun' & Ho).
  rewrite Hrun in Hrun'. injection Hrun' as <-.
  assert (Hstop : forall st, accepted cfg st = true ->
                             st = ENDPOINT \/ st = OUTSIDEIMAGE).
  { intros st. unfold accepted. rewrite Hr. simpl.
    intros H. apply orb_true_iff in H as [H | H]; apply Z.eqb_eq in H; auto. }
  eapply Forall_impl; [exact Ho |].
  intros it [s0 w1 w2 Hs Hr' Hd | s0 d F B w0 st' it' Hs _ Ht].
  - congruence.
  - destruct (track_one_yield _ _ _ _ _ _ _ _ Ht)
      as (stepsF & stF & F1 & w1 & stepsB & stB & B1 & w2
          & HF & HB & HaF & HaB & -> & _).
    exists s0, d, F, B, w0, stepsF, stF, F1, w1, stepsB, stB, B1, w2.
    rewrite emit_points. auto 10.
Qed.

Lemma track_all_count cfg s dirs st :
  (length (fst (track_all cfg s dirs st)) <= length dirs)%nat.
Proof.
  revert st. induction dirs as [| d dirs IH]; intros st; simpl; [lia |].
  destruct (track_one cfg s d st) as [y st1].
  specialize (IH st1). destruct (track_all cfg s dirs st1) as [ys st2].
  simpl in *. destruct y; simpl; lia.
Qed.

Lemma from_seed_count cfg s0 st (k : Z) :
  max_cross cfg = Some k -> (1 <= k)%Z ->
  (length (fst (from_seed cfg s0 st)) <= Z.to_nat k)%nat.
Proof.
  intros Hk Hpos. unfold from_seed. destruct st as [[F B] w].
  destruct (initial_direction _ _) as [dirs w2].
  pose proof (track_all_count cfg (to_voxel s0) (limit_cross cfg dirs)
                (F, B, w2)) as Hcount.
  destruct (track_all _ _ _ _) as [ys st1]. simpl in *.
  assert (Hlim : (length (limit_cross cfg dirs)
                  <= Nat.min (Z.to_nat k) (length dirs))%nat).
  { unfold limit_cross. rewrite Hk, slice_to_nonneg by lia.
    rewrite length_firstn. lia. }
  rewrite length_app. destruct dirs as [| d dirs].
  - simpl in Hlim. destruct (return_all cfg); simpl; lia.
  - simpl length at 1. lia.
Qed.

Lemma from_seeds_count cfg ss st (k : Z) :
  max_cross cfg = Some k -> (1 <= k)%Z ->
  (length (fst (from_seeds cfg ss st)) <= length ss * Z.to_nat k)%nat.
Proof.
  intros Hk Hpos. revert st.
  induction ss as [| s0 ss IH]; intros st; simpl; [lia |].
  pose proof (from_seed_count cfg s0 st k Hk Hpos) as H1.
  destruct (from_seed cfg s0 st) as [ys st1].
  specialize (IH st1). destruct (from_seeds cfg ss st1) as [zs st2].
  simpl in *. rewrite length_app. lia.
Qed.

(** X3.  With [max_cross = k >= 1] no seed gives more than [k] items: the
    generator yields at most [k] times the number of seeds. *)
Theorem yields_bounded_by_max_cross cfg w items (k : Z) :
  max_cross cfg = Some k -> (1 <= k)%Z ->
  _verbose_generate_tractogram cfg w = Py.Ok items ->
  (length items <= length (seeds cfg) * Z.to_nat k)%nat.
Proof.
  intros Hk Hpos. unfold _verbose_generate_tractogram.
  destruct (_ <? _)%Z; [discriminate |].
  intros Hrun. injection Hrun as <-.
  now apply from_seeds_count.
Qed.

End TrackingMore.

(* --------------------------------------------------------------------- *)
(** ** [tensor_odf]: the values                                           *)
(* --------------------------------------------------------------------- *)

Section OdfMore.
Import Numeric.
Local Open Scope R_scope.

Lemma scatter_masked (g : voxel -> list fval) (n : nat)
    (volume : list voxel) :
  scatter volume n (map g (List.filter in_mask volume))
  = map (fun v => if in_mask v then g v else repeat (Fin 0) n) volume.
Proof.
  induction volume as [| v volume IH]; [reflexivity |].
  simpl. destruct (in_mask v); simpl; now rewrite IH.
Qed.

(** The columns handed to [scatter]: entry [j] of each row of [proj_norm]
    belongs to the [j]-th voxel of the mask. *)
Lemma odf_columns (vertices : list vec3) (masked : list voxel) :
  imap (fun j v =>
          map (fun row => odf_value v (nth j row 0))
            (batch_rows vertices masked))
    masked
  = map (fun v => map (fun vertex => odf_value v (proj_norm_at vertex v))
                    vertices)
      masked.
Proof.
  apply list_eq. intros j.
  rewrite list_lookup_imap.
  change (map ?f masked) with (f <$> masked). rewrite list_lookup_fmap.
  destruct (masked !! j) as [v |] eqn:Hj; [| reflexivity].
  simpl. f_equal. unfold batch_rows. rewrite map_map.
  apply map_ext. intros vertex. f_equal.
  apply nth_lookup_Some.
  change (map ?f masked) with (f <$> masked).
  now rewrite list_lookup_fmap, Hj.
Qed.

Lemma tensor_odf_unbatched_voxels volume vertices :
  tensor_odf_unbatched volume vertices = map (voxel_odf vertices) volume.
Proof.
  unfold tensor_odf_unbatched. rewrite odf_columns.
  rewrite scatter_masked. reflexivity.
Qed.

(** X4.  For [num_batches >= 1], [tensor_odf] returns one row per voxel
    and one entry per vertex: zero for a voxel with an eigenvalue that is
    not positive, and otherwise the norm of the vertex projected on the
    eigenvectors and divided by the roots of the eigenvalues, to the power
    -3, over [4 pi sqrt(l1 l2 l3)]. *)
Theorem tensor_odf_values volume vertices (num_batches : Z) :
  (1 <= num_batches)%Z ->
  exists odf,
    tensor_odf volume vertices num_batches = Py.Ok odf
    /\ length odf = length volume
    /\ Forall (fun row => length row = length vertices) odf
    /\ forall i v k vertex,
         volume !! i = Some v -> vertices !! k = Some vertex ->
         exists row,
           odf !! i = Some row
           /\ row !! k
              = Some (if in_mask v
                      then odf_value v (proj_norm_at vertex v)
                      else Fin 0).
Proof.
  intros Hnb. exists (map (voxel_odf vertices) volume).
  split.
  { rewrite tensor_odf_positive_batches by exact Hnb.
    now rewrite tensor_odf_unbatched_voxels. }
  split; [apply length_map |]. split.
  - apply Forall_forall. intros row Hrow.
    apply list_elem_of_In, in_map_iff in Hrow as (v & <- & _).
    unfold voxel_odf. destruct (in_mask v);
      [apply length_map | apply repeat_length].
  - intros i v k vertex Hi Hk. exists (voxel_odf vertices v). split.
    + change (map ?f volume) with (f <$> volume).
      now rewrite list_lookup_fmap, Hi.
    + unfold voxel_odf. destruct (in_mask v).
      * change (map ?f vertices) with (f <$> vertices).
        now rewrite list_lookup_fmap, Hk.
      * rewrite repeat_replicate. apply lookup_replicate_2.
        now apply lookup_lt_Some in Hk.
Qed.

Lemma proj_norm_neg (vertex : vec3) (v : voxel) :
  proj_norm_at (neg3 vertex) v = proj_norm_at vertex v.
Proof.
  unfold proj_norm_at, in_place_norm, vecmat, neg3. simpl.
  f_equal. unfold Rdiv. ring.
Qed.

(** X5.  The tensor ODF is antipodally symmetric: on the sphere with every
    vertex negated [tensor_odf] returns the same array. *)
Theorem tensor_odf_antipodal volume vertices (num_batches : Z) :
  (1 <= num_batches)%Z ->
  tensor_odf volume (map neg3 vertices) num_batches
  = tensor_odf volume vertices num_batches.
Proof.
  intros Hnb. rewrite !tensor_odf_positive_batches by exact Hnb.
  rewrite !tensor_odf_unbatched_voxels. f_equal.
  apply map_ext. intros v. unfold voxel_odf. rewrite length_map.
  destruct (in_mask v); [| reflexivity].
  rewrite map_map. apply map_ext. intros vertex.
  now rewrite proj_norm_neg.
Qed.

Lemma is_pos_true (r : R) : is_pos r = true <-> 0 < r.
Proof.
  unfold is_pos. destruct (Rlt_dec 0 r); split; intros; try lra; congruence.
Qed.

(** Orthonormal eigenvectors keep the length of a vertex. *)
Lemma vecmat_orthonormal (vertex : vec3) (E : mat3) :
  matmul E (transpose3 E) = ident3 ->
  let p := vecmat vertex E in
  vx p * vx p + vy p * vy p + vz p * vz p
  = vx vertex * vx vertex + vy vertex * vy vertex + vz vertex * vz vertex.
Proof.
  destruct E as [e00 e01 e02 e10 e11 e12 e20 e21 e22].
  destruct vertex as [x y z].
  unfold matmul, transpose3, ident3, vecmat. simpl.
  intros H. injection H as H00 H01 H02 H10 H11 H12 H20 H21 H22.
  transitivity
    (x * x * (e00 * e00 + e01 * e01 + e02 * e02)
     + y * y * (e10 * e10 + e11 * e11 + e12 * e12)
     + z * z * (e20 * e20 + e21 * e21 + e22 * e22)
     + 2 * x * y * (e00 * e10 + e01 * e11 + e02 * e12)
     + 2 * x * z * (e00 * e20 + e01 * e21 + e02 * e22)
     + 2 * y * z * (e10 * e20 + e11 * e21 + e12 * e22)).
  - ring.
  - rewrite H00, H01, H02, H11, H12, H22. ring.
Qed.

Lemma odf_value_isotropic (l : R) (E : mat3) (vertex : vec3) :
  0 < l ->
  matmul E (transpose3 E) = ident3 ->
  vx vertex * vx vertex + vy vertex * vy vertex + vz vertex * vz vertex = 1 ->
  let v := Voxel (V3 l l l) E in
  in_mask v = true
  /\ odf_value v (proj_norm_at vertex v) = Fin (/ (4 * PI)).
Proof.
  intros Hl HE Hunit v. split.
  { unfold in_mask. simpl. now rewrite (proj2 (is_pos_true l) Hl). }
  pose proof (vecmat_orthonormal vertex E HE) as Hp. cbv zeta in Hp.
  rewrite Hunit in Hp.
  set (s := sqrt l).
  assert (Hs : 0 < s) by now apply sqrt_lt_R0.
  assert (Hss : s * s = l) by (apply sqrt_sqrt; lra).
  assert (Hnorm : proj_norm_at vertex v = / s).
  { unfold proj_norm_at, in_place_norm, v.
    cbn [evals evecs vx vy vz]. fold s.
    apply sqrt_lem_1.
    - set (p := vecmat vertex E).
      assert (H1 : forall a, 0 <= a / s * (a / s)).
      { intros a. replace (a / s * (a / s)) with ((a / s) ^ 2) by ring.
        apply pow2_ge_0. }
      pose proof (H1 (vx p)). pose proof (H1 (vy p)). pose proof (H1 (vz p)).
      lra.
    - left. now apply Rinv_0_lt_compat.
    - set (p := vecmat vertex E) in *.
      transitivity ((vx p * vx p + vy p * vy p + vz p * vz p) / (s * s)).
      + rewrite Hp. field. lra.
      + field. lra. }
  assert (Hcube : sqrt (l * l * l) = s * s * s).
  { apply sqrt_lem_1.
    - assert (0 < l * l) by nra. nra.
    - assert (0 < s * s) by nra. nra.
    - rewrite <- Hss. ring. }
  assert (HPI : 0 < PI) by apply PI_RGT_0.
  unfold odf_value, pow_m3. simpl evals. simpl vx. simpl vy. simpl vz.
  rewrite Hnorm, Hcube.
  assert (Hinv : / s <> 0) by (apply Rinv_neq_0_compat; lra).
  rewrite (proj2 (is_zero_false (/ s)) Hinv).
  assert (Hden : 4 * PI * (s * s * s) <> 0).
  { assert (0 < s * s * s) by (assert (0 < s * s) by nra; nra). nra. }
  unfold np_div. rewrite (proj2 (is_zero_false _) Hden).
  f_equal. field. repeat split; lra.
Qed.

(** X6.  In a voxel with three equal positive eigenvalues and orthonormal
    eigenvectors the ODF is uniform: at every vertex of unit length it is
    [1 / (4 pi)], so that it integrates to 1 over the sphere. *)
Theorem tensor_odf_isotropic volume vertices (num_batches : Z)
    (i k : nat) (l : R) (E : mat3) (vertex : vec3) :
  (1 <= num_batches)%Z ->
  volume !! i = Some (Voxel (V3 l l l) E) ->
  vertices !! k = Some vertex ->
  0 < l ->
  matmul E (transpose3 E) = ident3 ->
  vx vertex * vx vertex + vy vertex * vy vertex + vz vertex * vz vertex = 1 ->
  exists odf row,
    tensor_odf volume vertices num_batches = Py.Ok odf
    /\ odf !! i = Some row
    /\ row !! k = Some (Fin (/ (4 * PI))).
Proof.
  intros Hnb Hi Hk Hl HE Hunit.
  destruct (odf_value_isotropic l E vertex Hl HE Hunit) as [Hmask Hval].
  exists (map (voxel_odf vertices) volume),
    (voxel_odf vertices (Voxel (V3 l l l) E)).
  split.
  { rewrite tensor_odf_positive_batches by exact Hnb.
    now rewrite tensor_odf_unbatched_voxels. }
  split.
  - change (map ?f volume) with (f <$> volume).
    now rewrite list_lookup_fmap, Hi.
  - unfold voxel_odf. rewrite Hmask.
    change (map ?f vertices) with (f <$> vertices).
    rewrite list_lookup_fmap, Hk. simpl. now rewrite Hval.
Qed.

(** X7.  With [num_batches] below -1 the batch loop does not run at all:
    [tensor_odf] still returns, the norms stay at 0, and every entry of a
    voxel of the mask is [inf]. *)
Theorem tensor_odf_negative_batches volume vertices (num_batches : Z) :
  (num_batches < -1)%Z ->
  tensor_odf volume vertices num_batches
  = Py.Ok (map (fun v => if in_mask v
                         then repeat PInf (length vertices)
                         else repeat (Fin 0) (length vertices))
             volume).
Proof.
  intros Hnb. unfold tensor_odf.
  destruct (Z.eqb_spec num_batches (-1)); [lia |].
  destruct (Z.eqb_spec num_batches 0); [lia |].
  replace (Z.to_nat num_batches) with 0%nat by lia. simpl fold_left.
  f_equal.
  set (masked := List.filter in_mask volume).
  set (nv := length vertices).
  assert (Hcols :
    imap (fun j v =>
            map (fun row => odf_value v (nth j row 0))
              (repeat (repeat 0 (length masked)) nv))
      masked
    = map (fun _ => repeat PInf nv) masked).
  { apply list_eq. intros j. rewrite list_lookup_imap.
    change (map ?f masked) with (f <$> masked). rewrite list_lookup_fmap.
    destruct (masked !! j) as [v |] eqn:Hj; [| reflexivity].
    simpl. f_equal.
    assert (Hz : nth j (repeat 0 (length masked)) 0 = 0)
      by (apply nth_repeat).
    assert (Hinf : odf_value v 0 = PInf).
    { unfold odf_value, pow_m3.
      rewrite (proj2 (is_zero_true 0) eq_refl). unfold np_div.
      rewrite (proj2 (is_neg_false _)); [reflexivity |].
      pose proof PI_RGT_0. pose proof (sqrt_pos
        (vx (evals v) * vy (evals v) * vz (evals v))). nra. }
    clear Hj. induction nv as [| nv IH]; [reflexivity |].
    simpl. now rewrite Hz, Hinf, IH. }
  rewrite Hcols. apply scatter_masked.
Qed.

End OdfMore.

(* --------------------------------------------------------------------- *)
(** ** [gaussian_weights]: shapes, ranges, shifts                         *)
(* --------------------------------------------------------------------- *)

Section WeightsMore.
Import Numeric.
Local Open Scope R_scope.
Context {LA : Linalg}.

Lemma distance_loop_rows stat (sls : list (list vec3)) (n_nodes : nat) :
  Forall (fun sl => length sl = n_nodes) sls ->
  Forall (fun row => length row = n_nodes) (distance_loop stat sls).
Proof.
  intros Hrect. apply Forall_forall. intros row Hrow.
  apply list_elem_of_lookup_1 in Hrow as [j Hj].
  assert (Hjlt : (j < length sls)%nat).
  { apply lookup_lt_Some in Hj. now rewrite distance_loop_length in Hj. }
  apply lookup_lt_is_Some in Hjlt as [sl Hsl].
  pose proof (rectangular_shape1 sls n_nodes j sl Hrect Hsl) as Hshape.
  unfold distance_loop in Hj. rewrite Hshape in Hj.
  set (diff := map (fun sl => zip_with sub3 (stat_axis0 stat sls) sl) sls) in Hj.
  set (W0 := repeat (repeat (Fin 0) n_nodes) (length sls)) in Hj.
  assert (Hcols : forall i,
             length (node_distances (column zero3 sls i)
                       (column zero3 diff i)) = length W0).
  { intros i. rewrite node_distances_length, column_length.
    unfold diff, W0. now rewrite length_map, repeat_length. }
  assert (Hrow0 : W0 !! j = Some (repeat (Fin 0) n_nodes)).
  { unfold W0. rewrite repeat_replicate. apply lookup_replicate_2.
    now apply lookup_lt_Some in Hsl. }
  destruct (column_loop_row _ W0 Hcols n_nodes j _ Hrow0)
    as (row1 & Hrow1 & Hlen & _).
  rewrite Hj in Hrow1. injection Hrow1 as <-.
  now rewrite repeat_length in Hlen.
Qed.

Lemma normalise_rows (W : list (list fval)) (n : nat) :
  Forall (fun row => length row = n) W ->
  Forall (fun row => length row = n) (normalise W).
Proof.
  intros Hrect. destruct W as [| row0 W']; [constructor |].
  assert (Hshape : shape1 (row0 :: W') = n) by now inversion Hrect.
  unfold normalise. rewrite Hshape.
  apply Forall_forall. intros row Hrow.
  apply list_elem_of_In, in_map_iff in Hrow as (r1 & <- & Hr1).
  apply in_map_iff in Hr1 as (r0 & <- & Hr0).
  rewrite length_zip_with, !length_map, length_seq.
  rewrite Forall_forall in Hrect.
  rewrite (Hrect r0) by now apply list_elem_of_In. lia.
Qed.

Section WithResampler.
Context {RS : Resampler}.

(** X9.  For a bundle of two or more streamlines of [n_points] nodes the
    array returned, distances or weights, has one row per streamline and
    one entry per node. *)
Theorem gaussian_weights_shape stat (sls : list (list vec3))
    (n_nodes : nat) (return_mahalnobis : bool) :
  (2 <= length sls)%nat ->
  Forall (fun sl => length sl = n_nodes) sls ->
  exists W,
    gaussian_weights (Array3 sls) (Z.of_nat n_nodes) return_mahalnobis stat
    = Py.Ok (Mat W)
    /\ length W = length sls
    /\ Forall (fun row => length row = n_nodes) W.
Proof.
  intros Hlen Hrect.
  assert (Hshape : shape1 sls = n_nodes).
  { destruct sls as [| sl0 sls']; [simpl in Hlen; lia |].
    now inversion Hrect. }
  pose proof (distance_loop_rows stat sls n_nodes Hrect) as Hrows.
  rewrite <- Hshape in Hrows |- *. clear Hshape.
  rewrite (gaussian_weights_array3 stat sls return_mahalnobis) by lia.
  eexists. split; [reflexivity |].
  destruct return_mahalnobis.
  - split; [apply distance_loop_length | exact Hrows].
  - split; [now rewrite normalise_length, distance_loop_length |].
    now apply normalise_rows.
Qed.

(** X10.  No distance returned with [return_mahalnobis] is negative or
    infinite: each entry is a finite number that is at least 0, or NaN
    (the root of a negative form). *)
Theorem gaussian_weights_distance_range stat (sls : list (list vec3))
    (n_nodes : nat) :
  (2 <= length sls)%nat ->
  Forall (fun sl => length sl = n_nodes) sls ->
  exists W,
    gaussian_weights (Array3 sls) (Z.of_nat n_nodes) true stat
    = Py.Ok (Mat W)
    /\ Forall (Forall (fun x => x = NaN \/ exists r, x = Fin r /\ 0 <= r)) W.
Proof.
  intros Hlen Hrect.
  assert (Hshape : shape1 sls = n_nodes).
  { destruct sls as [| sl0 sls']; [simpl in Hlen; lia |].
    now inversion Hrect. }
  exists (distance_loop stat sls). split.
  { rewrite <- Hshape. apply (gaussian_weights_array3 stat sls true). lia. }
  apply Forall_forall. intros row Hrow.
  apply list_elem_of_lookup_1 in Hrow as [j Hj].
  assert (Hjlt : (j < length sls)%nat).
  { apply lookup_lt_Some in Hj. now rewrite distance_loop_length in Hj. }
  apply lookup_lt_is_Some in Hjlt as [sl Hsl].
  pose proof (distance_loop_rows stat sls n_nodes Hrect) as Hrows.
  rewrite Forall_forall in Hrows.
  pose proof (Hrows row (list_elem_of_lookup_2 _ _ _ Hj)) as Hrl.
  apply Forall_forall. intros x Hx.
  apply list_elem_of_lookup_1 in Hx as [i Hi].
  assert (Hilt : (i < length sl)%nat).
  { apply lookup_lt_Some in Hi.
    rewrite Forall_forall in Hrect.
    rewrite (Hrect sl) by (eapply list_elem_of_lookup_2, Hsl). lia. }
  apply lookup_lt_is_Some in Hilt as [p Hp].
  destruct (distance_loop_entry stat sls n_nodes j i sl p Hrect Hsl Hp)
    as (row1 & Hrow1 & _ & Hent).
  rewrite Hj in Hrow1. injection Hrow1 as <-.
  rewrite Hi in Hent. injection Hent as ->.
  destruct (full_rank _).
  - unfold np_sqrt. destruct (is_neg _); [now left |].
    right. eexists. split; [reflexivity | apply sqrt_pos].
  - right. exists 0. split; [reflexivity | lra].
Qed.

Lemma np_sum_with_inf (l : list fval) :
  Forall (fun x => x = PInf \/ exists r, x = Fin r) l ->
  (np_sum l = PInf \/ exists r, np_sum l = Fin r)
  /\ (In PInf l -> np_sum l = PInf).
Proof.
  induction 1 as [| x l Hx Hl [IHk IHin]].
  - split; [right; now exists 0 | intros []].
  - unfold np_sum in *. simpl. split.
    + destruct Hx as [-> | [r ->]], IHk as [-> | [r' ->]]; simpl;
        eauto.
    + intros [-> | Hin].
      * destruct IHk as [-> | [r' ->]]; reflexivity.
      * rewrite (IHin Hin). destruct Hx as [-> | [r ->]]; reflexivity.
Qed.

Lemma inverse_of_root (q : R) :
  0 <= q ->
  np_div (Fin 1) (Fin (sqrt q))
  = if is_zero q then PInf else Fin (1 / sqrt q).
Proof.
  intros Hq. unfold np_div.
  rewrite (proj2 (is_zero_false 1)) by lra.
  rewrite (proj2 (is_neg_false 1)) by lra.
  destruct (is_zero q) eqn:Hz.
  - apply is_zero_true in Hz. subst q. rewrite sqrt_0.
    now rewrite (proj2 (is_zero_true 0) eq_refl).
  - apply is_zero_false in Hz.
    rewrite (proj2 (is_zero_false (sqrt q))); [reflexivity |].
    intros H0. apply sqrt_eq_0 in H0; [contradiction | exact Hq].
Qed.

(** X11.  At a node whose triangular covariance [matrix_rank] counts as
    of full rank and where every form is at least 0, one streamline at
    distance 0 spoils the node: its own weight is NaN ([inf / inf]) and
    the weight of every streamline at a positive distance is 0
    ([finite / inf]). *)
Theorem gaussian_weights_zero_distance stat (sls : list (list vec3))
    (n_nodes i j0 : nat) (sl0 : list vec3) :
  let U := triu (cov (column zero3 sls i)) in
  let form := fun sl : list vec3 =>
    quad (sub3 (center_at stat sls i) (nth i sl zero3)) (inv3 U) in
  (2 <= length sls)%nat ->
  Forall (fun sl => length sl = n_nodes) sls ->
  (i < n_nodes)%nat ->
  full_rank U = true ->
  (forall sl, In sl sls -> 0 <= form sl) ->
  sls !! j0 = Some sl0 -> form sl0 = 0 ->
  exists W,
    gaussian_weights (Array3 sls) (Z.of_nat n_nodes) false stat
    = Py.Ok (Mat W)
    /\ forall j sl, sls !! j = Some sl ->
         exists row,
           W !! j = Some row
           /\ row !! i = Some (if is_zero (form sl) then NaN else Fin 0).
Proof.
  intros U form Hlen Hrect Hin Hfull Hpos Hj0 Hform0.
  assert (Hshape : shape1 sls = n_nodes).
  { destruct sls as [| s0 sls']; [simpl in Hlen; lia |].
    now inversion Hrect. }
  set (D := distance_loop stat sls).
  assert (Hrows : forall j sl, sls !! j = Some sl ->
            exists row, D !! j = Some row /\ length row = n_nodes
                        /\ row !! i = Some (Fin (sqrt (form sl)))).
  { intros j sl Hj.
    assert (Hsl : In sl sls).
    { apply list_elem_of_In. eapply list_elem_of_lookup_2, Hj. }
    assert (Hp : sl !! i = Some (nth i sl zero3)).
    { destruct (nth_lookup_or_length sl i zero3) as [H | H]; [exact H |].
      rewrite Forall_forall in Hrect.
      rewrite (Hrect sl) in H by now apply list_elem_of_In. lia. }
    destruct (distance_loop_entry stat sls n_nodes j i sl _ Hrect Hj Hp)
      as (row & Hrow & Hrl & Hent).
    fold U in Hent. rewrite Hfull in Hent.
    exists row. split; [exact Hrow |]. split; [exact Hrl |].
    rewrite Hent. unfold np_sqrt. fold (form sl).
    now rewrite (proj2 (is_neg_false _) (Hpos sl Hsl)). }
  assert (HDlen : length D = length sls) by apply distance_loop_length.
  assert (HDshape : (i < shape1 D)%nat).
  { destruct sls as [| s0 sls'] eqn:Hsls; [simpl in Hlen; lia |].
    destruct (Hrows 0%nat s0 eq_refl) as (row & Hrow & Hrl & _).
    destruct D as [| row0 D']; [discriminate |].
    injection Hrow as ->. simpl. lia. }
  assert (Hinv : forall j sl, sls !! j = Some sl ->
            nth i (map (np_div (Fin 1)) (nth j D [])) NaN
            = if is_zero (form sl) then PInf else Fin (1 / sqrt (form sl))).
  { intros j sl Hj.
    destruct (Hrows j sl Hj) as (row & Hrow & _ & Hent).
    rewrite (nth_lookup_Some _ _ _ _ Hrow).
    apply nth_lookup_Some.
    change (map ?f row) with (f <$> row).
    rewrite list_lookup_fmap, Hent. cbn [fmap option_fmap option_map].
    f_equal. apply inverse_of_root, Hpos, list_elem_of_In.
    eapply list_elem_of_lookup_2, Hj. }
  assert (Htotal : np_sum (column NaN (map (map (np_div (Fin 1))) D) i)
                   = PInf).
  { apply np_sum_with_inf.
    - unfold column. rewrite map_map. apply Forall_forall. intros x Hx.
      apply list_elem_of_In, in_map_iff in Hx as (row & <- & Hrow).
      apply list_elem_of_In, list_elem_of_lookup_1 in Hrow as [j Hj].
      assert (Hjlt : (j < length sls)%nat)
        by (rewrite <- HDlen; eapply lookup_lt_Some, Hj).
      apply lookup_lt_is_Some in Hjlt as [sl Hsl].
      pose proof (Hinv j sl Hsl) as He.
      rewrite (nth_lookup_Some _ _ _ _ Hj) in He. rewrite He.
      destruct (is_zero _); [now left | right; eauto].
    - unfold column. rewrite map_map. apply in_map_iff.
      destruct (Hrows j0 sl0 Hj0) as (row & Hrow & _ & _).
      exists row. split.
      + pose proof (Hinv j0 sl0 Hj0) as He.
        rewrite (nth_lookup_Some _ _ _ _ Hrow) in He. rewrite He, Hform0.
        now rewrite (proj2 (is_zero_true 0) eq_refl).
      + apply list_elem_of_In. eapply list_elem_of_lookup_2, Hrow. }
  exists (normalise D). split.
  { rewrite <- Hshape. apply (gaussian_weights_array3 stat sls false). lia. }
  intros j sl Hj.
  destruct (Hrows j sl Hj) as (row & Hrow & _ & Hent).
  destruct (normalise_entry D j i row _ Hrow Hent HDshape)
    as (row' & Hrow' & Hent').
  exists row'. split; [exact Hrow' |].
  rewrite Hent', Htotal. f_equal.
  rewrite inverse_of_root.
  - now destruct (is_zero (form sl)).
  - apply Hpos, list_elem_of_In. eapply list_elem_of_lookup_2, Hj.
Qed.

Lemma Rsum_shift (c : R) (l : list R) :
  Rsum (map (fun x => c + x) l) = INR (length l) * c + Rsum l.
Proof.
  induction l as [| x l IH]; [simpl; ring |].
  change (Rsum (map (fun x => c + x) (x :: l)))
    with (c + x + Rsum (map (fun x => c + x) l)).
  change (Rsum (x :: l)) with (x + Rsum l).
  rewrite IH, length_cons, S_INR. ring.
Qed.

Lemma mean_shift_equivariant : shift_equivariant mean.
Proof.
  intros l c Hne. unfold mean. rewrite Rsum_shift, length_map.
  assert (Hn : INR (length l) <> 0).
  { apply not_0_INR. destruct l; [contradiction | discriminate]. }
  field. exact Hn.
Qed.

Lemma nth_translate (t : vec3) (sl : list vec3) (i : nat) :
  (i < length sl)%nat ->
  nth i (map (add3 t) sl) zero3 = add3 t (nth i sl zero3).
Proof.
  intros Hi.
  rewrite (nth_indep _ zero3 (add3 t zero3)) by now rewrite length_map.
  apply map_nth.
Qed.

Lemma column_translate (t : vec3) (sls : list (list vec3)) (n i : nat) :
  Forall (fun sl => length sl = n) sls -> (i < n)%nat ->
  column zero3 (translate t sls) i = map (add3 t) (column zero3 sls i).
Proof.
  intros Hrect Hi. unfold column, translate. rewrite !map_map.
  apply map_ext_in. intros sl Hsl. apply nth_translate.
  rewrite Forall_forall in Hrect.
  rewrite (Hrect sl) by now apply list_elem_of_In. exact Hi.
Qed.

Lemma stat_translate stat (f : vec3 -> R) (t : vec3) (X : list vec3) :
  shift_equivariant stat ->
  (forall p, f (add3 t p) = f t + f p) ->
  X <> [] ->
  stat (map f (map (add3 t) X)) = f t + stat (map f X).
Proof.
  intros Hstat Hf HX.
  rewrite <- Hstat by (destruct X; [contradiction | discriminate]).
  f_equal. rewrite !map_map. apply map_ext. exact Hf.
Qed.

Lemma cov_entry_translate (f g : vec3 -> R) (t : vec3) (X : list vec3) :
  (forall p, f (add3 t p) = f t + f p) ->
  (forall p, g (add3 t p) = g t + g p) ->
  cov_entry f g (map (add3 t) X) = cov_entry f g X.
Proof.
  intros Hf Hg. destruct X as [| x X']; [reflexivity |].
  unfold cov_entry.
  rewrite (stat_translate mean f t (x :: X') mean_shift_equivariant Hf)
    by discriminate.
  rewrite (stat_translate mean g t (x :: X') mean_shift_equivariant Hg)
    by discriminate.
  rewrite length_map, map_map. f_equal. f_equal.
  apply map_ext. intros p. rewrite Hf, Hg. ring.
Qed.

Lemma cov_translate (t : vec3) (X : list vec3) :
  cov (map (add3 t) X) = cov X.
Proof.
  unfold cov. now rewrite !cov_entry_translate by reflexivity.
Qed.

Lemma center_translate stat (t : vec3) (sls : list (list vec3)) (n i : nat) :
  shift_equivariant stat ->
  sls <> [] ->
  Forall (fun sl => length sl = n) sls -> (i < n)%nat ->
  center_at stat (translate t sls) i = add3 t (center_at stat sls i).
Proof.
  intros Hstat Hne Hrect Hi. unfold center_at.
  rewrite (column_translate t sls n i Hrect Hi).
  assert (HX : column zero3 sls i <> []).
  { unfold column. destruct sls; [contradiction | discriminate]. }
  rewrite !(stat_translate stat _ t _ Hstat) by (reflexivity || exact HX).
  reflexivity.
Qed.

Lemma sub3_translate (t a b : vec3) :
  sub3 (add3 t a) (add3 t b) = sub3 a b.
Proof. unfold sub3, add3. simpl. f_equal; ring. Qed.

Lemma zip_sub3_translate (t : vec3) (c sl : list vec3) :
  zip_with sub3 (map (add3 t) c) (map (add3 t) sl) = zip_with sub3 c sl.
Proof.
  revert sl. induction c as [| a c IH]; intros [| b sl]; try reflexivity.
  simpl. now rewrite sub3_translate, IH.
Qed.

Lemma fold_left_ext_in {A B} (f g : A -> B -> A) (l : list B) (a : A) :
  (forall a b, In b l -> f a b = g a b) ->
  fold_left f l a = fold_left g l a.
Proof.
  revert a. induction l as [| b l IH]; intros a H; [reflexivity |].
  simpl. rewrite (H a b) by now left.
  apply IH. intros a' b' Hb'. apply H. now right.
Qed.

Lemma distance_loop_translate stat (t : vec3) (sls : list (list vec3))
    (n : nat) :
  shift_equivariant stat ->
  Forall (fun sl => length sl = n) sls ->
  distance_loop stat (translate t sls) = distance_loop stat sls.
Proof.
  intros Hstat Hrect.
  destruct sls as [| sl0 sls'] eqn:Hsls; [reflexivity |].
  rewrite <- Hsls in *.
  assert (Hne : sls <> []) by (rewrite Hsls; discriminate).
  assert (Hshape : shape1 sls = n).
  { rewrite Hsls in *. now inversion Hrect. }
  assert (Hshape' : shape1 (translate t sls) = n).
  { rewrite Hsls in *. simpl. rewrite length_map. now inversion Hrect. }
  assert (Hcentre : stat_axis0 stat (translate t sls)
                    = map (add3 t) (stat_axis0 stat sls)).
  { unfold stat_axis0. rewrite Hshape, Hshape', map_map.
    apply map_ext_in. intros i Hi. apply in_seq in Hi.
    apply (center_translate stat t sls n i Hstat Hne Hrect). lia. }
  assert (Hdiff :
    map (fun sl => zip_with sub3 (stat_axis0 stat (translate t sls)) sl)
      (translate t sls)
    = map (fun sl => zip_with sub3 (stat_axis0 stat sls) sl) sls).
  { rewrite Hcentre. unfold translate. rewrite map_map.
    apply map_ext. intros sl. apply zip_sub3_translate. }
  unfold distance_loop. rewrite Hdiff, Hshape, Hshape'.
  replace (length (translate t sls)) with (length sls)
    by (unfold translate; now rewrite length_map).
  apply fold_left_ext_in. intros w i Hi. apply in_seq in Hi.
  rewrite (column_translate t sls n i Hrect) by lia.
  unfold node_distances. now rewrite cov_translate.
Qed.

(** X12.  Moving the whole bundle by a vector [t] changes nothing: with a
    statistic that follows a shift of its sample (as the mean does) the
    distances and the weights of the moved bundle are those of the
    bundle. *)
Theorem gaussian_weights_translation stat (t : vec3)
    (sls : list (list vec3)) (n_nodes : nat) (return_mahalnobis : bool) :
  shift_equivariant stat ->
  sls <> [] ->
  Forall (fun sl => length sl = n_nodes) sls ->
  gaussian_weights (Array3 (translate t sls)) (Z.of_nat n_nodes)
    return_mahalnobis stat
  = gaussian_weights (Array3 sls) (Z.of_nat n_nodes) return_mahalnobis stat.
Proof.
  intros Hstat Hne Hrect.
  pose proof (distance_loop_translate stat t sls n_nodes Hstat Hrect) as HD.
  destruct sls as [| sl0 sls']; [contradiction |].
  assert (Hl : length sl0 = n_nodes) by now inversion Hrect.
  unfold gaussian_weights, needs_resample in *.
  cbn [translate map shape1 bundle_len length] in *.
  subst n_nodes. rewrite !length_map, !Z.eqb_refl. cbn [negb].
  unfold mbind, result_bind, Py.bind, mret, result_ret.
  destruct (Nat.eqb _ _); [reflexivity |]. cbn [unpack_shape].
  unfold translate in HD. cbn [map] in HD. now rewrite HD.
Qed.

End WithResampler.
End WeightsMore.

(* --------------------------------------------------------------------- *)
(** ** The bundle dictionaries: assignment, deletion, construction        *)
(* --------------------------------------------------------------------- *)

Section GeneratedMore.
Import Py Bundles.
Context {A : Afd}.

(** X13.  [append_l_r] keeps the names of [no_lr_list] as they are and
    replaces every other name by its [_L] and [_R] forms: nothing else
    is in the list returned, which is at least as long as the list given
    and at most twice as long. *)
Theorem append_l_r_elem_of (bundle_list no_lr_list : list string)
    (x : string) :
  (x ∈ append_l_r bundle_list no_lr_list <->
   exists bundle,
     bundle ∈ bundle_list
     /\ if str_in bundle no_lr_list then x = bundle
        else x = bundle +:+ "_L" \/ x = bundle +:+ "_R")
  /\ (length bundle_list <= length (append_l_r bundle_list no_lr_list)
      <= 2 * length bundle_list)%nat.
Proof.
  induction bundle_list as [| b rest [IHm IHl]].
  - split; [| simpl; lia]. split.
    + intros H. inversion H.
    + intros (b & Hb & _). inversion Hb.
  - simpl. destruct (str_in b no_lr_list) eqn:Hb.
    + split; [| simpl; lia]. rewrite elem_of_cons, IHm. split.
      * intros [-> | (b' & Hb' & Hx)].
        -- exists b. rewrite Hb. split; [left | reflexivity].
        -- exists b'. split; [now right | exact Hx].
      * intros (b' & Hb' & Hx). apply elem_of_cons in Hb' as [-> | Hb'].
        -- rewrite Hb in Hx. now left.
        -- right. eauto.
    + split; [| simpl; lia]. rewrite !elem_of_cons, IHm. split.
      * intros [-> | [-> | (b' & Hb' & Hx)]].
        -- exists b. rewrite Hb. split; [left | now left].
        -- exists b. rewrite Hb. split; [left | now right].
        -- exists b'. split; [now right | exact Hx].
      * intros (b' & Hb' & Hx). apply elem_of_cons in Hb' as [-> | Hb'].
        -- rewrite Hb in Hx. tauto.
        -- right. right. eauto.
Qed.

Lemma substring_append_l (a b : string) :
  String.substring 0 (String.length a) (a +:+ b) = a.
Proof.
  induction a as [| c a IH]; simpl.
  - now destruct b.
  - now rewrite IH.
Qed.

Lemma substring_all (b : string) :
  String.substring 0 (String.length b) b = b.
Proof. induction b as [| c b IH]; simpl; [reflexivity | now rewrite IH]. Qed.

Lemma substring_append_r (a b : string) :
  String.substring (String.length a) (String.length b) (a +:+ b) = b.
Proof.
  induction a as [| c a IH]; simpl; [apply substring_all | exact IH].
Qed.

Lemma length_append (a b : string) :
  String.length (a +:+ b) = (String.length a + String.length b)%nat.
Proof. induction a as [| c a IH]; simpl; [reflexivity | now rewrite IH]. Qed.

Lemma split_last2 (name hemi : string) :
  String.length hemi = 2%nat ->
  str_but_last2 (name +:+ hemi) = name /\ str_last2 (name +:+ hemi) = hemi.
Proof.
  intros Hh. unfold str_but_last2, str_last2.
  rewrite length_append, Hh.
  replace (String.length name + 2 - 2)%nat with (String.length name) by lia.
  split; [apply substring_append_l |].
  rewrite <- Hh. apply substring_append_r.
Qed.

(** X14.  For a bundle name made of a tract and a two-character
    hemisphere suffix that is neither callosal nor FA or FP, the two
    waypoint ROIs that [gen] looks up are [<tract>_roi1<suffix>] and
    [<tract>_roi2<suffix>]. *)
Theorem roi_names_hemisphere (name hemi : string) :
  String.length hemi = 2%nat ->
  str_in (name +:+ hemi) CALLOSUM_BUNDLES = false ->
  str_in (name +:+ hemi) ["FA"; "FP"] = false ->
  roi_names (name +:+ hemi)
  = (name +:+ "_roi1" +:+ hemi, name +:+ "_roi2" +:+ hemi).
Proof.
  intros Hh Hc Hf. unfold roi_names. rewrite Hc, Hf.
  destruct (split_last2 name hemi Hh) as [-> ->]. reflexivity.
Qed.

(** X15.  [resample_roi] never resamples a definition twice: a second
    call after one that returned changes nothing. *)
Theorem resample_roi_idempotent (key : string) (g g1 : generated) :
  resample_roi key g = (Ok tt, g1) ->
  resample_roi key g1 = (Ok tt, g1).
Proof.
  unfold resample_roi. destruct (truthy (resample_to g)) eqn:Hr.
  - destruct (_dict g !! key) as [[d | v] |] eqn:Hk; try discriminate.
    destruct (match resampled d with
              | Some r => negb (truthy r) | None => true end) eqn:Hd.
    + destruct (resample_def (resample_to g) d) as [d' | e] eqn:Hd';
        [| discriminate].
      intros [= <-]. cbn [set_dict resample_to _dict]. rewrite Hr.
      rewrite lookup_insert_eq.
      unfold resample_def in Hd'.
      destruct (include d); [| discriminate]. injection Hd' as <-.
      reflexivity.
    + intros [= <-]. now rewrite Hr, Hk, Hd.
  - intros [= <-]. now rewrite Hr.
Qed.

Lemma setitem_unfold (key : string) (item : entry image) (g : generated) :
  __setitem__ key item g
  = resample_roi key
      (set_names (fun names => names ++ [key])
         (set_dict (insert key item) g)).
Proof. reflexivity. Qed.

(** What [__setitem__] leaves under the key: the item, or its resampled
    form. *)
Lemma setitem_entry (key : string) (item : entry image) (g g' : generated) r :
  __setitem__ key item g = (r, g') ->
  exists e,
    g' = Generated (<[key := e]> (_dict g)) (bundle_names g ++ [key])
           (resample_to g)
    /\ (truthy (resample_to g) = false -> e = item /\ r = Ok tt)
    /\ (truthy (resample_to g) = true -> r = Ok tt ->
        exists d d',
          item = Def d /\ e = Def d'
          /\ resampled_form (resample_to g) d d').
Proof.
  rewrite setitem_unfold. unfold resample_roi.
  cbn [set_names set_dict resample_to _dict bundle_names].
  rewrite lookup_insert_eq.
  destruct (truthy (resample_to g)) eqn:Hr;
    [| intros [= <- <-]; exists item; split; [reflexivity |];
       split; [auto | discriminate]].
  destruct item as [d | v];
    [| intros [= <- <-]; exists (Atlas v); split; [reflexivity |];
       split; discriminate].
  unfold resampled_form.
  destruct (match resampled d with Some v => truthy v | None => false end)
    eqn:Hdone.
  - replace (match resampled d with
             | Some r0 => negb (truthy r0) | None => true end) with false
      by (destruct (resampled d) as [v |]; [now rewrite Hdone | discriminate]).
    intros [= <- <-]. exists (Def d).
    split; [reflexivity |]. split; [discriminate |].
    intros _ _. exists d, d. rewrite Hdone. auto.
  - replace (match resampled d with
             | Some r0 => negb (truthy r0) | None => true end) with true
      by (destruct (resampled d) as [v |]; [now rewrite Hdone | reflexivity]).
    unfold resample_def. destruct (include d) as [inc |] eqn:Hinc.
    + intros [= <- <-]. eexists. split.
      { unfold set_dict, set_names. cbn [_dict bundle_names resample_to].
        now rewrite insert_insert_eq. }
      split; [discriminate |]. intros _ _.
      eexists d, _. split; [reflexivity |]. split; [reflexivity |].
      rewrite Hdone. split; [eauto |].
      f_equal.
      * now rewrite Hinc.
      * now destruct (exclude d) as [[| x exc] |].
      * destruct (start d) as [v |]; [| reflexivity].
        cbn. now destruct (truthy v).
      * destruct (end_ d) as [v |]; [| reflexivity].
        cbn. now destruct (truthy v).
    + intros [= <- <-]. exists (Def d).
      split; [reflexivity |]. split; discriminate.
Qed.

(** X16.  After an assignment [d[key] = item] that returned, [d[key]]
    gives the item back when no resampling target is set; with a target
    it gives a definition already marked as resampled back as it is, and
    any other with every ['include'] and ['exclude'] ROI and a truthy
    ['start'] and ['end'] resampled to the target, the other fields kept
    and the mark set. *)
Theorem setitem_then_getitem (key : string) (item : entry image)
    (g g' : generated) :
  __setitem__ key item g = (Ok tt, g') ->
  exists e,
    generated_getitem key g' = (Ok e, g')
    /\ (truthy (resample_to g) = false -> e = item)
    /\ (truthy (resample_to g) = true ->
        exists d d',
          item = Def d /\ e = Def d'
          /\ resampled_form (resample_to g) d d').
Proof.
  intros Hset.
  destruct (setitem_entry key item g g' _ Hset) as (e & -> & Hoff & Hon).
  exists e. split.
  - unfold generated_getitem. cbn [_dict]. now rewrite lookup_insert_eq.
  - split; [intros H; now apply Hoff | intros H; now apply Hon].
Qed.

Lemma remove_first_app (x : string) (l l' : list string) :
  x ∈ l -> remove_first x (l ++ l') = remove_first x l ++ l'.
Proof.
  induction l as [| y l IH]; intros Hx; [inversion Hx |].
  simpl. destruct (String.eqb_spec x y) as [-> | Hne]; [reflexivity |].
  apply elem_of_cons in Hx as [-> | Hx]; [contradiction |].
  now rewrite IH.
Qed.


Lemma str_in_app_last (x : string) (l : list string) :
  str_in x (l ++ [x]) = true.
Proof.
  apply str_in_elem_of, elem_of_app. right. apply list_elem_of_singleton.
  reflexivity.
Qed.


(** X18.  Once a key that is present has been assigned again, deleting it
    returns but leaves the name behind: the key is gone from the
    dictionary and still in [bundle_names], and a second [del] raises the
    RuntimeError of a name without an entry. *)
Theorem overwrite_then_delete_leaves_name (key : string)
    (item : entry image) (g g1 : generated) r :
  consistent g ->
  is_Some (_dict g !! key) ->
  __setitem__ key item g = (r, g1) ->
  exists g2,
    __delitem__ key g1 = (Ok tt, g2)
    /\ _dict g2 !! key = None
    /\ key ∈ bundle_names g2
    /\ __len__ g2 = __len__ g
    /\ __delitem__ key g2
       = (Raise (RuntimeError
            (key +:+ " not found in internal dictionary, "
                 +:+ "but found in bundle_names")), g2).
Proof.
  intros [Hnd Hkeys] Hhas Hset.
  assert (Hin : key ∈ bundle_names g) by now apply Hkeys.
  destruct (setitem_entry key item g g1 _ Hset) as (e & -> & _).
  eexists. split.
  { unfold __delitem__, has_key. cbn [_dict bundle_names set_dict].
    rewrite lookup_insert_eq.
    rewrite bool_decide_eq_true_2 by eauto. cbn [negb andb].
    rewrite str_in_app_last. reflexivity. }
  unfold set_names, set_dict. cbn [_dict bundle_names resample_to].
  rewrite remove_first_app by exact Hin.
  split; [apply lookup_delete_eq |].
  split; [apply elem_of_app; right; now apply list_elem_of_singleton |].
  split.
  { unfold __len__. cbn [bundle_names]. rewrite length_app. simpl.
    clear -Hin. induction (bundle_names g) as [| y l IH]; [inversion Hin |].
    simpl. destruct (String.eqb_spec key y) as [-> | Hne]; [lia |].
    apply elem_of_cons in Hin as [-> | Hin]; [contradiction |].
    specialize (IH Hin). simpl. lia. }
  unfold __delitem__, has_key. cbn [_dict bundle_names].
  rewrite lookup_delete_eq.
  rewrite bool_decide_eq_false_2 by (intros [? ?]; discriminate).
  cbn [negb andb].
  assert (Hs : str_in key (remove_first key (bundle_names g) ++ [key]) = true)
    by apply str_in_app_last.
  rewrite Hs. reflexivity.
Qed.

End GeneratedMore.
Section BundleDictMore.
Import Py Bundles.
Context {A : Afd}.

Lemma setitem_result (key : string) (item : entry image) (g : generated) :
  fst (__setitem__ key item g)
  = (if truthy (resample_to g) && unfit item
     then Raise (KeyError "include") else Ok tt)
  /\ resample_to (snd (__setitem__ key item g)) = resample_to g
  /\ dom (_dict (snd (__setitem__ key item g))) = {[key]} ∪ dom (_dict g).
Proof.
  destruct (__setitem__ key item g) as [r g'] eqn:Hset.
  pose proof (setitem_state key item g g' r Hset) as [_ Hdom].
  split; [| split; [| exact Hdom]]; revert Hset;
    change (__setitem__ key item g)
      with (resample_roi key
              (set_names (fun names => names ++ [key])
                 (set_dict (insert key item) g)));
    unfold resample_roi;
    cbn [set_names set_dict resample_to _dict bundle_names fst snd];
    rewrite lookup_insert_eq;
    destruct (truthy (resample_to g)); cbn [andb];
    try (intros [= <- <-]; reflexivity);
    destruct item as [d | v]; cbn [unfit];
    try (intros [= <- <-]; reflexivity);
    unfold resample_def;
    destruct (include d), (resampled d) as [v |];
    try destruct (truthy v); cbn [negb];
    intros [= <- <-]; reflexivity.
Qed.

Lemma set_items_result (items : list (string * entry image)) :
  forall g,
    fst (set_items items g)
    = (if truthy (resample_to g) && existsb (fun ki => unfit ki.2) items
       then Raise (KeyError "include") else Ok tt)
    /\ resample_to (snd (set_items items g)) = resample_to g
    /\ (fst (set_items items g) = Ok tt ->
        dom (_dict (snd (set_items items g)))
        = list_to_set items.*1 ∪ dom (_dict g)).
Proof.
  induction items as [| [key item] rest IH]; intros g.
  - cbn. rewrite andb_false_r. split; [reflexivity |].
    split; [reflexivity |]. intros _. now rewrite union_empty_l_L.
  - cbn [set_items existsb snd fmap list_fmap list_to_set].
    unfold_m.
    destruct (setitem_result key item g) as (Hr & Ht & Hd).
    destruct (__setitem__ key item g) as [[[] | e] g1]; cbn [fst snd] in *.
    + destruct (IH g1) as (IHr & IHt & IHd).
      rewrite IHr, IHt, Ht. split.
      * destruct (truthy (resample_to g)); [| reflexivity].
        cbn [andb] in *. destruct (unfit item); [discriminate | reflexivity].
      * split; [reflexivity |]. intros Hok.
        rewrite <- Ht, <- IHr in Hok. rewrite (IHd Hok), Hd.
        cbn. apply set_eq. intros x. rewrite !elem_of_union. tauto.
    + split; [| split; [exact Ht |]].
      * destruct (truthy (resample_to g)); [| discriminate].
        cbn [andb] in *. destruct (unfit item); [exact Hr | discriminate].
      * discriminate.
Qed.

(** X19.  Built from a dict of definitions, a [BundleDict] resamples each
    item as it is assigned.  The constructor raises [KeyError 'include']
    exactly when a resampling target is in force (an image, or [None],
    which stands for the MNI template) and some item has no ['include']
    key and is not marked as resampled; otherwise it returns a dictionary
    whose keys are those of the dict given, with no template loaded. *)
Theorem init_from_dict (items : list (string * entry image)) (seg : string)
    (r : value image) :
  let target :=
    match r with VNone => VObj read_mni_template | other => other end in
  if truthy target && existsb (fun ki => unfit ki.2) items
  then BundleDict_init (InfoDict items) seg r = Raise (KeyError "include")
  else exists b,
         BundleDict_init (InfoDict items) seg r = Ok b
         /\ resample_to (base b) = target
         /\ seg_algo b = lower seg
         /\ templates_loaded b = false
         /\ forall k, is_Some (_dict (base b) !! k) <-> k ∈ items.*1.
Proof.
  intros target. unfold BundleDict_init. fold target.
  destruct (set_items_result items (Generated ∅ [] target)) as (Hr & Ht & Hd).
  destruct (set_items items (Generated ∅ [] target)) as [res g1].
  cbn [fst snd resample_to] in *. rewrite Hr in *.
  destruct (truthy target && existsb (fun ki => unfit ki.2) items);
    [reflexivity |].
  specialize (Hd eq_refl).
  eexists. split; [reflexivity |].
  assert (Hk : forall k, is_Some (_dict g1 !! k) <-> k ∈ items.*1).
  { intros k. rewrite <- elem_of_dom, Hd. cbn [_dict].
    now rewrite dom_empty_L, union_empty_r_L, elem_of_list_to_set. }
  destruct (String.eqb (lower seg) "afq"); cbn; auto.
Qed.

Lemma drop_step (x y k : string) (l : list string) :
  NoDup l ->
  let l' := if str_in x l && str_in y l then remove_first x l else l in
  NoDup l' /\ (k ∈ l' <-> k ∈ l /\ ~ (k = x /\ y ∈ l)).
Proof.
  intros Hnd l'. subst l'.
  destruct (str_in x l) eqn:Hx, (str_in y l) eqn:Hy; cbn [andb].
  - apply str_in_elem_of in Hy. split; [now apply remove_first_NoDup |].
    rewrite remove_first_elem_of by exact Hnd. tauto.
  - split; [exact Hnd |].
    assert (y ∉ l) by (rewrite <- str_in_elem_of; congruence). tauto.
  - split; [exact Hnd |].
    assert (Hx' : x ∉ l) by (rewrite <- str_in_elem_of; congruence).
    split; [| tauto]. intros Hk. split; [exact Hk |].
    intros [-> _]. contradiction.
  - split; [exact Hnd |].
    assert (y ∉ l) by (rewrite <- str_in_elem_of; congruence). tauto.
Qed.

Lemma drop_colocated_elem_of (names : list string) (k : string) :
  NoDup names ->
  (k ∈ drop_colocated names <->
   k ∈ names
   /\ ~ (k = "FP" /\ "Occipital" ∈ names)
   /\ ~ (k = "FA" /\ ("Orbital" ∈ names \/ "AntFrontal" ∈ names))).
Proof.
  intros Hnd. unfold drop_colocated.
  set (l1 := if str_in "FP" names && str_in "Occipital" names
             then remove_first "FP" names else names).
  set (l2 := if str_in "FA" l1 && str_in "Orbital" l1
             then remove_first "FA" l1 else l1).
  destruct (drop_step "FP" "Occipital" k names Hnd) as [Hnd1 Hk1].
  destruct (drop_step "FP" "Occipital" "Orbital" names Hnd) as [_ Ho1].
  destruct (drop_step "FP" "Occipital" "AntFrontal" names Hnd) as [_ Ha1].
  fold l1 in Hnd1, Hk1, Ho1, Ha1.
  destruct (drop_step "FA" "Orbital" k l1 Hnd1) as [Hnd2 Hk2].
  destruct (drop_step "FA" "Orbital" "AntFrontal" l1 Hnd1) as [_ Ha2].
  fold l2 in Hnd2, Hk2, Ha2.
  destruct (drop_step "FA" "AntFrontal" k l2 Hnd2) as [_ Hk3].
  cbv zeta in *. rewrite Hk3, Hk2, Hk1, Ha2, Ha1, Ho1.
  assert ("Orbital" <> "FP") by discriminate.
  assert ("AntFrontal" <> "FP") by discriminate.
  assert ("AntFrontal" <> "FA") by discriminate.
  assert ("FA" <> "FP") by discriminate.
  tauto.
Qed.

(** X20.  Built from a list of names without repetition, a [BundleDict]
    keeps every name unless the algorithm, lower-cased, is ["afq"]; then
    it drops ["FP"] when ["Occipital"] is listed and ["FA"] when
    ["Orbital"] or ["AntFrontal"] is, and nothing else. *)
Theorem init_drops_colocated (names : list string) (seg : string)
    (r : value image) (b : bundle_dict) :
  NoDup names ->
  BundleDict_init (InfoList names) seg r = Ok b ->
  (lower seg <> "afq" -> bundle_names (base b) = names)
  /\ (lower seg = "afq" ->
      forall k,
        k ∈ bundle_names (base b) <->
        k ∈ names
        /\ ~ (k = "FP" /\ "Occipital" ∈ names)
        /\ ~ (k = "FA" /\ ("Orbital" ∈ names \/ "AntFrontal" ∈ names))).
Proof.
  intros Hnd. unfold BundleDict_init. rewrite add_names_ok.
  destruct (String.eqb_spec (lower seg) "afq") as [Hafq | Hne];
    intros [= <-]; cbn [base set_names bundle_names app].
  - split; [contradiction |]. intros _ k.
    now apply drop_colocated_elem_of.
  - split; [reflexivity | contradiction].
Qed.

Lemma gen_stores (bundle_name : string) (b b' : bundle_dict) :
  seg_algo b = "afq" \/ startswith "reco" (seg_algo b) = true ->
  gen bundle_name b = (Ok tt, b') ->
  is_Some (_dict (base b') !! bundle_name).
Proof.
  intros Halgo. rewrite gen_unfold.
  destruct (ensure_loaded b) as [r1 b1] eqn:Hload.
  apply ensure_loaded_frame in Hload as (_ & Hseg & _).
  rewrite <- Hseg in Halgo.
  destruct r1 as [[] | e]; [| discriminate].
  destruct (String.eqb (seg_algo b1) "afq") eqn:Hafq.
  - destruct (afq_definition (templates b1) bundle_name) as [d | e];
      [| discriminate].
    intros Hlift. apply lift_base in Hlift as (Hroi & _).
    apply resample_roi_keys in Hroi as [_ Hdom].
    apply elem_of_dom. rewrite Hdom.
    unfold set_base, set_dict. cbn [base _dict]. rewrite dom_insert_L.
    apply elem_of_union_l, elem_of_singleton. reflexivity.
  - destruct Halgo as [Ha | Hreco];
      [rewrite Ha in Hafq; discriminate |].
    rewrite Hreco.
    destruct (index (templates b1) bundle_name) as [v | e]; [| discriminate].
    intros [= <-]. cbn. rewrite lookup_insert_eq. eauto.
Qed.

Lemma gen_each_generates (names : list string) :
  forall b b',
    seg_algo b = "afq" \/ startswith "reco" (seg_algo b) = true ->
    gen_each names b = (Ok tt, b') ->
    seg_algo b' = seg_algo b
    /\ bundle_names (base b') = bundle_names (base b)
    /\ (forall k, k ∈ names -> is_Some (_dict (base b') !! k))
    /\ (forall k e, _dict (base b) !! k = Some e ->
                    _dict (base b') !! k = Some e).
Proof.
  induction names as [| name rest IH]; intros b b' Halgo.
  - intros [= <-]. split; [reflexivity |]. split; [reflexivity |].
    split; [intros k Hk; inversion Hk | auto].
  - cbn [gen_each]. unfold_m.
    destruct (has_key name (base b)) eqn:Hhas.
    + intros Hrest.
      destruct (IH b b' Halgo Hrest) as (Hs & Hn & Hall & Hkeep).
      split; [exact Hs |]. split; [exact Hn |]. split; [| exact Hkeep].
      intros k Hk. apply elem_of_cons in Hk as [-> | Hk]; [| now apply Hall].
      apply has_key_spec in Hhas as [e He]. rewrite (Hkeep _ _ He). eauto.
    + destruct (gen name b) as [[[] | e] b1] eqn:Hgen; [| discriminate].
      intros Hrest.
      pose proof (gen_stores name b b1 Halgo Hgen) as [e1 He1].
      apply gen_frame in Hgen as (Hs1 & Hn1 & Hother & _).
      assert (Halgo1 : seg_algo b1 = "afq"
                       \/ startswith "reco" (seg_algo b1) = true)
        by now rewrite Hs1.
      destruct (IH b1 b' Halgo1 Hrest) as (Hs & Hn & Hall & Hkeep).
      split; [congruence |]. split; [congruence |]. split.
      * intros k Hk. apply elem_of_cons in Hk as [-> | Hk];
          [| now apply Hall].
        rewrite (Hkeep _ _ He1). eauto.
      * intros k e Hk. apply Hkeep. rewrite Hother; [exact Hk |].
        intros ->. apply has_key_false in Hhas. congruence.
Qed.

(** X21.  When [gen_all] returns, under waypoint ROIs or Recobundles,
    every name of [bundle_names] has an entry, the entries that were
    there are untouched and [bundle_names] is as it was. *)
Theorem gen_all_generates_every_name (b b' : bundle_dict) :
  seg_algo b = "afq" \/ startswith "reco" (seg_algo b) = true ->
  gen_all b = (Ok tt, b') ->
  bundle_names (base b') = bundle_names (base b)
  /\ (forall k, k ∈ bundle_names (base b) ->
                is_Some (_dict (base b') !! k))
  /\ (forall k e, _dict (base b) !! k = Some e ->
                  _dict (base b') !! k = Some e).
Proof.
  intros Halgo Hall.
  destruct (gen_each_generates (bundle_names (base b)) b b' Halgo Hall)
    as (_ & Hn & Hk & Hkeep).
  auto.
Qed.

Lemma load_templates_invalid (b : bundle_dict) :
  seg_algo b <> "afq" ->
  startswith "reco" (seg_algo b) = false ->
  load_templates b
  = (Raise (ValueError
       ("Input: " +:+ seg_algo b +:+ " is not a valid input`seg_algo`")), b).
Proof.
  intros Hne Hreco. unfold load_templates. unfold_m.
  destruct (String.eqb_spec (seg_algo b) "afq") as [| _]; [contradiction |].
  now rewrite Hreco.
Qed.

(** X22.  The constructor accepts any [seg_algo]: one that is neither
    ["afq"] nor starts with ["reco"] (in lower case) is only reported by
    the first lookup, which raises the ValueError of [load_templates] and
    leaves the dictionary as it was. *)
Theorem invalid_seg_algo_raises_on_access (names : list string)
    (seg : string) (r : value image) (key : string) :
  lower seg <> "afq" ->
  startswith "reco" (lower seg) = false ->
  exists b,
    BundleDict_init (InfoList names) seg r = Ok b
    /\ seg_algo b = lower seg
    /\ __getitem__ key b
       = (Raise (ValueError
            ("Input: " +:+ lower seg
               +:+ " is not a valid input`seg_algo`")), b).
Proof.
  intros Hne Hreco. unfold BundleDict_init. rewrite add_names_ok.
  destruct (String.eqb_spec (lower seg) "afq") as [| _]; [contradiction |].
  eexists. split; [reflexivity |]. split; [reflexivity |].
  match goal with |- __getitem__ key ?b0 = _ => set (b := b0) end.
  assert (Hkey : has_key key (base b) = false).
  { apply has_key_false. apply lookup_empty. }
  unfold __getitem__. unfold_m. rewrite Hkey, gen_unfold.
  unfold ensure_loaded. unfold_m.
  change (templates_loaded b) with false. cbv iota.
  now rewrite (load_templates_invalid b Hne Hreco).
Qed.

(** X23.  The templates that [load_templates] leaves under waypoint ROIs:
    for each key the end-point template of [bundles_to_aal] if there is
    one, else the callosal template if there is one, else the template
    read by [read_templates], where the four arcuate ROIs are those of
    the SLF. *)
Theorem load_templates_precedence (b b' : bundle_dict) (k : string) :
  seg_algo b = "afq" ->
  load_templates b = (Ok tt, b') ->
  let target := resample_to (base b) in
  let source :=
    if String.eqb k "ARC_roi2_R" then "SLFt_roi2_R"
    else if String.eqb k "ARC_roi2_L" then "SLFt_roi2_L"
    else if String.eqb k "ARC_roi1_R" then "SLF_roi1_R"
    else if String.eqb k "ARC_roi1_L" then "SLF_roi1_L"
    else k in
  templates b' !! k
  = match bundles_to_aal (bundle_names (base b)) !! k with
    | Some v => Some v
    | None =>
        match read_callosum_templates target !! k with
        | Some v => Some v
        | None => read_templates target !! source
        end
    end.
Proof.
  intros Hafq Hload target source. revert Hload.
  unfold load_templates, alias, index. unfold_m.
  rewrite Hafq. cbn [String.eqb Ascii.eqb Bool.eqb].
  unfold set_templates, count_read, set_loaded.
  cbn [base seg_algo templates_loaded templates reads].
  set (t0 := read_templates (resample_to (base b))).
  destruct (t0 !! "SLF_roi1_L") as [v1 |] eqn:H1; [| discriminate].
  cbn [base seg_algo templates_loaded templates reads].
  rewrite lookup_insert_ne by discriminate.
  destruct (t0 !! "SLF_roi1_R") as [v2 |] eqn:H2; [| discriminate].
  cbn [base seg_algo templates_loaded templates reads].
  rewrite !lookup_insert_ne by discriminate.
  destruct (t0 !! "SLFt_roi2_L") as [v3 |] eqn:H3; [| discriminate].
  cbn [base seg_algo templates_loaded templates reads].
  rewrite !lookup_insert_ne by discriminate.
  destruct (t0 !! "SLFt_roi2_R") as [v4 |] eqn:H4; [| discriminate].
  cbn [base seg_algo templates_loaded templates reads].
  intros [= <-]. cbn [templates]. fold target.
  destruct (bundles_to_aal (bundle_names (base b)) !! k) as [v |] eqn:He.
  { now apply lookup_union_Some_l. }
  rewrite lookup_union_r by exact He.
  destruct (read_callosum_templates target !! k) as [v |] eqn:Hc.
  { apply lookup_union_Some_l. exact Hc. }
  rewrite lookup_union_r by exact Hc.
  subst source.
  destruct (String.eqb_spec k "ARC_roi2_R") as [-> | N4].
  { rewrite lookup_insert_eq. symmetry. exact H4. }
  rewrite lookup_insert_ne by congruence.
  destruct (String.eqb_spec k "ARC_roi2_L") as [-> | N3].
  { rewrite lookup_insert_eq. symmetry. exact H3. }
  rewrite lookup_insert_ne by congruence.
  destruct (String.eqb_spec k "ARC_roi1_R") as [-> | N2].
  { rewrite lookup_insert_eq. symmetry. exact H2. }
  rewrite lookup_insert_ne by congruence.
  destruct (String.eqb_spec k "ARC_roi1_L") as [-> | N1].
  { rewrite lookup_insert_eq. symmetry. exact H1. }
  now rewrite lookup_insert_ne by congruence.
Qed.

(** X24.  Under Recobundles the first lookup of a name reads the atlas
    once, the 80-bundle atlas if the algorithm's name ends in ["80"] and
    the 16-bundle atlas otherwise, and returns the atlas entry of the
    name as it is, without resampling; a name that the atlas does not
    have raises [KeyError] with the atlas loaded and nothing stored. *)
Theorem getitem_recobundles (key : string) (b : bundle_dict) :
  startswith "reco" (seg_algo b) = true ->
  templates_loaded b = false ->
  _dict (base b) !! key = None ->
  let atlas :=
    read_hcp_atlas (if endswith "80" (seg_algo b) then 80 else 16) in
  let loaded :=
    BundleDictState (base b) (seg_algo b) true atlas (S (reads b)) in
  __getitem__ key b
  = match atlas !! key with
    | Some v =>
        (Ok (Atlas v), set_base (set_dict (insert key (Atlas v))) loaded)
    | None => (Raise (KeyError key), loaded)
    end.
Proof.
  intros Hreco Hload Hkey atlas loaded.
  assert (Hafq : String.eqb (seg_algo b) "afq" = false).
  { destruct (String.eqb_spec (seg_algo b) "afq") as [Heq | _];
      [| reflexivity].
    rewrite Heq in Hreco. discriminate. }
  assert (Hl : load_templates b = (Ok tt, loaded)).
  { unfold load_templates. unfold_m. rewrite Hafq, Hreco.
    unfold loaded, atlas.
    now destruct (endswith "80" (seg_algo b)). }
  unfold __getitem__. unfold_m.
  rewrite (proj2 (has_key_false key (base b)) Hkey).
  rewrite gen_unfold. unfold ensure_loaded. unfold_m.
  rewrite Hload, Hl.
  cbn [seg_algo templates loaded]. rewrite Hafq, Hreco.
  unfold index. fold atlas.
  destruct (atlas !! key) as [v |]; [| reflexivity].
  rewrite lift_getitem. cbn. now rewrite lookup_insert_eq.
Qed.

End BundleDictMore.

(* --------------------------------------------------------------------- *)
(** ** The further properties on the examples                             *)
(* --------------------------------------------------------------------- *)

Section TrackingMoreInstances.
Import Tracking Examples.



Lemma yielded_item_holds_its_seed_witness :
  (tracker_contract (T := line_tracker)
   /\ _verbose_generate_tractogram (T := line_tracker) line_config tt
      = Py.Ok line_yields)
  /\ Forall
       (fun it =>
          exists s0 sl,
            In s0 (seeds line_config)
            /\ In (to_voxel s0) sl
            /\ it = if save_seeds line_config
                    then WithSeed sl (to_voxel s0)
                    else @Streamline line_tracker sl)
       line_yields.
Proof.
  split; [split; [exact line_tracker_contract | exact line_run] |].
  exact (yielded_item_holds_its_seed (T := line_tracker)
           line_config tt line_yields line_tracker_contract line_run).
Defined.

Lemma yields_need_valid_stops_witness :
  (return_all line_config = false
   /\ _verbose_generate_tractogram (T := line_tracker) line_config tt
      = Py.Ok line_yields)
  /\ Forall
       (fun it =>
          exists s0 first_step F B w0 stepsF stF F1 w1 stepsB stB B1 w2,
            In s0 (seeds line_config)
            /\ run_tracker (to_voxel s0) first_step F w0
               = (stepsF, stF, F1, w1)
            /\ run_tracker (to_voxel s0) (neg first_step) B w1
               = (stepsB, stB, B1, w2)
            /\ (stF = ENDPOINT \/ stF = OUTSIDEIMAGE)
            /\ (stB = ENDPOINT \/ stB = OUTSIDEIMAGE)
            /\ points it = stitch stepsF stepsB F1 B1)
       line_yields.
Proof.
  assert (H1 : return_all line_config = false) by reflexivity.
  split; [split; [exact H1 | exact line_run] |].
  exact (yields_need_valid_stops (T := line_tracker)
           line_config tt line_yields H1 line_run).
Defined.

Lemma yields_bounded_by_max_cross_witness :
  (max_cross single_cross_config = Some 1%Z
   /\ (1 <= 1)%Z
   /\ _verbose_generate_tractogram (T := line_tracker) single_cross_config tt
      = Py.Ok line_yields)
  /\ (length line_yields
      <= length (seeds single_cross_config) * Z.to_nat 1)%nat.
Proof.
  assert (H1 : max_cross single_cross_config = Some 1%Z) by reflexivity.
  assert (H2 : (1 <= 1)%Z) by lia.
  assert (H3 : _verbose_generate_tractogram (T := line_tracker)
                 single_cross_config tt = Py.Ok line_yields)
    by reflexivity.
  split; [auto |].
  exact (yields_bounded_by_max_cross (T := line_tracker)
           single_cross_config tt line_yields 1 H1 H2 H3).
Defined.

End TrackingMoreInstances.

Section NumericMoreInstances.
Import Numeric Examples.
Local Open Scope R_scope.
Existing Instance exact_rank.

Lemma tensor_odf_values_witness :
  (1 <= 3)%Z
  /\ exists odf,
       tensor_odf unit_volume two_vertices 3 = Py.Ok odf
       /\ length odf = length unit_volume
       /\ Forall (fun row => length row = length two_vertices) odf
       /\ forall i v k vertex,
            unit_volume !! i = Some v -> two_vertices !! k = Some vertex ->
            exists row,
              odf !! i = Some row
              /\ row !! k
                 = Some (if in_mask v
                         then odf_value v (proj_norm_at vertex v)
                         else Fin 0).
Proof.
  assert (H : (1 <= 3)%Z) by lia.
  split; [exact H |].
  exact (tensor_odf_values unit_volume two_vertices 3 H).
Defined.

Lemma tensor_odf_antipodal_witness :
  (1 <= 3)%Z
  /\ tensor_odf unit_volume (map neg3 two_vertices) 3
     = tensor_odf unit_volume two_vertices 3.
Proof.
  assert (H : (1 <= 3)%Z) by lia.
  split; [exact H |].
  exact (tensor_odf_antipodal unit_volume two_vertices 3 H).
Defined.

Lemma tensor_odf_isotropic_witness :
  ((1 <= 3)%Z
   /\ unit_volume !! 0%nat = Some (Voxel (V3 1 1 1) ident3)
   /\ two_vertices !! 0%nat = Some (V3 1 0 0)
   /\ 0 < 1
   /\ matmul ident3 (transpose3 ident3) = ident3
   /\ vx (V3 1 0 0) * vx (V3 1 0 0) + vy (V3 1 0 0) * vy (V3 1 0 0)
      + vz (V3 1 0 0) * vz (V3 1 0 0) = 1)
  /\ exists odf row,
       tensor_odf unit_volume two_vertices 3 = Py.Ok odf
       /\ odf !! 0%nat = Some row
       /\ row !! 0%nat = Some (Fin (/ (4 * PI))).
Proof.
  assert (H1 : (1 <= 3)%Z) by lia.
  assert (H2 : unit_volume !! 0%nat = Some (Voxel (V3 1 1 1) ident3))
    by reflexivity.
  assert (H3 : two_vertices !! 0%nat = Some (V3 1 0 0)) by reflexivity.
  assert (H4 : 0 < 1) by lra.
  assert (H5 : matmul ident3 (transpose3 ident3) = ident3).
  { unfold matmul, transpose3, ident3. simpl. f_equal; lra. }
  assert (H6 : vx (V3 1 0 0) * vx (V3 1 0 0) + vy (V3 1 0 0) * vy (V3 1 0 0)
               + vz (V3 1 0 0) * vz (V3 1 0 0) = 1)
    by (simpl; lra).
  split; [auto 10 |].
  exact (tensor_odf_isotropic unit_volume two_vertices 3 0 0 1 ident3
           (V3 1 0 0) H1 H2 H3 H4 H5 H6).
Defined.

Lemma tensor_odf_negative_batches_witness :
  (-2 < -1)%Z
  /\ tensor_odf unit_volume two_vertices (-2)
     = Py.Ok (map (fun v => if in_mask v
                            then repeat PInf (length two_vertices)
                            else repeat (Fin 0) (length two_vertices))
                unit_volume).
Proof.
  assert (H : (-2 < -1)%Z) by lia.
  split; [exact H |].
  exact (tensor_odf_negative_batches unit_volume two_vertices (-2) H).
Defined.

Lemma corner_bundle_shape :
  (2 <= length corner_bundle)%nat
  /\ Forall (fun sl : list vec3 => length sl = 1%nat) corner_bundle.
Proof. split; [simpl; lia | repeat constructor]. Qed.

Lemma gaussian_weights_shape_witness :
  ((2 <= length corner_bundle)%nat
   /\ Forall (fun sl : list vec3 => length sl = 1%nat) corner_bundle)
  /\ exists W,
       gaussian_weights (RS := keep_points) (Array3 corner_bundle)
         (Z.of_nat 1) false mean
       = Py.Ok (Mat W)
       /\ length W = length corner_bundle
       /\ Forall (fun row => length row = 1%nat) W.
Proof.
  split; [exact corner_bundle_shape |].
  exact (gaussian_weights_shape (RS := keep_points) mean corner_bundle 1 false
           (proj1 corner_bundle_shape) (proj2 corner_bundle_shape)).
Defined.

Lemma gaussian_weights_distance_range_witness :
  ((2 <= length corner_bundle)%nat
   /\ Forall (fun sl : list vec3 => length sl = 1%nat) corner_bundle)
  /\ exists W,
       gaussian_weights (RS := keep_points) (Array3 corner_bundle)
         (Z.of_nat 1) true mean
       = Py.Ok (Mat W)
       /\ Forall (Forall (fun x => x = NaN \/ exists r, x = Fin r /\ 0 <= r))
            W.
Proof.
  split; [exact corner_bundle_shape |].
  exact (gaussian_weights_distance_range (RS := keep_points)
           mean corner_bundle 1
           (proj1 corner_bundle_shape) (proj2 corner_bundle_shape)).
Defined.

Lemma centred_cov :
  triu (cov (column zero3 centred_bundle 0))
  = M3 (2 / 3) (2 / 3) (2 / 3) 0 (2 / 3) (2 / 3) 0 0 (2 / 3).
Proof.
  unfold triu, cov, cov_entry, mean, column, centred_bundle. simpl.
  f_equal; lra.
Qed.

Lemma centred_center : center_at mean centred_bundle 0 = V3 0 0 0.
Proof.
  unfold center_at, mean, column, centred_bundle. simpl. f_equal; lra.
Qed.

Lemma centred_form (p : vec3) :
  quad (sub3 (center_at mean centred_bundle 0) p)
    (inv3 (triu (cov (column zero3 centred_bundle 0))))
  = 3 / 2 * (vx p * vx p + (vy p - vx p) * vy p + (vz p - vy p) * vz p).
Proof.
  rewrite centred_cov, centred_center.
  unfold quad, vecmat, inv3, det3, sub3. simpl. field.
Qed.

Lemma gaussian_weights_zero_distance_witness :
  ((2 <= length centred_bundle)%nat
   /\ Forall (fun sl : list vec3 => length sl = 1%nat) centred_bundle
   /\ (0 < 1)%nat
   /\ full_rank (triu (cov (column zero3 centred_bundle 0))) = true
   /\ (forall sl, In sl centred_bundle ->
         0 <= quad (sub3 (center_at mean centred_bundle 0) (nth 0 sl zero3))
                (inv3 (triu (cov (column zero3 centred_bundle 0)))))
   /\ centred_bundle !! 0%nat = Some [V3 0 0 0]
   /\ quad (sub3 (center_at mean centred_bundle 0) (nth 0 [V3 0 0 0] zero3))
        (inv3 (triu (cov (column zero3 centred_bundle 0)))) = 0)
  /\ exists W,
       gaussian_weights (RS := keep_points) (Array3 centred_bundle)
         (Z.of_nat 1) false mean
       = Py.Ok (Mat W)
       /\ forall j sl, centred_bundle !! j = Some sl ->
            exists row,
              W !! j = Some row
              /\ row !! 0%nat
                 = Some (if is_zero
                              (quad (sub3 (center_at mean centred_bundle 0)
                                       (nth 0 sl zero3))
                                 (inv3 (triu (cov (column zero3
                                                     centred_bundle 0)))))
                         then NaN else Fin 0).
Proof.
  assert (H1 : (2 <= length centred_bundle)%nat) by (simpl; lia).
  assert (H2 : Forall (fun sl : list vec3 => length sl = 1%nat)
                 centred_bundle)
    by (repeat constructor).
  assert (H3 : (0 < 1)%nat) by lia.
  assert (H4 : full_rank (triu (cov (column zero3 centred_bundle 0))) = true).
  { apply exact_full_rank. rewrite centred_cov. unfold det3. simpl. lra. }
  assert (H5 : forall sl, In sl centred_bundle ->
            0 <= quad (sub3 (center_at mean centred_bundle 0)
                         (nth 0 sl zero3))
                   (inv3 (triu (cov (column zero3 centred_bundle 0))))).
  { intros sl [<- | [<- | [<- | []]]]; rewrite centred_form; simpl; lra. }
  assert (H6 : centred_bundle !! 0%nat = Some [V3 0 0 0]) by reflexivity.
  assert (H7 : quad (sub3 (center_at mean centred_bundle 0)
                       (nth 0 [V3 0 0 0] zero3))
                 (inv3 (triu (cov (column zero3 centred_bundle 0)))) = 0).
  { rewrite centred_form. simpl. lra. }
  split; [auto 10 |].
  exact (gaussian_weights_zero_distance (RS := keep_points) mean
           centred_bundle 1 0 0 [V3 0 0 0] H1 H2 H3 H4 H5 H6 H7).
Defined.

Lemma gaussian_weights_translation_witness :
  (shift_equivariant mean
   /\ corner_bundle <> []
   /\ Forall (fun sl : list vec3 => length sl = 1%nat) corner_bundle)
  /\ gaussian_weights (RS := keep_points)
       (Array3 (translate (V3 1 2 3) corner_bundle)) (Z.of_nat 1) false mean
     = gaussian_weights (RS := keep_points) (Array3 corner_bundle)
         (Z.of_nat 1) false mean.
Proof.
  assert (H2 : corner_bundle <> []) by discriminate.
  split; [split; [exact mean_shift_equivariant |];
          split; [exact H2 | exact (proj2 corner_bundle_shape)] |].
  exact (gaussian_weights_translation (RS := keep_points) mean (V3 1 2 3)
           corner_bundle 1 false mean_shift_equivariant H2
           (proj2 corner_bundle_shape)).
Defined.

End NumericMoreInstances.

Section BundleMoreInstances.
Import Py Bundles Examples.

Lemma roi_names_hemisphere_witness :
  (String.length "_L" = 2%nat
   /\ str_in ("CST" +:+ "_L") CALLOSUM_BUNDLES = false
   /\ str_in ("CST" +:+ "_L") ["FA"; "FP"] = false)
  /\ roi_names ("CST" +:+ "_L")
     = ("CST" +:+ "_roi1" +:+ "_L", "CST" +:+ "_roi2" +:+ "_L").
Proof.
  assert (H1 : String.length "_L" = 2%nat) by reflexivity.
  assert (H2 : str_in ("CST" +:+ "_L") CALLOSUM_BUNDLES = false)
    by reflexivity.
  assert (H3 : str_in ("CST" +:+ "_L") ["FA"; "FP"] = false) by reflexivity.
  split; [auto |].
  exact (roi_names_hemisphere "CST" "_L" H1 H2 H3).
Defined.

Lemma or_bundle_resample :
  resample_roi (A := named_images) "L_OR" or_bundle
  = (Ok tt, or_bundle_resampled).
Proof. unfold or_bundle_resampled. apply run_to. vm_compute. reflexivity. Qed.

Lemma resample_roi_idempotent_witness :
  resample_roi (A := named_images) "L_OR" or_bundle
  = (Ok tt, or_bundle_resampled)
  /\ resample_roi (A := named_images) "L_OR" or_bundle_resampled
     = (Ok tt, or_bundle_resampled).
Proof.
  split; [exact or_bundle_resample |].
  exact (resample_roi_idempotent (A := named_images) "L_OR" or_bundle
           or_bundle_resampled or_bundle_resample).
Defined.

Lemma mni_bundle_setitem :
  __setitem__ (A := named_images) "L_OR" waypoint_item mni_bundle
  = (Ok tt, mni_bundle_set).
Proof. unfold mni_bundle_set. apply run_to. vm_compute. reflexivity. Qed.

Lemma setitem_then_getitem_witness :
  __setitem__ (A := named_images) "L_OR" waypoint_item mni_bundle
  = (Ok tt, mni_bundle_set)
  /\ exists e,
       generated_getitem "L_OR" mni_bundle_set = (Ok e, mni_bundle_set)
       /\ (truthy (resample_to mni_bundle) = false -> e = waypoint_item)
       /\ (truthy (resample_to mni_bundle) = true ->
           exists d d',
             waypoint_item = Def d /\ e = Def d'
             /\ resampled_form (resample_to mni_bundle) d d').
Proof.
  split; [exact mni_bundle_setitem |].
  exact (setitem_then_getitem (A := named_images) "L_OR" waypoint_item
           mni_bundle mni_bundle_set mni_bundle_setitem).
Defined.


Lemma one_bundle_setitem :
  __setitem__ (A := named_images) "CST_L" (Atlas VNone) one_bundle
  = (Ok tt, one_bundle_set_again).
Proof.
  unfold one_bundle_set_again. apply run_to. vm_compute. reflexivity.
Qed.

Lemma one_bundle_has_key :
  is_Some (_dict (A := named_images) one_bundle !! "CST_L").
Proof. vm_compute. eauto. Qed.

Lemma overwrite_then_delete_leaves_name_witness :
  (consistent (A := named_images) one_bundle
   /\ is_Some (_dict one_bundle !! "CST_L")
   /\ __setitem__ (A := named_images) "CST_L" (Atlas VNone) one_bundle
      = (Ok tt, one_bundle_set_again))
  /\ exists g2,
       __delitem__ "CST_L" one_bundle_set_again = (Ok tt, g2)
       /\ _dict g2 !! "CST_L" = None
       /\ "CST_L" ∈ bundle_names g2
       /\ __len__ g2 = __len__ one_bundle
       /\ __delitem__ "CST_L" g2
          = (Raise (RuntimeError
               ("CST_L" +:+ " not found in internal dictionary, "
                        +:+ "but found in bundle_names")), g2).
Proof.
  split; [split; [exact one_bundle_consistent |];
          split; [exact one_bundle_has_key | exact one_bundle_setitem] |].
  exact (overwrite_then_delete_leaves_name (A := named_images)
           "CST_L" (Atlas VNone) one_bundle one_bundle_set_again (Ok tt)
           one_bundle_consistent one_bundle_has_key one_bundle_setitem).
Defined.

(** The dictionary of the tutorial on subject-space ROIs, a bundle given
    by its end points and nothing else, cannot be built with the default
    [resample_to]: resampling asks for its ['include']. *)
Example init_endpoints_only_raises :
  BundleDict_init (A := named_images)
    (InfoDict [("L_OR", endpoint_item)]) "afq" VNone
  = Raise (KeyError "include").
Proof. vm_compute. reflexivity. Qed.

Lemma occipital_names_NoDup : NoDup ["FP"; "Occipital"; "CST_L"].
Proof.
  repeat constructor; rewrite ?elem_of_cons, ?elem_of_nil;
    intros H; repeat destruct H as [H | H]; try discriminate H; exact H.
Qed.

Lemma occipital_dict_init :
  BundleDict_init (A := named_images)
    (InfoList ["FP"; "Occipital"; "CST_L"]) "AFQ" (VBool false)
  = Ok occipital_dict.
Proof. reflexivity. Qed.

Lemma init_drops_colocated_witness :
  (NoDup ["FP"; "Occipital"; "CST_L"]
   /\ BundleDict_init (A := named_images)
        (InfoList ["FP"; "Occipital"; "CST_L"]) "AFQ" (VBool false)
      = Ok occipital_dict)
  /\ (lower "AFQ" <> "afq" ->
      bundle_names (base occipital_dict) = ["FP"; "Occipital"; "CST_L"])
  /\ (lower "AFQ" = "afq" ->
      forall k,
        k ∈ bundle_names (base occipital_dict) <->
        k ∈ ["FP"; "Occipital"; "CST_L"]
        /\ ~ (k = "FP" /\ "Occipital" ∈ ["FP"; "Occipital"; "CST_L"])
        /\ ~ (k = "FA"
              /\ ("Orbital" ∈ ["FP"; "Occipital"; "CST_L"]
                  \/ "AntFrontal" ∈ ["FP"; "Occipital"; "CST_L"]))).
Proof.
  split; [split; [exact occipital_names_NoDup | exact occipital_dict_init] |].
  exact (init_drops_colocated (A := named_images)
           ["FP"; "Occipital"; "CST_L"] "AFQ" (VBool false) occipital_dict
           occipital_names_NoDup occipital_dict_init).
Defined.

Lemma cst_dict_gen_all :
  gen_all (A := named_images) cst_dict = (Ok tt, cst_dict_all).
Proof. unfold cst_dict_all. apply run_to. vm_compute. reflexivity. Qed.

Lemma gen_all_generates_every_name_witness :
  ((seg_algo cst_dict = "afq"
    \/ startswith "reco" (seg_algo cst_dict) = true)
   /\ gen_all (A := named_images) cst_dict = (Ok tt, cst_dict_all))
  /\ bundle_names (base cst_dict_all) = bundle_names (base cst_dict)
  /\ (forall k, k ∈ bundle_names (base cst_dict) ->
                is_Some (_dict (base cst_dict_all) !! k))
  /\ (forall k e, _dict (base cst_dict) !! k = Some e ->
                  _dict (base cst_dict_all) !! k = Some e).
Proof.
  assert (H1 : seg_algo cst_dict = "afq"
               \/ startswith "reco" (seg_algo cst_dict) = true)
    by (left; reflexivity).
  split; [split; [exact H1 | exact cst_dict_gen_all] |].
  exact (gen_all_generates_every_name (A := named_images)
           cst_dict cst_dict_all H1 cst_dict_gen_all).
Defined.

Lemma invalid_seg_algo_raises_on_access_witness :
  (lower "Waypoint" <> "afq" /\ startswith "reco" (lower "Waypoint") = false)
  /\ exists b,
       BundleDict_init (A := named_images) (InfoList ["CST_L"]) "Waypoint"
         (VBool false) = Ok b
       /\ seg_algo b = lower "Waypoint"
       /\ __getitem__ "CST_L" b
          = (Raise (ValueError
               ("Input: " +:+ lower "Waypoint"
                  +:+ " is not a valid input`seg_algo`")), b).
Proof.
  assert (H1 : lower "Waypoint" <> "afq") by (vm_compute; discriminate).
  assert (H2 : startswith "reco" (lower "Waypoint") = false) by reflexivity.
  split; [split; [exact H1 | exact H2] |].
  exact (invalid_seg_algo_raises_on_access (A := named_images)
           ["CST_L"] "Waypoint" (VBool false) "CST_L" H1 H2).
Defined.

Lemma cst_dict_load :
  load_templates (A := named_images) cst_dict = (Ok tt, cst_dict_loaded).
Proof.
  unfold cst_dict_loaded, ensure_loaded. unfold_m.
  change (templates_loaded cst_dict) with false. cbv iota.
  apply run_to. vm_compute. reflexivity.
Qed.

Lemma load_templates_precedence_witness :
  (seg_algo cst_dict = "afq"
   /\ load_templates (A := named_images) cst_dict = (Ok tt, cst_dict_loaded))
  /\ templates cst_dict_loaded !! "ARC_roi1_L"
     = match bundles_to_aal (bundle_names (base cst_dict)) !! "ARC_roi1_L" with
       | Some v => Some v
       | None =>
           match read_callosum_templates (resample_to (base cst_dict))
                 !! "ARC_roi1_L" with
           | Some v => Some v
           | None =>
               read_templates (resample_to (base cst_dict))
               !! (if String.eqb "ARC_roi1_L" "ARC_roi2_R" then "SLFt_roi2_R"
                   else if String.eqb "ARC_roi1_L" "ARC_roi2_L"
                   then "SLFt_roi2_L"
                   else if String.eqb "ARC_roi1_L" "ARC_roi1_R"
                   then "SLF_roi1_R"
                   else if String.eqb "ARC_roi1_L" "ARC_roi1_L"
                   then "SLF_roi1_L"
                   else "ARC_roi1_L")
           end
       end.
Proof.
  assert (H1 : seg_algo cst_dict = "afq") by reflexivity.
  split; [split; [exact H1 | exact cst_dict_load] |].
  exact (load_templates_precedence (A := named_images)
           cst_dict cst_dict_loaded "ARC_roi1_L" H1 cst_dict_load).
Defined.

(** On the example the first arcuate ROI is the template of the SLF. *)
Example arcuate_is_slf :
  templates cst_dict_loaded !! "ARC_roi1_L" = Some (VObj "SLF_roi1_L").
Proof. vm_compute. reflexivity. Qed.

Lemma getitem_recobundles_witness :
  (startswith "reco" (seg_algo reco_dict) = true
   /\ templates_loaded reco_dict = false
   /\ _dict (base reco_dict) !! "CST_L" = None)
  /\ __getitem__ (A := named_images) "CST_L" reco_dict
     = match read_hcp_atlas
               (if endswith "80" (seg_algo reco_dict) then 80 else 16)
             !! "CST_L" with
       | Some v =>
           (Ok (Atlas v),
            set_base (set_dict (insert "CST_L" (Atlas v)))
              (BundleDictState (base reco_dict) (seg_algo reco_dict) true
                 (read_hcp_atlas
                    (if endswith "80" (seg_algo reco_dict) then 80 else 16))
                 (S (reads reco_dict))))
       | None =>
           (Raise (KeyError "CST_L"),
            BundleDictState (base reco_dict) (seg_algo reco_dict) true
              (read_hcp_atlas
                 (if endswith "80" (seg_algo reco_dict) then 80 else 16))
              (S (reads reco_dict)))
       end.
Proof.
  assert (H1 : startswith "reco" (seg_algo (A := named_images) reco_dict)
               = true) by reflexivity.
  assert (H2 : templates_loaded (A := named_images) reco_dict = false)
    by reflexivity.
  assert (H3 : _dict (base (A := named_images) reco_dict) !! "CST_L" = None)
    by reflexivity.
  split; [auto |].
  exact (getitem_recobundles (A := named_images) "CST_L" reco_dict H1 H2 H3).
Defined.

End BundleMoreInstances.
